(** * Providence analytics: the analyzer lifecycle

    A shallow embedding of [Analyzer.js] (providence-analytics,
    [src/program/core]): the compatibility gate
    [checkForMatchCompatibility], the result normaliser
    [ensureAnalyzerResultFormat] with [posixify], the unwinding of stored
    results, the per-file traversal [analyzePerAstEntry] and the three
    phases [_prepare], [_traverse], [_finalize] driven by [execute].

    JavaScript values are modelled as trees ([value]); an object is the list
    of its own enumerable properties in enumeration order.  Code that can
    throw returns an [outcome]; code that touches the analyzer instance,
    the cache store or a collaborator runs in the monad [M], which threads
    the analyzer and the store and collects the collaborator and logger
    calls of a run as its events.  Objects are values, not references: a
    change is seen where the model makes it, not through other references
    to the same JavaScript object.  The metadata the analyzer holds for the
    two projects are the exception: [ensureAnalyzerResultFormat] puts these
    very objects into its result, and what it does to them there is done to
    the analyzer.  The same objects can also sit inside a provided result of
    the configuration; there the model keeps them as they were given. *)

From Stdlib Require Import String Ascii ZArith List Bool Lia DecimalString.
From stdpp Require Import base option gmap strings.
Import ListNotations.

Local Open Scope string_scope.
Local Open Scope list_scope.

(** ** JavaScript values

    The values the analyzer handles are those of parsed JSON, and
    [undefined].  Numbers are kept as integers: the analyzer only tests
    them for truthiness and builds them from lengths. *)

#[local] Unset Elimination Schemes.
Inductive value : Type :=
| JUndefined
| JNull
| JBool (b : bool)
| JNum (n : Z)
| JStr (s : string)
| JArr (items : list value)
| JObj (props : list (string * value)).
#[local] Set Elimination Schemes.

(** Structural induction that also reaches the members of arrays and
    objects. *)
Definition value_ind' (P : value -> Prop)
  (Hu : P JUndefined) (Hn : P JNull)
  (Hb : forall b, P (JBool b)) (Hz : forall n, P (JNum n)) (Hs : forall s, P (JStr s))
  (Ha : forall items, Forall P items -> P (JArr items))
  (Ho : forall props, Forall (fun kv => P (snd kv)) props -> P (JObj props))
  : forall v, P v :=
  fix go (v : value) : P v :=
    match v with
    | JUndefined => Hu
    | JNull => Hn
    | JBool b => Hb b
    | JNum n => Hz n
    | JStr s => Hs s
    | JArr items =>
        Ha items
          ((fix all (l : list value) : Forall P l :=
              match l with
              | [] => List.Forall_nil P
              | x :: rest => List.Forall_cons _ x rest (go x) (all rest)
              end) items)
    | JObj props =>
        Ho props
          ((fix all (l : list (string * value)) : Forall (fun kv => P (snd kv)) l :=
              match l with
              | [] => List.Forall_nil _
              | kv :: rest => List.Forall_cons _ kv rest (go (snd kv)) (all rest)
              end) props)
    end.

(** [!!v] in JavaScript: [undefined], [null], [false], [0] and the empty
    string are falsy, everything else is truthy. *)
Definition truthy (v : value) : bool :=
  match v with
  | JUndefined | JNull => false
  | JBool b => b
  | JNum n => negb (n =? 0)%Z
  | JStr s => negb (s =? "")
  | JArr _ | JObj _ => true
  end.

Definition nullish (v : value) : bool :=
  match v with
  | JUndefined | JNull => true
  | _ => false
  end.

(** [a || b] *)
Definition js_or (a b : value) : value := if truthy a then a else b.

(** The key JavaScript gives to array index [i]. *)
Definition index_key (i : nat) : string := NilZero.string_of_uint (Nat.to_uint i).

Fixpoint indexed (i : nat) (items : list value) : list (string * value) :=
  match items with
  | [] => []
  | x :: rest => (index_key i, x) :: indexed (S i) rest
  end.

Definition chars (s : string) : list value :=
  map (fun c => JStr (String c EmptyString)) (list_ascii_of_string s).

(** Own enumerable string-keyed properties, in enumeration order: what
    [Object.entries] lists and what an object spread copies. *)
Definition own_entries (v : value) : list (string * value) :=
  match v with
  | JObj props => props
  | JArr items => indexed 0 items
  | JStr s => indexed 0 (chars s)
  | _ => []
  end.

Fixpoint lookup_key (k : string) (props : list (string * value)) : option value :=
  match props with
  | [] => None
  | (k', v) :: rest => if k' =? k then Some v else lookup_key k rest
  end.

Definition has_key (k : string) (v : value) : bool :=
  match v with
  | JObj props => existsb (fun kv => fst kv =? k) props
  | _ => false
  end.

(** The value read by [v.k] when [v] is neither [undefined] nor [null].
    Arrays and strings also answer [length]; no other name the analyzer
    reads is supplied by a built-in prototype. *)
Definition prop (k : string) (v : value) : value :=
  match v with
  | JArr items =>
      if k =? "length" then JNum (Z.of_nat (length items))
      else default JUndefined (lookup_key k (own_entries v))
  | JStr s =>
      if k =? "length" then JNum (Z.of_nat (String.length s))
      else default JUndefined (lookup_key k (own_entries v))
  | _ => default JUndefined (lookup_key k (own_entries v))
  end.

(** ** Outcomes *)

Inductive error : Type :=
| TypeError (what : string)
| Failure (who : string).

(** [Return] and [Throw] are the two ways JavaScript code finishes.
    [Unmodelled] marks the one situation the tree model of values cannot
    follow: a named property stored on an array. *)
Inductive outcome (A : Type) : Type :=
| Return (a : A)
| Throw (e : error)
| Unmodelled.
Arguments Return {A} a.
Arguments Throw {A} e.
Arguments Unmodelled {A}.

Definition obind {A B} (o : outcome A) (f : A -> outcome B) : outcome B :=
  match o with
  | Return a => f a
  | Throw e => Throw e
  | Unmodelled => Unmodelled
  end.

#[export] Instance outcome_ret : MRet outcome := @Return.
#[export] Instance outcome_bind : MBind outcome := fun A B f o => obind o f.

(** [v.k]: reading a property of [undefined] or [null] throws. *)
Definition get (k : string) (v : value) : outcome value :=
  if nullish v then Throw (TypeError ("Cannot read properties of undefined or null: " +:+ k))
  else Return (prop k v).

Definition remove_key (k : string) (props : list (string * value)) : list (string * value) :=
  List.filter (fun kv => negb (fst kv =? k)) props.

(** [delete v.k] for a value that is neither [undefined] nor [null]; the
    names the analyzer deletes are never array indices. *)
Definition delete_prop (k : string) (v : value) : value :=
  match v with
  | JObj props => JObj (remove_key k props)
  | _ => v
  end.

Fixpoint replace_key (k : string) (x : value) (props : list (string * value))
  : list (string * value) :=
  match props with
  | [] => [(k, x)]
  | (k', v) :: rest =>
      if k' =? k then (k, x) :: rest else (k', v) :: replace_key k x rest
  end.

(** [{...a, ...b}] on property lists: a key of [b] already in [a] keeps its
    place and takes the new value, a new key goes to the end. *)
Definition spread (a b : list (string * value)) : list (string * value) :=
  fold_left (fun acc kv => replace_key (fst kv) (snd kv) acc) b a.

(** ** Collaborators

    The services the analyzer calls but does not define: the platform, the
    path utilities, semver, the file system holding the manifests, and the
    input-data, query and report services. *)

Record ast_entry : Type := {
  file : string;
  ast : value;
  code : value
}.

(** [projectPath] stands for [projectData.project.path]. *)
Record project_data : Type := {
  projectPath : string;
  entries : list ast_entry
}.

Record ast_context : Type := {
  ctx_code : value;
  ctx_relativePath : string;
  ctx_projectData : project_data
}.

Record collaborators : Type := {
  (** [process.platform] *)
  platform : string;
  (** [toPosixPath(pathStr)] *)
  toPosixPath : string -> string;
  (** [getFilePathRelativeFromRoot(file, projectPath)] *)
  getFilePathRelativeFromRoot : string -> string -> string;
  (** [semver.satisfies(version, range)] *)
  satisfies : value -> value -> bool;
  (** [JSON.parse(fs.readFileSync(pathLib.resolve(dir, 'package.json')))];
      [None] when the file cannot be read or parsed. *)
  readManifest : string -> option value;
  (** [InputDataService.getProjectMeta(path)] *)
  getProjectMeta : value -> outcome value;
  (** [ReportService.createIdentifier({targetProject, referenceProject, analyzerConfig})] *)
  createIdentifier : value -> value -> value -> string;
  (** [InputDataService.createDataObject(paths, gatherFilesConfig)] *)
  createDataObject : list value -> value -> outcome value;
  (** [QueryService.addAstToProjectsData(data, dialect)] *)
  addAstToProjectsData : value -> string -> outcome (list project_data)
}.

(** ** The analyzer instance, the cache store and the events of a call *)

Inductive level : Type := Debug | Info | Success.

Inductive message : Type :=
| Started (analyzerName method : string)
| Resolved (projectPath file : string)
| Skipping (analyzerName : string) (identifier : value) (reason : string)
| CachedVersionFound (identifier : string)
| Starting (analyzerName : string) (identifier : value)
| Finished (analyzerName : string) (identifier : value).

Inductive event : Type :=
| Log (l : level) (m : message)
| ProjectMetaRead (path : value)
| CacheLookup (analyzerName identifier : string)
| FilesGathered (paths : list value) (gatherFilesConfig : value)
| AstRequested (data : value) (dialect : string)
| FileAnalysed (ast : value) (relativePath : string).

Record world : Type := {
  analyzerName : string;
  targetProjectMeta : value;
  referenceProjectMeta : value;
  identifier : value;
  targetData : value;
  referenceData : value;
  store : gmap (string * string) value
}.

Definition set_targetProjectMeta (v : value) (w : world) : world :=
  {| analyzerName := analyzerName w; targetProjectMeta := v;
     referenceProjectMeta := referenceProjectMeta w; identifier := identifier w;
     targetData := targetData w; referenceData := referenceData w;
     store := store w |}.

Definition set_referenceProjectMeta (v : value) (w : world) : world :=
  {| analyzerName := analyzerName w; targetProjectMeta := targetProjectMeta w;
     referenceProjectMeta := v; identifier := identifier w;
     targetData := targetData w; referenceData := referenceData w;
     store := store w |}.

Definition set_identifier (v : value) (w : world) : world :=
  {| analyzerName := analyzerName w; targetProjectMeta := targetProjectMeta w;
     referenceProjectMeta := referenceProjectMeta w; identifier := v;
     targetData := targetData w; referenceData := referenceData w;
     store := store w |}.

Definition set_targetData (v : value) (w : world) : world :=
  {| analyzerName := analyzerName w; targetProjectMeta := targetProjectMeta w;
     referenceProjectMeta := referenceProjectMeta w; identifier := identifier w;
     targetData := v; referenceData := referenceData w;
     store := store w |}.

Definition set_referenceData (v : value) (w : world) : world :=
  {| analyzerName := analyzerName w; targetProjectMeta := targetProjectMeta w;
     referenceProjectMeta := referenceProjectMeta w; identifier := identifier w;
     targetData := targetData w; referenceData := v;
     store := store w |}.

(** A freshly constructed analyzer of the given name, before any call. *)
Definition fresh (name : string) (cache : gmap (string * string) value) : world :=
  {| analyzerName := name; targetProjectMeta := JUndefined;
     referenceProjectMeta := JUndefined; identifier := JUndefined;
     targetData := JUndefined; referenceData := JUndefined;
     store := cache |}.

(** ** The monad of analyzer code

    A computation starts in a world and ends with an outcome, the world it
    reached (also when it throws) and the events of the call, oldest
    first. *)

Record run (A : Type) : Type := Run {
  result : outcome A;
  final : world;
  events : list event
}.
Arguments Run {A} result final events.
Arguments result {A} r.
Arguments final {A} r.
Arguments events {A} r.

Definition M (A : Type) : Type := world -> run A.

Definition ret {A} (a : A) : M A := fun w => Run (Return a) w [].

(** The events [t] of what ran before, put in front of a run. *)
Definition after {A} (t : list event) (r : run A) : run A :=
  match r with
  | Run o w t' => Run o w (t ++ t')
  end.

Definition bind {A B} (m : M A) (f : A -> M B) : M B :=
  fun w =>
    match m w with
    | Run (Return a) w' t => after t (f a w')
    | Run (Throw e) w' t => Run (Throw e) w' t
    | Run Unmodelled w' t => Run Unmodelled w' t
    end.

Definition lift {A} (o : outcome A) : M A := fun w => Run o w [].

Definition throw {A} (e : error) : M A := lift (Throw e).

Definition emit (e : event) : M unit := fun w => Run (Return tt) w [e].

Definition read {A} (f : world -> A) : M A := fun w => Run (Return (f w)) w [].

Definition update (f : world -> world) : M unit := fun w => Run (Return tt) (f w) [].

Declare Scope analyzer_scope.
Delimit Scope analyzer_scope with analyzer.
Notation "x <- m ;; k" := (bind m (fun x => k))
  (at level 20, m at level 99, k at level 200, only parsing) : analyzer_scope.
Local Open Scope analyzer_scope.

Fixpoint mapM {A B} (f : A -> M B) (l : list A) : M (list B) :=
  match l with
  | [] => ret []
  | x :: rest => y <- f x ;; ys <- mapM f rest ;; ret (y :: ys)
  end.

(** ** The analyzer *)

(** An object given by its own properties. *)
Definition obj : Type := list (string * value).

Definition field (k : string) (o : obj) : value := prop k (JObj o).

(** [v.k = x] in strict-mode code. *)
Definition set_prop (k : string) (x : value) (v : value) : outcome value :=
  match v with
  | JObj props => Return (JObj (replace_key k x props))
  | JArr _ => Unmodelled
  | _ => Throw (TypeError ("Cannot set property " +:+ k))
  end.

Record compatibility : Type := {
  compatible : bool;
  reason : option string
}.

Section Analyzer.

Variable C : collaborators.

(** *** posixify *)

(** The callback of [Object.entries(data).forEach] in [posixify], with
    [recur] for the recursive call: the value property [k] holds
    afterwards. *)
Definition posixify_member (recur : value -> value) (k : string) (v : value) : value :=
  match v with
  | JArr _ | JObj _ => recur v
  | JStr path => if k =? "file" then JStr (toPosixPath C path) else v
  | _ => v
  end.

(** [posixify(data)] mutates [data] in place; the function returns the
    value [data] holds afterwards. *)
Fixpoint posixify (data : value) : value :=
  match data with
  | JArr items => JArr (map posixify items)
  | JObj props =>
      JObj (map (fun kv => (fst kv, posixify_member posixify (fst kv) (snd kv))) props)
  | _ => data
  end.

(** *** checkForMatchCompatibility *)

Definition readPackageJson (dir : value) : outcome value :=
  match dir with
  | JStr d =>
      match readManifest C d with
      | Some pkg => Return pkg
      | None => Throw (Failure "package.json")
      end
  | _ => Throw (TypeError "The path argument must be of type string")
  end.

(** [v === name] for a string [name]. *)
Definition is_string (name : string) (v : value) : bool :=
  match v with JStr s => s =? name | _ => false end.

(** [allTargetDeps.find(([name]) => referencePkg.name === name)] *)
Fixpoint find_import (referencePkg : value) (allTargetDeps : list (string * value))
  : outcome (option (string * value)) :=
  match allTargetDeps with
  | [] => Return None
  | (name, range) :: rest =>
      refName ← get "name" referencePkg;
      if is_string name refName then Return (Some (name, range))
      else find_import referencePkg rest
  end.

Definition checkForMatchCompatibility (referencePath targetPath : value)
  : outcome compatibility :=
  referencePkg ← readPackageJson referencePath;
  targetPkg ← readPackageJson targetPath;
  devDependencies ← get "devDependencies" targetPkg;
  dependencies ← get "dependencies" targetPkg;
  let allTargetDeps :=
    own_entries (js_or devDependencies (JObj [])) ++
    own_entries (js_or dependencies (JObj [])) in
  importEntry ← find_import referencePkg allTargetDeps;
  match importEntry with
  | None => Return {| compatible := false; reason := Some "no-dependency" |}
  | Some (_, range) =>
      version ← get "version" referencePkg;
      if negb (satisfies C version range)
      then Return {| compatible := false; reason := Some "no-matched-version" |}
      else Return {| compatible := true; reason := None |}
  end.

(** *** unwindJsonResult and the provided results *)

Definition unwindJsonResult (targetOrReferenceProjectResult : value) : outcome value :=
  queryOutput ← get "queryOutput" targetOrReferenceProjectResult;
  meta ← get "meta" targetOrReferenceProjectResult;
  analyzerMeta ← get "analyzerMeta" meta;
  Return (JObj [("queryOutput", queryOutput); ("analyzerMeta", analyzerMeta)]).

(** One of the two statements of [__unwindProvidedResults], for the
    property [k] of [cfg]. *)
Definition unwind_provided (k : string) (cfg : obj) : outcome obj :=
  let provided := field k cfg in
  if truthy provided then
    analyzerMeta ← get "analyzerMeta" provided;
    if negb (truthy analyzerMeta) then
      unwound ← unwindJsonResult provided;
      Return (replace_key k unwound cfg)
    else Return cfg
  else Return cfg.

Definition __unwindProvidedResults (cfg : obj) : outcome obj :=
  cfg ← unwind_provided "targetProjectResult" cfg;
  unwind_provided "referenceProjectResult" cfg.

(** *** ensureAnalyzerResultFormat *)

(** The body of the [forEach] over an array [queryOutput]. *)
Definition strip_project_path (projectOutput : value) : outcome value :=
  project ← get "project" projectOutput;
  if truthy project then
    match projectOutput with
    | JObj props => Return (JObj (replace_key "project" (delete_prop "path" project) props))
    | _ => Return projectOutput
    end
  else Return projectOutput.

Fixpoint for_each (f : value -> outcome value) (items : list value)
  : outcome (list value) :=
  match items with
  | [] => Return []
  | x :: rest => y ← f x; ys ← for_each f rest; Return (y :: ys)
  end.

(** [this.requiredAst] *)
Definition requiredAst : string := "babel".

(** The statements of [ensureAnalyzerResultFormat] up to the platform test:
    they build [aResult] and strip the machine-specific data. *)
Definition assembleResult (queryOutput : value) (configuration : obj) : M value :=
  targetMeta <- read targetProjectMeta ;;
  ident <- read identifier ;;
  referenceMeta <- read referenceProjectMeta ;;
  optional <-
    (if truthy targetMeta then
       _ <- update (set_targetProjectMeta (delete_prop "path" targetMeta)) ;;
       ret [("targetProject", delete_prop "path" targetMeta)]
     else ret []) ;;
  optional <-
    (if truthy referenceMeta then
       _ <- update (set_referenceProjectMeta (delete_prop "path" referenceMeta)) ;;
       ret (optional ++ [("referenceProject", delete_prop "path" referenceMeta)])
     else ret optional) ;;
  name <- read analyzerName ;;
  let configuration :=
    remove_key "targetProjectPath" (remove_key "referenceProjectPath" configuration) in
  let referenceProjectResult := field "referenceProjectResult" configuration in
  let targetProjectResult := field "targetProjectResult" configuration in
  let configuration :=
    if truthy referenceProjectResult then remove_key "referenceProjectResult" configuration
    else if truthy targetProjectResult then remove_key "targetProjectResult" configuration
    else configuration in
  queryOutput <-
    lift (match queryOutput with
          | JArr items => items ← for_each strip_project_path items; Return (JArr items)
          | _ => Return queryOutput
          end) ;;
  let aResult :=
    JObj [("queryOutput", queryOutput);
          ("analyzerMeta",
            JObj ([("name", JStr name);
                   ("requiredAst", JStr requiredAst);
                   ("identifier", ident)]
                  ++ optional
                  ++ [("configuration", JObj configuration)]))] in
  ret aResult.

(** What [posixify(aResult)] does to the analyzer: the metadata under
    [aResult.analyzerMeta] are the analyzer's own objects, and [posixify]
    rewrites them in place. *)
Definition posixify_metas (w : world) : world :=
  set_referenceProjectMeta (posixify (referenceProjectMeta w))
    (set_targetProjectMeta (posixify (targetProjectMeta w)) w).

Definition ensureAnalyzerResultFormat (queryOutput : value) (configuration : obj)
  : M value :=
  aResult <- assembleResult queryOutput configuration ;;
  if platform C =? "win32" then
    _ <- update posixify_metas ;;
    ret (posixify aResult)
  else ret aResult.

(** *** The cache *)

(** Modelled from the spec: [ReportService.getCachedResult], which is not
    part of this source.  The spec gives the Cache Store the contract
    [get(analyzerName, identifier) -> CachedResult | undefined]. *)
Definition getCachedResult (name ident : string) : M value :=
  _ <- emit (CacheLookup name ident) ;;
  cache <- read store ;;
  ret (default JUndefined (cache !! (name, ident))).

Definition _getCachedAnalyzerResult (name ident : string) : M value :=
  cachedResult <- getCachedResult name ident ;;
  if negb (truthy cachedResult) then ret JUndefined
  else
    _ <- emit (Log Success (CachedVersionFound ident)) ;;
    result <- lift (unwindJsonResult cachedResult) ;;
    analyzerMeta <- lift (set_prop "__fromCache" (JBool true) (prop "analyzerMeta" result)) ;;
    ret (JObj [("queryOutput", prop "queryOutput" result); ("analyzerMeta", analyzerMeta)]).

(** *** analyzePerAstEntry *)

(** The per-file analysis function: called with the ast and the context,
    it returns a value from which [result] and [meta] are read, or throws. *)
Definition ast_analysis : Type := value -> ast_context -> outcome value.

(** [entries.filter(({ result }) => Boolean(result.length))] *)
Fixpoint filter_entries (entries : list value) : outcome (list value) :=
  match entries with
  | [] => Return []
  | entry :: rest =>
      len ← get "length" (prop "result" entry);
      kept ← filter_entries rest;
      Return (if truthy len then entry :: kept else kept)
  end.

(** [getFilePathRelativeFromRoot(file, projectData.project.path)] *)
Definition relative_path (projectData : project_data) (entry : ast_entry) : string :=
  getFilePathRelativeFromRoot C (file entry) (projectPath projectData).

(** [{ code: astContext.code, relativePath, projectData }] *)
Definition context_of (projectData : project_data) (entry : ast_entry) : ast_context :=
  {| ctx_code := code entry;
     ctx_relativePath := relative_path projectData entry;
     ctx_projectData := projectData |}.

(** One turn of the [for ... of] loop. *)
Definition analyze_entry (projectData : project_data) (astAnalysis : ast_analysis)
    (entry : ast_entry) : M value :=
  let relativePath := relative_path projectData entry in
  let context := context_of projectData entry in
  _ <- emit (Log Debug (Resolved (projectPath projectData) (file entry))) ;;
  _ <- emit (FileAnalysed (ast entry) relativePath) ;;
  analysed <- lift (astAnalysis (ast entry) context) ;;
  result <- lift (get "result" analysed) ;;
  meta <- lift (get "meta" analysed) ;;
  ret (JObj [("file", JStr relativePath); ("meta", meta); ("result", result)]).

Definition analyzePerAstEntry (projectData : project_data) (astAnalysis : ast_analysis)
  : M (list value) :=
  collected <- mapM (analyze_entry projectData astAnalysis) (entries projectData) ;;
  lift (filter_entries collected).

(** *** The three phases *)

(** [InputDataService.getProjectMeta(path)], recorded among the events. *)
Definition projectMeta (path : value) : M value :=
  _ <- emit (ProjectMetaRead path) ;;
  lift (getProjectMeta C path).

(** [InputDataService.createDataObject(paths, cfg)], recorded among the events. *)
Definition dataObject (paths : list value) (gatherFilesConfig : value) : M value :=
  _ <- emit (FilesGathered paths gatherFilesConfig) ;;
  lift (createDataObject C paths gatherFilesConfig).

(** The text of a skip result: [`[${reason}]`]. *)
Definition bracketed (reason : option string) : string :=
  "[" +:+ default "undefined" reason +:+ "]".

(** [_prepare], first part: unwind the provided results, resolve the
    metadata of both projects and derive the identifier.  Returns [cfg] as
    the unwinding leaves it. *)
Definition identify (cfg : obj) : M obj :=
  name <- read analyzerName ;;
  _ <- emit (Log Debug (Started name "_prepare")) ;;
  cfg <- lift (__unwindProvidedResults cfg) ;;
  targetMeta <-
    (if negb (truthy (field "targetProjectResult" cfg))
     then projectMeta (field "targetProjectPath" cfg)
     else lift (analyzerMeta ← get "analyzerMeta" (field "targetProjectResult" cfg);
                get "targetProject" analyzerMeta)) ;;
  _ <- update (set_targetProjectMeta targetMeta) ;;
  _ <-
    (if truthy (field "referenceProjectPath" cfg)
        && negb (truthy (field "referenceProjectResult" cfg))
     then
       referenceMeta <- projectMeta (field "referenceProjectPath" cfg) ;;
       update (set_referenceProjectMeta referenceMeta)
     else if truthy (field "referenceProjectResult" cfg)
     then
       referenceMeta <-
         lift (analyzerMeta ← get "analyzerMeta" (field "referenceProjectResult" cfg);
               get "targetProject" analyzerMeta) ;;
       update (set_referenceProjectMeta referenceMeta)
     else ret tt) ;;
  targetMeta <- read targetProjectMeta ;;
  referenceMeta <- read referenceProjectMeta ;;
  _ <- update (set_identifier
                 (JStr (createIdentifier C targetMeta referenceMeta (JObj cfg)))) ;;
  ret cfg.

(** [this.identifier] where a string is expected (a template literal or
    the cache key); [identify] always stores a string. *)
Definition identifier_text (w : world) : string :=
  match identifier w with
  | JStr s => s
  | _ => "undefined"
  end.

(** [_prepare], second part: the compatibility gate.  [Some] carries the
    skip result. *)
Definition gate (cfg : obj) : M (option value) :=
  name <- read analyzerName ;;
  ident <- read identifier ;;
  if truthy (field "referenceProjectPath" cfg)
     && negb (truthy (field "skipCheckMatchCompatibility" cfg))
  then
    verdict <-
      lift (checkForMatchCompatibility (field "referenceProjectPath" cfg)
              (field "targetProjectPath" cfg)) ;;
    if negb (compatible verdict) then
      _ <- emit (Log Info (Skipping name ident (default "undefined" (reason verdict)))) ;;
      skipResult <- ensureAnalyzerResultFormat (JStr (bracketed (reason verdict))) cfg ;;
      ret (Some skipResult)
    else ret None
  else ret None.

(** [_prepare], last part: load the data of both projects. *)
Definition gather (cfg : obj) : M unit :=
  name <- read analyzerName ;;
  ident <- read identifier ;;
  _ <- emit (Log Info (Starting name ident)) ;;
  _ <-
    (if negb (truthy (field "targetProjectResult" cfg)) then
       data <- dataObject [field "targetProjectPath" cfg] (field "gatherFilesConfig" cfg) ;;
       update (set_targetData data)
     else ret tt) ;;
  if truthy (field "referenceProjectPath" cfg) then
    data <- dataObject [field "referenceProjectPath" cfg]
              (js_or (field "gatherFilesConfigReference" cfg)
                 (field "gatherFilesConfig" cfg)) ;;
    update (set_referenceData data)
  else ret tt.

(** [_prepare(cfg)] returns the short-circuit result or [undefined]; the
    second component is [cfg] as the unwinding left it, the object
    [execute] goes on with. *)
Definition _prepare (cfg : obj) : M (value * obj) :=
  cfg <- identify cfg ;;
  skipped <- gate cfg ;;
  match skipped with
  | Some skipResult => ret (skipResult, cfg)
  | None =>
      name <- read analyzerName ;;
      ident <- read identifier_text ;;
      cachedResult <- _getCachedAnalyzerResult name ident ;;
      if truthy cachedResult then ret (cachedResult, cfg)
      else
        _ <- gather cfg ;;
        ret (JUndefined, cfg)
  end.

Definition _finalize (queryOutput : value) (cfg : obj) : M value :=
  name <- read analyzerName ;;
  _ <- emit (Log Debug (Started name "_finalize")) ;;
  analyzerResult <- ensureAnalyzerResultFormat queryOutput cfg ;;
  ident <- read identifier ;;
  _ <- emit (Log Success (Finished name ident)) ;;
  ret analyzerResult.

Definition _traverse (traverseEntry : ast_analysis) : M value :=
  name <- read analyzerName ;;
  _ <- emit (Log Debug (Started name "_traverse")) ;;
  data <- read targetData ;;
  _ <- emit (AstRequested data "babel") ;;
  astDataProjects <- lift (addAstToProjectsData C data "babel") ;;
  match astDataProjects with
  | [] => throw (TypeError "Cannot read properties of undefined: entries")
  | first :: _ =>
      kept <- analyzePerAstEntry first traverseEntry ;;
      ret (JArr kept)
  end.

(** [{ targetProjectPath: null, referenceProjectPath: null, ...customConfig }] *)
Definition initial_config (customConfig : value) : obj :=
  spread [("targetProjectPath", JNull); ("referenceProjectPath", JNull)]
    (own_entries customConfig).

(** The lifecycle of [execute], for a per-file function [traverseEntry]. *)
Definition executeWith (traverseEntry : ast_analysis) (customConfig : value) : M value :=
  name <- read analyzerName ;;
  _ <- emit (Log Debug (Started name "execute")) ;;
  let cfg := initial_config customConfig in
  prepared <- _prepare cfg ;;
  if truthy (fst prepared) then ret (fst prepared)
  else
    queryOutput <- _traverse traverseEntry ;;
    _finalize queryOutput (snd prepared).

(** [execute(customConfig)] of the base class traverses with [() => {}]. *)
Definition execute (customConfig : value) : M value :=
  executeWith (fun _ _ => Return JUndefined) customConfig.

End Analyzer.

(** ** Vocabulary of the specification *)

(** *** Compatibility *)

(** The names the target manifest declares: the union of its dependencies
    and devDependencies. *)
Definition dependency_names (targetPkg : value) : list string :=
  map fst (own_entries (js_or (prop "dependencies" targetPkg) (JObj []))) ++
  map fst (own_entries (js_or (prop "devDependencies" targetPkg) (JObj []))).

Definition appears (name : value) (names : list string) : bool :=
  existsb (fun k => is_string k name) names.

(** The range the target manifest declares for [name]; a name declared in
    both sections takes the range of devDependencies. *)
Definition declared_range (name : value) (targetPkg : value) : value :=
  let named := fun kv : string * value => is_string (fst kv) name in
  match List.find named (own_entries (js_or (prop "devDependencies" targetPkg) (JObj []))) with
  | Some (_, range) => range
  | None =>
      match List.find named (own_entries (js_or (prop "dependencies" targetPkg) (JObj []))) with
      | Some (_, range) => range
      | None => JUndefined
      end
  end.

(** The verdict in the words of the specification. *)
Definition verdict_of (C : collaborators) (referencePkg targetPkg : value) : compatibility :=
  if negb (appears (prop "name" referencePkg) (dependency_names targetPkg))
  then {| compatible := false; reason := Some "no-dependency" |}
  else if negb (satisfies C (prop "version" referencePkg)
                  (declared_range (prop "name" referencePkg) targetPkg))
  then {| compatible := false; reason := Some "no-matched-version" |}
  else {| compatible := true; reason := None |}.

(** *** Phases seen in the events of a call *)

Definition traversal_event (e : event) : bool :=
  match e with
  | Log _ (Started _ method) => method =? "_traverse"
  | Log _ (Resolved _ _) => true
  | AstRequested _ _ => true
  | FileAnalysed _ _ => true
  | _ => false
  end.

Definition finalize_event (e : event) : bool :=
  match e with
  | Log _ (Started _ method) => method =? "_finalize"
  | Log _ (Finished _ _) => true
  | _ => false
  end.

(** *** Sanitization *)

(** An object carries a provided result under [k] when the property holds
    a truthy value, the test [ensureAnalyzerResultFormat] itself applies. *)
Definition carries (k : string) (o : value) : bool := truthy (prop k o).

Definition sanitized (r : value) : bool :=
  let analyzerMeta := prop "analyzerMeta" r in
  let configuration := prop "configuration" analyzerMeta in
  negb (has_key "targetProjectPath" configuration)
  && negb (has_key "referenceProjectPath" configuration)
  && negb (carries "targetProjectResult" configuration
           && carries "referenceProjectResult" configuration)
  && negb (has_key "path" (prop "targetProject" analyzerMeta))
  && negb (has_key "path" (prop "referenceProject" analyzerMeta))
  && match prop "queryOutput" r with
     | JArr items => forallb (fun e => negb (has_key "path" (prop "project" e))) items
     | _ => true
     end.

(** What [unwindJsonResult] makes of a stored entry that has a [meta]. *)
Definition unwound (cached : value) : value :=
  JObj [("queryOutput", prop "queryOutput" cached);
        ("analyzerMeta", prop "analyzerMeta" (prop "meta" cached))].

Definition is_object (v : value) : bool :=
  match v with JObj _ => true | _ => false end.

(** The envelope of an AnalyzerQueryResult: a query output beside an
    [analyzerMeta] object that holds a [configuration] object. *)
Definition enveloped (r : value) : bool :=
  has_key "queryOutput" r
  && is_object (prop "analyzerMeta" r)
  && is_object (prop "configuration" (prop "analyzerMeta" r)).

(** A property name that is neither [length] nor an array index. *)
Definition plain_name (k : string) : Prop :=
  k <> "length" /\ forall i, index_key i <> k.

(** *** The parts of a normalized result *)

(** A metadata object once [ensureAnalyzerResultFormat] has seen it. *)
Definition stripped_meta (meta : value) : value :=
  if truthy meta then delete_prop "path" meta else meta.

Definition strip_metas (w : world) : world :=
  set_referenceProjectMeta (stripped_meta (referenceProjectMeta w))
    (set_targetProjectMeta (stripped_meta (targetProjectMeta w)) w).

(** The analyzer once [ensureAnalyzerResultFormat] has returned. *)
Definition settle_metas (C : collaborators) (w : world) : world :=
  if platform C =? "win32" then posixify_metas C (strip_metas w) else strip_metas w.

Definition optional_entry (k : string) (meta : value) : obj :=
  if truthy meta then [(k, delete_prop "path" meta)] else [].

Definition stripped_configuration (configuration : obj) : obj :=
  let configuration :=
    remove_key "targetProjectPath" (remove_key "referenceProjectPath" configuration) in
  if truthy (field "referenceProjectResult" configuration)
  then remove_key "referenceProjectResult" configuration
  else if truthy (field "targetProjectResult" configuration)
  then remove_key "targetProjectResult" configuration
  else configuration.

Definition stripped_output (queryOutput : value) : outcome value :=
  match queryOutput with
  | JArr items => obind (for_each strip_project_path items) (fun items => Return (JArr items))
  | _ => Return queryOutput
  end.

Definition assembled (w : world) (queryOutput : value) (configuration : obj) : value :=
  JObj [("queryOutput", queryOutput);
        ("analyzerMeta",
          JObj ([("name", JStr (analyzerName w));
                 ("requiredAst", JStr requiredAst);
                 ("identifier", identifier w)]
                ++ optional_entry "targetProject" (targetProjectMeta w)
                ++ optional_entry "referenceProject" (referenceProjectMeta w)
                ++ [("configuration", JObj (stripped_configuration configuration))]))].

(** The last statement of [ensureAnalyzerResultFormat]. *)
Definition normalized (C : collaborators) (aResult : value) : value :=
  if platform C =? "win32" then posixify C aResult else aResult.

(** *** The metadata [_prepare] resolves *)

(** [this.targetProjectMeta] as [_prepare] sets it for an unwound [cfg]. *)
Definition target_meta (C : collaborators) (cfg : obj) : outcome value :=
  if negb (truthy (field "targetProjectResult" cfg))
  then getProjectMeta C (field "targetProjectPath" cfg)
  else obind (get "analyzerMeta" (field "targetProjectResult" cfg)) (get "targetProject").

(** [this.referenceProjectMeta] likewise; [previous] is what the analyzer
    held before, which stays when no reference is given. *)
Definition reference_meta (C : collaborators) (cfg : obj) (previous : value) : outcome value :=
  if truthy (field "referenceProjectPath" cfg)
     && negb (truthy (field "referenceProjectResult" cfg))
  then getProjectMeta C (field "referenceProjectPath" cfg)
  else if truthy (field "referenceProjectResult" cfg)
  then obind (get "analyzerMeta" (field "referenceProjectResult" cfg)) (get "targetProject")
  else Return previous.

(** The analyzer once [_prepare] has derived the identifier. *)
Definition identified (C : collaborators) (cfg : obj) (targetMeta referenceMeta : value)
    (w : world) : world :=
  set_identifier (JStr (createIdentifier C targetMeta referenceMeta (JObj cfg)))
    (set_referenceProjectMeta referenceMeta (set_targetProjectMeta targetMeta w)).

(** What [_getCachedAnalyzerResult] makes of a stored entry: unwound,
    then tagged. *)
Definition retrieved (cached : value) : outcome value :=
  obind (unwindJsonResult cached) (fun u =>
    obind (set_prop "__fromCache" (JBool true) (prop "analyzerMeta" u)) (fun tagged =>
      Return (JObj [("queryOutput", prop "queryOutput" u); ("analyzerMeta", tagged)]))).

(** *** What a computation leaves alone *)

(** The computation never changes the cache store nor the analyzer's
    name. *)
Definition keeps_store {A} (m : M A) : Prop :=
  forall w, store (final (m w)) = store w /\ analyzerName (final (m w)) = analyzerName w.

(** Every event of the computation satisfies [P]. *)
Definition emits (P : event -> Prop) {A} (m : M A) : Prop :=
  forall w, Forall P (events (m w)).

Definition prepare_event (e : event) : Prop :=
  traversal_event e = false /\ finalize_event e = false.

(** *** Provided results *)

Definition provided_key (k : string) : Prop :=
  k = "targetProjectResult" \/ k = "referenceProjectResult".

(** A provided result still in its stored shape: it is there, and it has
    no [analyzerMeta]. *)
Definition lacks_envelope (x : value) : Prop :=
  truthy x = true /\ truthy (prop "analyzerMeta" x) = false.

(** *** The identifier *)

(** Modelled from the spec: [ReportService.createIdentifier] is not part of
    this source.  The spec makes the identifier a deterministic string, a
    pure function of [{targetProject, referenceProject, analyzerConfig}]
    with all filesystem paths excluded; [digest] is the hash it leaves
    open. *)
Definition logical_seed (targetProject referenceProject analyzerConfig : value) : value :=
  JObj [("targetProject", delete_prop "path" targetProject);
        ("referenceProject", delete_prop "path" referenceProject);
        ("analyzerConfig",
          delete_prop "referenceProjectPath"
            (delete_prop "targetProjectPath" analyzerConfig))].

Definition deriveIdentifier (digest : value -> string)
    (targetProject referenceProject analyzerConfig : value) : string :=
  digest (logical_seed targetProject referenceProject analyzerConfig).

Definition with_identifier (digest : value -> string) (C : collaborators) : collaborators :=
  {| platform := platform C;
     toPosixPath := toPosixPath C;
     getFilePathRelativeFromRoot := getFilePathRelativeFromRoot C;
     satisfies := satisfies C;
     readManifest := readManifest C;
     getProjectMeta := getProjectMeta C;
     createIdentifier := deriveIdentifier digest;
     createDataObject := createDataObject C;
     addAstToProjectsData := addAstToProjectsData C |}.

(** Two outcomes of the same kind whose returned values are related by
    [R]. *)
Definition agree {A} (R : A -> A -> Prop) (a b : outcome A) : Prop :=
  match a, b with
  | Return x, Return y => R x y
  | Throw e, Throw e' => e = e'
  | Unmodelled, Unmodelled => True
  | _, _ => False
  end.

(** Two metadata objects that differ at most in their [path]. *)
Definition same_but_path (x y : value) : Prop :=
  delete_prop "path" x = delete_prop "path" y.

(** Two answers of the metadata provider that agree on everything but the
    location. *)
Definition same_project (a b : outcome value) : Prop := agree same_but_path a b.

(** A configuration with the two project locations left out. *)
Definition without_locations (cfg : obj) : obj :=
  remove_key "referenceProjectPath" (remove_key "targetProjectPath" cfg).

(** Two configurations that differ at most in the two locations. *)
Definition same_but_locations (a b : obj) : Prop :=
  without_locations a = without_locations b.

(** *** Repeated calls *)



(** *** Traversal *)

(** The entry [analyzePerAstEntry] collects for a file. *)
Definition collected_entry (relativePath : string) (meta : value) (found : list value) : value :=
  JObj [("file", JStr relativePath); ("meta", meta); ("result", JArr found)].

Definition is_empty {A} (l : list A) : bool :=
  match l with [] => true | _ => false end.

Definition analysis_event (e : event) : bool :=
  match e with FileAnalysed _ _ => true | _ => false end.

Definition gathering_event (e : event) : bool :=
  match e with FilesGathered _ _ => true | _ => false end.

(** *** Positions inside a value *)

Inductive step : Type :=
| Key (k : string)
| Index (i : nat).

Fixpoint at_path (p : list step) (v : value) : option value :=
  match p with
  | [] => Some v
  | Key k :: rest =>
      match v with
      | JObj props =>
          match lookup_key k props with
          | Some x => at_path rest x
          | None => None
          end
      | _ => None
      end
  | Index i :: rest =>
      match v with
      | JArr items =>
          match nth_error items i with
          | Some x => at_path rest x
          | None => None
          end
      | _ => None
      end
  end.

(** ** A concrete setting

    One target project that depends on [dep-a] with range [^1.0.0], three
    reference projects, and a target of three files. *)

Module Example.

Definition backslash : ascii := ascii_of_nat 92.

(** Modelled from the spec: [toPosixPath] is not part of this source; the
    spec has it rewrite a path to forward-slash form. *)
Fixpoint slashes (s : string) : string :=
  match s with
  | EmptyString => EmptyString
  | String c rest =>
      String (if Ascii.eqb c backslash then "/"%char else c) (slashes rest)
  end.

Definition manifest (name version : string) (deps devDeps : obj) : value :=
  JObj [("name", JStr name); ("version", JStr version);
        ("dependencies", JObj deps); ("devDependencies", JObj devDeps)].

Definition manifests (dir : string) : option value :=
  if (dir =? "/work/target") || (dir =? "/elsewhere/target") then
    Some (manifest "target" "0.1.0" [("dep-a", JStr "^1.0.0")] [])
  else if (dir =? "/work/dep-a-1.2.0") || (dir =? "/elsewhere/dep-a") then
    Some (manifest "dep-a" "1.2.0" [] [])
  else if dir =? "/work/dep-a-2.0.0" then Some (manifest "dep-a" "2.0.0" [] [])
  else if dir =? "/work/dep-b" then Some (manifest "dep-b" "1.0.0" [] [])
  else None.

(** [semver.satisfies] on the versions and ranges of this setting. *)
Definition satisfies_table (version range : value) : bool :=
  match version, range with
  | JStr v, JStr r => (r =? "^1.0.0") && ((v =? "1.0.0") || (v =? "1.2.0"))
  | _, _ => false
  end.

Definition meta_of (path : value) : outcome value :=
  match path with
  | JStr dir =>
      match manifests dir with
      | Some pkg =>
          Return (JObj [("path", path); ("name", prop "name" pkg);
                        ("version", prop "version" pkg)])
      | None => Throw (Failure "getProjectMeta")
      end
  | _ => Throw (Failure "getProjectMeta")
  end.

Definition f1 : ast_entry := {| file := "f1.js"; ast := JStr "ast1"; code := JStr "" |}.
Definition f2 : ast_entry := {| file := "f2.js"; ast := JStr "ast2"; code := JStr "" |}.
Definition f3 : ast_entry := {| file := "f3.js"; ast := JStr "ast3"; code := JStr "" |}.

Definition target_files : project_data :=
  {| projectPath := "/work/target"; entries := [f1; f2; f3] |}.

(** A stand-in for the hash of the identifier: the text of the seed. *)
Fixpoint render (v : value) : string :=
  match v with
  | JUndefined => "undefined"
  | JNull => "null"
  | JBool b => if b then "true" else "false"
  | JNum n => NilZero.string_of_int (Z.to_int n)
  | JStr s => s
  | JArr items => "[" +:+ String.concat "," (map render items) +:+ "]"
  | JObj props =>
      "{" +:+ String.concat "," (map (fun kv => fst kv +:+ ":" +:+ render (snd kv)) props)
      +:+ "}"
  end.

Definition services : collaborators :=
  {| platform := "linux";
     toPosixPath := slashes;
     getFilePathRelativeFromRoot := fun f _ => String.append "./" f;
     satisfies := satisfies_table;
     readManifest := manifests;
     getProjectMeta := meta_of;
     createIdentifier := deriveIdentifier render;
     createDataObject := fun paths _ => Return (JArr paths);
     addAstToProjectsData := fun _ _ => Return [target_files] |}.

Definition on_windows (C : collaborators) : collaborators :=
  {| platform := "win32";
     toPosixPath := toPosixPath C;
     getFilePathRelativeFromRoot := getFilePathRelativeFromRoot C;
     satisfies := satisfies C;
     readManifest := readManifest C;
     getProjectMeta := getProjectMeta C;
     createIdentifier := createIdentifier C;
     createDataObject := createDataObject C;
     addAstToProjectsData := addAstToProjectsData C |}.

(** The same services for a target in which no file is found. *)
Definition no_files (C : collaborators) : collaborators :=
  {| platform := platform C;
     toPosixPath := toPosixPath C;
     getFilePathRelativeFromRoot := getFilePathRelativeFromRoot C;
     satisfies := satisfies C;
     readManifest := readManifest C;
     getProjectMeta := getProjectMeta C;
     createIdentifier := createIdentifier C;
     createDataObject := createDataObject C;
     addAstToProjectsData :=
       fun _ _ => Return [ {| projectPath := "/work/target"; entries := [] |} ] |}.

Definition gatherJs : value := JObj [("extensions", JArr [JStr ".js"])].

Definition config (target reference : string) : value :=
  JObj [("targetProjectPath", JStr target);
        ("referenceProjectPath", JStr reference);
        ("gatherFilesConfig", gatherJs)].

(** The per-file function: nothing is found in [f1], one item in the
    other files. *)
Definition found (e : ast_entry) : list value :=
  if is_string "ast1" (ast e) then [] else [ast e].

Definition analysis : ast_analysis :=
  fun a _ =>
    Return (JObj [("result", if is_string "ast1" a then JArr [] else JArr [a]);
                  ("meta", JObj [])]).

Definition start : world := fresh "find-imports" ∅.

(** A result as the report service stores it, and one without [meta]. *)
Definition stored : value :=
  JObj [("meta",
          JObj [("analyzerMeta",
                  JObj [("name", JStr "find-imports");
                        ("identifier", JStr "stored-id");
                        ("targetProject",
                          JObj [("name", JStr "target"); ("version", JStr "0.1.0")]);
                        ("configuration", JObj [("gatherFilesConfig", gatherJs)])])]);
        ("queryOutput",
          JArr [collected_entry "./f2.js" (JObj []) [JStr "ast2"]])].

Definition bare : value := JObj [("queryOutput", JArr [])].

(** The usual call: the target against the compatible reference. *)
Definition usual : value := config "/work/target" "/work/dep-a-1.2.0".

(** The identifier [_prepare] derives for the usual call. *)
Definition usual_identifier : string :=
  Eval vm_compute in
    identifier_text (final (identify services (initial_config usual) start)).


(** The same two projects checked out elsewhere. *)
Definition relocated : value := config "/elsewhere/target" "/elsewhere/dep-a".

(** A call that brings the result of an earlier run for the target. *)
Definition with_provided_result : value :=
  JObj [("targetProjectPath", JStr "/work/target");
        ("targetProjectResult", stored);
        ("gatherFilesConfig", gatherJs)].

(** A cache entry that was not sanitized before it was stored. *)
Definition dirty : value :=
  JObj [("meta",
          JObj [("analyzerMeta",
                  JObj [("name", JStr "find-imports");
                        ("identifier", JStr "stored-id");
                        ("targetProject",
                          JObj [("name", JStr "target"); ("version", JStr "0.1.0");
                                ("path", JStr "/home/me/target")]);
                        ("configuration",
                          JObj [("targetProjectPath", JStr "/home/me/target");
                                ("gatherFilesConfig", gatherJs)])])]);
        ("queryOutput", JArr [])].

(** An analyzer whose cache store holds that entry for the usual call. *)
Definition tainted : world :=
  fresh "find-imports" {[ ("find-imports", usual_identifier) := dirty ]}.

(** An analyzer that knows where both projects are, a query output
    whose entry names a project with its location, and a configuration
    with both paths and both provided results. *)
Definition located : world :=
  set_referenceProjectMeta
    (JObj [("path", JStr "/work/dep-a-1.2.0"); ("name", JStr "dep-a");
           ("version", JStr "1.2.0")])
    (set_targetProjectMeta
       (JObj [("path", JStr "/work/target"); ("name", JStr "target");
              ("version", JStr "0.1.0")])
       start).

Definition project_output : value :=
  JArr [JObj [("project",
                JObj [("name", JStr "target"); ("path", JStr "/work/target")]);
              ("matches", JArr [])]].

Definition full_config : obj :=
  [("targetProjectPath", JStr "/work/target");
   ("referenceProjectPath", JStr "/work/dep-a-1.2.0");
   ("targetProjectResult", unwound stored);
   ("referenceProjectResult", unwound stored);
   ("gatherFilesConfig", gatherJs)].

End Example.


(** ** Further vocabulary *)

(** A verdict as [checkForMatchCompatibility] can build it: a reason
    exactly when the pair is incompatible, and then one of the two. *)
Definition well_formed_verdict (v : compatibility) : Prop :=
  (compatible v = true /\ reason v = None)
  \/ (compatible v = false
      /\ (reason v = Some "no-dependency" \/ reason v = Some "no-matched-version")).

Definition is_text (v : value) : bool :=
  match v with JStr _ => true | _ => false end.

(** What is left of a value when the text of every string in it is
    forgotten: the keys in their order, the lengths of the arrays and every
    member that is not a string. *)
Fixpoint skeleton (v : value) : value :=
  match v with
  | JStr _ => JStr ""
  | JArr items => JArr (map skeleton items)
  | JObj props => JObj (map (fun kv => (fst kv, skeleton (snd kv))) props)
  | _ => v
  end.

(** The value a property [k] of a normalized result holds for the value
    [v] it was built from. *)
Definition posix_member (C : collaborators) (k : string) (v : value) : value :=
  if platform C =? "win32" then posixify_member C (posixify C) k v else v.

(** A query output that is an array with [null] or [undefined] among its
    entries. *)
Definition has_nullish_entry (queryOutput : value) : bool :=
  match queryOutput with
  | JArr items => existsb nullish items
  | _ => false
  end.

(** The computation leaves the part [g] of the analyzer and the store as
    it is. *)
Definition preserves {A X} (g : world -> X) (m : M A) : Prop :=
  forall w, g (final (m w)) = g w.

(** The computation leaves the analyzer and the store as they are. *)
Definition keeps_analyzer {A} (m : M A) : Prop := preserves (fun w => w) m.

(** What a result says about its origin: the name of the analyzer, the
    kind of ast and the identifier. *)
Definition heading (r : value) : value * value * value :=
  let analyzerMeta := prop "analyzerMeta" r in
  (prop "name" analyzerMeta, prop "requiredAst" analyzerMeta, prop "identifier" analyzerMeta).

(** The code finished by returning a value. *)
Definition returned {A} (o : outcome A) : bool :=
  match o with Return _ => true | _ => false end.

(** The mark [_getCachedAnalyzerResult] puts on what it returns. *)
Definition from_cache (r : value) : Prop :=
  prop "__fromCache" (prop "analyzerMeta" r) = JBool true.

(** The same services, except for what [checkForMatchCompatibility]
    uses: other contents of the package.json files it reads and another
    range test.  The metadata service is left as it is. *)
Definition with_manifests (manifests : string -> option value)
    (test : value -> value -> bool) (C : collaborators) : collaborators :=
  {| platform := platform C;
     toPosixPath := toPosixPath C;
     getFilePathRelativeFromRoot := getFilePathRelativeFromRoot C;
     satisfies := test;
     readManifest := manifests;
     getProjectMeta := getProjectMeta C;
     createIdentifier := createIdentifier C;
     createDataObject := createDataObject C;
     addAstToProjectsData := addAstToProjectsData C |}.

(** ** Extend docs: paths inside a monorepo

    [getExtendDocsResults] of [launch-providence-with-extend-docs.js]
    rewrites, for a monorepo, the [to] paths of the results it got from
    providence.  The module is plain CommonJS code, not strict: an
    assignment to a property of a number, string or boolean is dropped
    silently. *)

(** A package of the monorepo as the callback of [pkgs.some] takes it
    apart, [{ path, name }], both strings. *)
Record mono_pkg : Type := {
  pkg_path : string;
  pkg_name : string
}.

(** [s] without its first [n] characters. *)
Fixpoint skip (n : nat) (s : string) : string :=
  match n, s with
  | O, _ => s
  | S n', String _ rest => skip n' rest
  | S _, EmptyString => EmptyString
  end.

(** [s.replace(pattern, replacement)] for a string [pattern] and a
    replacement without [$]: the first occurrence is replaced. *)
Fixpoint replace_first (pattern replacement s : string) : string :=
  if String.prefix pattern s then replacement +:+ skip (String.length pattern) s
  else
    match s with
    | EmptyString => s
    | String c rest => String c (replace_first pattern replacement rest)
    end.

(** The loop [pkgs.some(...)] on a string [pathStr]: [Some] holds what the
    callback assigned to [result] when it returned [true]. *)
Fixpoint some_package (pathStr : string) (pkgs : list mono_pkg) : option string :=
  match pkgs with
  | [] => None
  | pkg :: rest =>
      let normalizedP := "./" +:+ pkg_path pkg in
      if String.prefix normalizedP pathStr then
        let localPath := replace_first normalizedP "" pathStr in
        Some (pkg_name pkg +:+ "/" +:+ localPath)
      else some_package pathStr rest
  end.

(** [replaceToMonoRepoPath(pathStr, pkgs)]: the callback, and with it
    [pathStr.startsWith], runs only when there is a package. *)
Definition replaceToMonoRepoPath (pathStr : value) (pkgs : list mono_pkg) : outcome value :=
  match pkgs, pathStr with
  | [], _ => Return pathStr
  | _ :: _, JStr s => Return (JStr (default s (some_package s pkgs)))
  | _ :: _, _ => Throw (TypeError "pathStr.startsWith is not a function")
  end.

(** [v.k = x] in code that is not strict. *)
Definition assign (k : string) (x : value) (v : value) : outcome value :=
  match v with
  | JObj props => Return (JObj (replace_key k x props))
  | JArr _ => Unmodelled
  | JUndefined | JNull => Throw (TypeError ("Cannot set properties of undefined or null: " +:+ k))
  | _ => Return v
  end.

(** The callback of [paths.forEach]: [pathObj.to = replaceToMonoRepoPath(pathObj.to, monoPkgs)]. *)
Definition rewrite_path (monoPkgs : list mono_pkg) (pathObj : value) : outcome value :=
  to ← get "to" pathObj;
  to ← replaceToMonoRepoPath to monoPkgs;
  assign "to" to pathObj.

(** [section.paths.forEach(...)] for [section] one of [resultObj.variable]
    and [resultObj.tag]; the value [section] holds afterwards. *)
Definition rewrite_paths (monoPkgs : list mono_pkg) (section : value) : outcome value :=
  paths ← get "paths" section;
  match paths with
  | JArr items =>
      items ← for_each (rewrite_path monoPkgs) items;
      match section with
      | JObj props => Return (JObj (replace_key "paths" (JArr items) props))
      | _ => Return section
      end
  | _ => Throw (TypeError "paths.forEach is not a function")
  end.

(** One of the two [if] statements in the callback of
    [queryOutputs.forEach], for the property [k] of [resultObj]. *)
Definition rewrite_section (monoPkgs : list mono_pkg) (k : string) (resultObj : value)
  : outcome value :=
  section ← get k resultObj;
  if truthy section then
    section ← rewrite_paths monoPkgs section;
    match resultObj with
    | JObj props => Return (JObj (replace_key k section props))
    | _ => Return resultObj
    end
  else Return resultObj.

(** The callback of [queryOutputs.forEach]. *)
Definition rewrite_result (monoPkgs : list mono_pkg) (resultObj : value) : outcome value :=
  resultObj ← rewrite_section monoPkgs "variable" resultObj;
  rewrite_section monoPkgs "tag" resultObj.

(** The last statements of [getExtendDocsResults]: [monoPkgs] is [None]
    for a project that is no monorepo. *)
Definition toMonoRepoPaths (monoPkgs : option (list mono_pkg)) (queryOutputs : list value)
  : outcome (list value) :=
  match monoPkgs with
  | Some pkgs => for_each (rewrite_result pkgs) queryOutputs
  | None => Return queryOutputs
  end.

(** ** Further settings *)

Module Further.

(** A target that declares [dep-a] twice: [^2.0.0] among its
    dependencies, [^1.0.0] among its devDependencies. *)
Definition dev_manifests (dir : string) : option value :=
  if dir =? "/work/dev-target" then
    Some (Example.manifest "dev-target" "0.1.0"
            [("dep-a", JStr "^2.0.0")] [("dep-a", JStr "^1.0.0")])
  else Example.manifests dir.

Definition dev_services : collaborators :=
  with_manifests dev_manifests Example.satisfies_table Example.services.

(** The usual services, with a compatibility check that can read no
    manifest. *)
Definition unreadable : collaborators :=
  with_manifests (fun _ => None) Example.satisfies_table Example.services.

(** A Windows path under [file], and other members around it. *)
Definition windows_entry : value :=
  JObj [("file", JStr ("src" +:+ String Example.backslash "a.js"));
        ("result", JArr [JNum 1; JNull; JStr "x"])].

(** An analyzer on Windows that knows where its target is. *)
Definition at_home : world :=
  set_targetProjectMeta
    (JObj [("path", JStr "C:/work/target");
           ("file", JStr ("src" +:+ String Example.backslash "a.js"))])
    Example.start.

(** A per-file function that throws at the second file. *)
Definition failing : ast_analysis :=
  fun a context =>
    if is_string "ast2" a then Throw (Failure "parse") else Example.analysis a context.

(** What [forgetful] answers: no [result] for the second file. *)
Definition forgotten (e : ast_entry) : value :=
  if is_string "ast2" (ast e) then JObj [("meta", JObj [])]
  else JObj [("result", JArr [ast e]); ("meta", JObj [])].

Definition forgetful : ast_analysis :=
  fun a _ =>
    Return (if is_string "ast2" a then JObj [("meta", JObj [])]
            else JObj [("result", JArr [a]); ("meta", JObj [])]).

(** What [textual] answers: a text for the first file, an object without
    [length] for the second, an empty array for the third. *)
Definition told (e : ast_entry) : value :=
  JObj [("result",
          if is_string "ast1" (ast e) then JStr "text"
          else if is_string "ast2" (ast e) then JObj [] else JArr []);
        ("meta", JObj [])].

Definition textual : ast_analysis :=
  fun a _ =>
    Return (JObj [("result",
                    if is_string "ast1" a then JStr "text"
                    else if is_string "ast2" a then JObj [] else JArr []);
                  ("meta", JObj [])]).

(** The usual call with the compatibility check switched off. *)
Definition unchecked : value :=
  JObj [("targetProjectPath", JStr "/work/target");
        ("referenceProjectPath", JStr "/work/dep-b");
        ("skipCheckMatchCompatibility", JBool true);
        ("gatherFilesConfig", Example.gatherJs)].

(** A call that brings both results. *)
Definition both_provided : obj :=
  [("targetProjectResult", unwound Example.stored);
   ("referenceProjectResult", unwound Example.stored);
   ("gatherFilesConfig", Example.gatherJs)].

(** A stored result whose [meta] holds no [analyzerMeta]. *)
Definition anonymous : value := JObj [("meta", JObj []); ("queryOutput", JArr [])].

(** An analyzer that ran against [dep-a] before. *)
Definition seasoned : world :=
  final (execute (Example.no_files Example.services) Example.usual Example.start).

Definition alone : value :=
  JObj [("targetProjectPath", JStr "/work/target");
        ("gatherFilesConfig", Example.gatherJs)].

(** The packages of a monorepo, and a result of the match-paths
    analyzer. *)
Definition packages : list mono_pkg :=
  [ {| pkg_path := "packages/lea-button"; pkg_name := "lea-button" |};
    {| pkg_path := "packages/lea-tabs"; pkg_name := "lea-tabs" |} ].

Definition matched : value :=
  JObj [("name", JStr "LeaTabs");
        ("variable",
          JObj [("from", JStr "LionTabs"); ("to", JStr "LeaTabs");
                ("paths",
                  JArr [JObj [("from", JStr "./index.js");
                              ("to", JStr "./packages/lea-tabs/lea-tabs.js")]])])].

End Further.
(** * Properties *)

(** ** Reading properties *)

Lemma get_defined k v : nullish v = false -> get k v = Return (prop k v).
Proof. unfold get. intros ->. reflexivity. Qed.

Lemma get_nullish k v :
  nullish v = true ->
  get k v = Throw (TypeError ("Cannot read properties of undefined or null: " ++ k)).
Proof. unfold get. intros ->. reflexivity. Qed.

Lemma truthy_not_nullish v : truthy v = true -> nullish v = false.
Proof. destruct v; simpl; congruence. Qed.

(** ** Runs of the monad *)


Lemma result_after {A} t (r : run A) : result (after t r) = result r.
Proof. now destruct r. Qed.

Lemma final_after {A} t (r : run A) : final (after t r) = final r.
Proof. now destruct r. Qed.

Lemma events_after {A} t (r : run A) : events (after t r) = t ++ events r.
Proof. now destruct r. Qed.

Lemma after_nil {A} (r : run A) : after [] r = r.
Proof. now destruct r. Qed.

Lemma bind_returned {A B} (m : M A) (f : A -> M B) w a :
  result (m w) = Return a ->
  bind m f w = after (events (m w)) (f a (final (m w))).
Proof. unfold bind. destruct (m w) as [o w' t]. simpl. now intros ->. Qed.

Lemma bind_thrown {A B} (m : M A) (f : A -> M B) w e :
  result (m w) = Throw e ->
  bind m f w = Run (Throw e) (final (m w)) (events (m w)).
Proof. unfold bind. destruct (m w) as [o w' t]. simpl. now intros ->. Qed.


(** ** The compatibility gate *)

Section Gating.

Variable C : collaborators.

Lemma find_import_find referencePkg deps :
  nullish referencePkg = false ->
  find_import referencePkg deps =
  Return (List.find (fun kv => is_string (fst kv) (prop "name" referencePkg)) deps).
Proof.
  intros Hdef. induction deps as [ | [name range] rest IH ]; simpl; [ reflexivity | ].
  rewrite (get_defined _ _ Hdef). simpl.
  destruct (is_string name (prop "name" referencePkg)); [ reflexivity | exact IH ].
Qed.

Lemma find_none_appears name (deps : list (string * value)) :
  List.find (fun kv => is_string (fst kv) name) deps = None <->
  appears name (map fst deps) = false.
Proof.
  unfold appears. induction deps as [ | [k v] rest IH ]; simpl; [ tauto | ].
  destruct (is_string k name); simpl; [ split; discriminate | exact IH ].
Qed.

Lemma find_app {A} (p : A -> bool) (xs ys : list A) :
  List.find p (xs ++ ys) =
  match List.find p xs with
  | Some x => Some x
  | None => List.find p ys
  end.
Proof. induction xs as [ | x xs IH ]; simpl; [ reflexivity | ]. destruct (p x); auto. Qed.

Lemma appears_app name xs ys :
  appears name (xs ++ ys) = appears name xs || appears name ys.
Proof. unfold appears. apply existsb_app. Qed.

(** C1. For readable manifests, [checkForMatchCompatibility] answers
    [no-dependency] when the name the reference manifest declares is not
    among the target's dependencies and devDependencies, otherwise
    [no-matched-version] when the reference's version does not satisfy the
    range the target declares for it, otherwise [compatible: true]. *)
Theorem checkForMatchCompatibility_verdict
    (referenceDir targetDir : string) (referencePkg targetPkg : value) :
  readManifest C referenceDir = Some referencePkg ->
  readManifest C targetDir = Some targetPkg ->
  nullish referencePkg = false ->
  nullish targetPkg = false ->
  checkForMatchCompatibility C (JStr referenceDir) (JStr targetDir)
  = Return (verdict_of C referencePkg targetPkg).
Proof.
  intros Href Htgt Hr Ht.
  unfold checkForMatchCompatibility, readPackageJson.
  rewrite Href, Htgt. simpl.
  rewrite !(get_defined _ _ Ht). simpl.
  rewrite (find_import_find _ _ Hr). simpl.
  unfold verdict_of, dependency_names, declared_range.
  set (named := fun kv : string * value => is_string kv.1 (prop "name" referencePkg)).
  set (dev := own_entries (js_or (prop "devDependencies" targetPkg) (JObj []))).
  set (reg := own_entries (js_or (prop "dependencies" targetPkg) (JObj []))).
  rewrite appears_app, find_app.
  destruct (List.find named dev) as [[k range] | ] eqn:Hdev.
  - assert (Happ : appears (prop "name" referencePkg) (map fst dev) = true).
    { destruct (appears _ (map fst dev)) eqn:E; [ reflexivity | ].
      apply find_none_appears in E. unfold named in Hdev. congruence. }
    rewrite Happ, orb_true_r. simpl.
    rewrite (get_defined _ _ Hr). simpl.
    destruct (satisfies C _ range); reflexivity.
  - pose proof (proj1 (find_none_appears _ _) Hdev) as Happ.
    rewrite Happ, orb_false_r.
    destruct (List.find named reg) as [[k range] | ] eqn:Hreg.
    + assert (Hin : appears (prop "name" referencePkg) (map fst reg) = true).
      { destruct (appears _ (map fst reg)) eqn:E; [ reflexivity | ].
        apply find_none_appears in E. unfold named in Hreg. congruence. }
      rewrite Hin. simpl.
      rewrite (get_defined _ _ Hr). simpl.
      destruct (satisfies C _ range); reflexivity.
    + rewrite (proj1 (find_none_appears _ _) Hreg). reflexivity.
Qed.

End Gating.

Lemma checkForMatchCompatibility_verdict_witness :
  checkForMatchCompatibility Example.services
    (JStr "/work/dep-a-1.2.0") (JStr "/work/target")
  = Return {| compatible := true; reason := None |}
  /\ checkForMatchCompatibility Example.services
       (JStr "/work/dep-a-2.0.0") (JStr "/work/target")
     = Return {| compatible := false; reason := Some "no-matched-version" |}
  /\ checkForMatchCompatibility Example.services
       (JStr "/work/dep-b") (JStr "/work/target")
     = Return {| compatible := false; reason := Some "no-dependency" |}.
Proof.
  split; [ | split ].
  - exact (checkForMatchCompatibility_verdict Example.services
             "/work/dep-a-1.2.0" "/work/target" _ _ eq_refl eq_refl eq_refl eq_refl).
  - exact (checkForMatchCompatibility_verdict Example.services
             "/work/dep-a-2.0.0" "/work/target" _ _ eq_refl eq_refl eq_refl eq_refl).
  - exact (checkForMatchCompatibility_verdict Example.services
             "/work/dep-b" "/work/target" _ _ eq_refl eq_refl eq_refl eq_refl).
Defined.


(** ** Path normalization *)

Section Posixify.

Variable C : collaborators.

Lemma lookup_key_map (h : string -> value -> value) k props :
  lookup_key k (map (fun kv => (fst kv, h (fst kv) (snd kv))) props)
  = option_map (h k) (lookup_key k props).
Proof.
  induction props as [ | [k' v] rest IH ]; simpl; [ reflexivity | ].
  destruct (String.eqb_spec k' k) as [-> | _]; [ reflexivity | exact IH ].
Qed.

Lemma posixify_member_container recur k st p x y :
  at_path (st :: p) x = Some y -> posixify_member C recur k x = recur x.
Proof. destruct st, x; simpl; intros H; try discriminate H; reflexivity. Qed.

Lemma at_path_posixify_step st p v y :
  at_path (st :: p) v = Some y ->
  exists x, at_path [st] v = Some x /\ at_path p x = Some y
            /\ (p <> [] -> at_path [st] (posixify C v) = Some (posixify C x)).
Proof.
  destruct st as [k | i]; destruct v; simpl; try discriminate.
  - destruct (lookup_key k props) as [x | ] eqn:Hx; [ | discriminate ].
    intros Hy. exists x. repeat split; auto.
    intros Hp. rewrite lookup_key_map, Hx. simpl.
    destruct p as [ | st' p' ]; [ congruence | ].
    now rewrite (posixify_member_container _ _ _ _ _ _ Hy).
  - destruct (nth_error items i) as [x | ] eqn:Hx; [ | discriminate ].
    intros Hy. exists x. repeat split; auto.
    intros _. rewrite nth_error_map, Hx. reflexivity.
Qed.

Lemma at_path_cons st p v :
  at_path (st :: p) v = match at_path [st] v with Some x => at_path p x | None => None end.
Proof.
  destruct st, v; simpl; try reflexivity.
  - destruct (lookup_key k props); reflexivity.
  - destruct (nth_error items i); reflexivity.
Qed.

(** A string held by a property: rewritten exactly when the property is
    named [file], wherever the object sits. *)
Lemma posixify_under_key p : forall v k s,
  at_path (p ++ [Key k]) v = Some (JStr s) ->
  at_path (p ++ [Key k]) (posixify C v)
  = Some (JStr (if k =? "file" then toPosixPath C s else s)).
Proof.
  induction p as [ | st p IH ]; intros v k s H.
  - destruct v; simpl in *; try discriminate.
    rewrite lookup_key_map.
    destruct (lookup_key k props) as [x | ]; [ | discriminate ].
    injection H as ->. simpl. destruct (k =? "file"); reflexivity.
  - change ((st :: p) ++ [Key k]) with (st :: (p ++ [Key k])) in *.
    destruct (at_path_posixify_step _ _ _ _ H) as (x & Hx & Hy & Hstep).
    rewrite at_path_cons, Hstep; [ now apply IH | now destruct p ].
Qed.

(** A string held by an array is left as it is. *)
Lemma posixify_under_index p : forall v i s,
  at_path (p ++ [Index i]) v = Some (JStr s) ->
  at_path (p ++ [Index i]) (posixify C v) = Some (JStr s).
Proof.
  induction p as [ | st p IH ]; intros v i s H.
  - destruct v; simpl in *; try discriminate.
    rewrite nth_error_map.
    destruct (nth_error items i) as [x | ]; [ | discriminate ].
    injection H as ->. reflexivity.
  - change ((st :: p) ++ [Index i]) with (st :: (p ++ [Index i])) in *.
    destruct (at_path_posixify_step _ _ _ _ H) as (x & Hx & Hy & Hstep).
    rewrite at_path_cons, Hstep; [ now apply IH | now destruct p ].
Qed.

(** C8. On win32 the normalizer rewrites, in the assembled result, every
    string held by a property named [file] with [toPosixPath], at any
    depth and also inside arrays, and leaves the strings held under any
    other key or array index unchanged; on every other platform the
    assembled result is returned as it is. *)
Theorem ensureAnalyzerResultFormat_posix_paths
    (queryOutput : value) (configuration : obj) (w : world) (aResult : value) :
  result (assembleResult queryOutput configuration w) = Return aResult ->
  exists r,
    result (ensureAnalyzerResultFormat C queryOutput configuration w) = Return r
    /\ if platform C =? "win32" then
         forall p s,
           (forall k, at_path (p ++ [Key k]) aResult = Some (JStr s) ->
                      at_path (p ++ [Key k]) r
                      = Some (JStr (if k =? "file" then toPosixPath C s else s)))
           /\ (forall i, at_path (p ++ [Index i]) aResult = Some (JStr s) ->
                         at_path (p ++ [Index i]) r = Some (JStr s))
       else r = aResult.
Proof.
  intros Hres. unfold ensureAnalyzerResultFormat.
  rewrite (bind_returned _ _ _ _ Hres), result_after.
  exists (if platform C =? "win32" then posixify C aResult else aResult).
  destruct (platform C =? "win32"); (split; [ reflexivity | ]); [ | reflexivity ].
  intros p s. split; intros ?; [ apply posixify_under_key | apply posixify_under_index ].
Qed.

End Posixify.

(** The example of the specification, with backslashes turned by
    [Example.slashes]. *)
Example posixify_nested_file :
  posixify Example.services
    (JObj [("deep", JObj [("file", JStr "a\b\c.js")]); ("other", JStr "a\b")])
  = JObj [("deep", JObj [("file", JStr "a/b/c.js")]); ("other", JStr "a\b")].
Proof. reflexivity. Qed.

Lemma ensureAnalyzerResultFormat_posix_paths_witness :
  exists r,
    result (ensureAnalyzerResultFormat (Example.on_windows Example.services)
              (JArr [JObj [("file", JStr "src\a.js"); ("result", JArr [JStr "src\a.js"])]])
              [("targetProjectPath", JStr "C:\work")] Example.start) = Return r
    /\ at_path [Key "queryOutput"; Index 0; Key "file"] r = Some (JStr "src/a.js")
    /\ at_path [Key "queryOutput"; Index 0; Key "result"; Index 0] r = Some (JStr "src\a.js").
Proof.
  destruct (ensureAnalyzerResultFormat_posix_paths (Example.on_windows Example.services)
              (JArr [JObj [("file", JStr "src\a.js"); ("result", JArr [JStr "src\a.js"])]])
              [("targetProjectPath", JStr "C:\work")] Example.start _ eq_refl)
    as (r & Hr & Hpaths).
  exists r. split; [ exact Hr | ].
  simpl in Hpaths. split.
  - exact (proj1 (Hpaths [Key "queryOutput"; Index 0] "src\a.js") "file" eq_refl).
  - exact (proj2 (Hpaths [Key "queryOutput"; Index 0; Key "result"] "src\a.js") 0 eq_refl).
Defined.

(** ** Traversal *)

Section Traversal.

Variable C : collaborators.

Lemma mapM_pure {A B} (m : A -> M B) (g : A -> B) (ev : A -> list event) (l : list A) w :
  (forall x, In x l -> m x w = Run (Return (g x)) w (ev x)) ->
  mapM m l w = Run (Return (map g l)) w (concat (map ev l)).
Proof.
  induction l as [ | x rest IH ]; intros H; simpl; [ reflexivity | ].
  unfold bind. rewrite (H x (or_introl eq_refl)). simpl.
  rewrite IH by (intros y Hy; apply H; now right). simpl.
  now rewrite app_nil_r.
Qed.

Lemma filter_entries_arrays (l : list value) :
  Forall (fun x => exists items, prop "result" x = JArr items) l ->
  filter_entries l
  = Return (List.filter (fun x => match prop "result" x with
                             | JArr items => negb (is_empty items)
                             | _ => false
                             end) l).
Proof.
  induction 1 as [ | x rest [items Hx] _ IH ]; simpl; [ reflexivity | ].
  rewrite Hx. simpl. rewrite IH. simpl.
  destruct items; reflexivity.
Qed.

Lemma filter_map_comm {A B} (g : A -> B) (p : B -> bool) (l : list A) :
  List.filter p (map g l) = map g (List.filter (fun x => p (g x)) l).
Proof.
  induction l as [ | x rest IH ]; simpl; [ reflexivity | ].
  destruct (p (g x)); simpl; now rewrite IH.
Qed.

Lemma analyze_entry_run projectData (f : ast_analysis) entry r w :
  f (ast entry) (context_of C projectData entry) = Return r ->
  nullish r = false ->
  analyze_entry C projectData f entry w
  = Run (Return (JObj [("file", JStr (relative_path C projectData entry));
                       ("meta", prop "meta" r); ("result", prop "result" r)]))
        w
        [Log Debug (Resolved (projectPath projectData) (file entry));
         FileAnalysed (ast entry) (relative_path C projectData entry)].
Proof.
  intros Hf Hr. unfold analyze_entry, bind, emit, lift, ret. simpl.
  rewrite Hf. simpl. rewrite !(get_defined _ _ Hr). reflexivity.
Qed.

Lemma analysis_events_of_entries projectData (l : list ast_entry) :
  List.filter analysis_event
    (concat (map (fun e =>
                    [Log Debug (Resolved (projectPath projectData) (file e));
                     FileAnalysed (ast e) (relative_path C projectData e)]) l))
  = map (fun e => FileAnalysed (ast e) (relative_path C projectData e)) l.
Proof. induction l as [ | e rest IH ]; simpl; [ reflexivity | now rewrite IH ]. Qed.

(** C7. Traversal calls the per-file function once for each file, in
    discovery order, and the query output holds exactly the collected
    entries whose result is not empty, in that same order. *)
Theorem traverse_keeps_non_empty_in_order
    (f : ast_analysis) (w : world) (projectData : project_data)
    (others : list project_data)
    (metaOf : ast_entry -> value) (found : ast_entry -> list value) :
  addAstToProjectsData C (targetData w) "babel" = Return (projectData :: others) ->
  (forall e, In e (entries projectData) ->
     exists r, f (ast e) (context_of C projectData e) = Return r
               /\ nullish r = false
               /\ prop "result" r = JArr (found e)
               /\ prop "meta" r = metaOf e) ->
  let traversal := _traverse C f w in
  result traversal
  = Return (JArr (map (fun e => collected_entry (relative_path C projectData e)
                                  (metaOf e) (found e))
                    (List.filter (fun e => negb (is_empty (found e))) (entries projectData))))
  /\ List.filter analysis_event (events traversal)
     = map (fun e => FileAnalysed (ast e) (relative_path C projectData e))
         (entries projectData)
  /\ final traversal = w.
Proof.
  intros Hast Hf traversal. subst traversal.
  set (g := fun e => collected_entry (relative_path C projectData e) (metaOf e) (found e)).
  set (ev := fun e => [Log Debug (Resolved (projectPath projectData) (file e));
                       FileAnalysed (ast e) (relative_path C projectData e)]).
  assert (Hmap : mapM (analyze_entry C projectData f) (entries projectData) w
                 = Run (Return (map g (entries projectData))) w
                     (concat (map ev (entries projectData)))).
  { apply mapM_pure. intros e He.
    destruct (Hf e He) as (r & Hr & Hdef & Hres & Hmeta).
    rewrite (analyze_entry_run _ _ _ _ _ Hr Hdef), Hres, Hmeta. reflexivity. }
  assert (Hfilter : filter_entries (map g (entries projectData))
                    = Return (map g (List.filter (fun e => negb (is_empty (found e)))
                                       (entries projectData)))).
  { rewrite filter_entries_arrays.
    - now rewrite filter_map_comm.
    - apply Forall_forall. intros x Hx. apply list_elem_of_In, in_map_iff in Hx as (e & <- & _).
      now exists (found e). }
  unfold _traverse, analyzePerAstEntry, bind, read, emit, lift, ret. simpl.
  rewrite Hast. simpl. rewrite Hmap. simpl. rewrite Hfilter. simpl.
  repeat split.
  rewrite !app_nil_r. apply analysis_events_of_entries.
Qed.

End Traversal.

Lemma traverse_keeps_non_empty_in_order_witness :
  result (_traverse Example.services Example.analysis Example.start)
  = Return (JArr [collected_entry "./f2.js" (JObj []) [JStr "ast2"];
                  collected_entry "./f3.js" (JObj []) [JStr "ast3"]])
  /\ List.filter analysis_event
       (events (_traverse Example.services Example.analysis Example.start))
     = [FileAnalysed (JStr "ast1") "./f1.js"; FileAnalysed (JStr "ast2") "./f2.js";
        FileAnalysed (JStr "ast3") "./f3.js"].
Proof.
  destruct (traverse_keeps_non_empty_in_order Example.services Example.analysis
              Example.start Example.target_files [] (fun _ => JObj []) Example.found
              eq_refl) as (Hres & Hev & _).
  - intros e [<- | [<- | [<- | []]]]; eexists; repeat split.
  - split; [ exact Hres | exact Hev ].
Defined.

(** ** Unwinding *)

Lemma lookup_replace_key_eq k x props : lookup_key k (replace_key k x props) = Some x.
Proof.
  induction props as [ | [k' v] rest IH ]; simpl.
  - now rewrite String.eqb_refl.
  - destruct (k' =? k) eqn:E; simpl; [ now rewrite String.eqb_refl | now rewrite E ].
Qed.

Lemma lookup_replace_key_ne k k' x props :
  k <> k' -> lookup_key k (replace_key k' x props) = lookup_key k props.
Proof.
  intros Hne. induction props as [ | [k0 v] rest IH ]; simpl.
  - destruct (String.eqb_spec k' k); [ congruence | reflexivity ].
  - destruct (String.eqb_spec k0 k') as [-> | Hk0]; simpl.
    + destruct (String.eqb_spec k' k); [ congruence | reflexivity ].
    + destruct (k0 =? k); [ reflexivity | exact IH ].
Qed.

Lemma field_replace_key_eq k x cfg : field k (replace_key k x cfg) = x.
Proof. unfold field, prop. simpl. now rewrite lookup_replace_key_eq. Qed.

Lemma field_replace_key_ne k k' x cfg :
  k <> k' -> field k (replace_key k' x cfg) = field k cfg.
Proof. intros H. unfold field, prop. simpl. now rewrite lookup_replace_key_ne. Qed.

Lemma unwindJsonResult_cases x :
  nullish x = false ->
  unwindJsonResult x
  = if nullish (prop "meta" x)
    then Throw (TypeError "Cannot read properties of undefined or null: analyzerMeta")
    else Return (unwound x).
Proof.
  intros Hx. unfold unwindJsonResult. rewrite !(get_defined _ _ Hx). simpl.
  unfold get. destruct (nullish (prop "meta" x)); reflexivity.
Qed.

(** What one statement of [__unwindProvidedResults] does to [cfg]. *)
Lemma unwind_provided_cases k cfg :
  unwind_provided k cfg
  = if truthy (field k cfg) && negb (truthy (prop "analyzerMeta" (field k cfg)))
    then obind (unwindJsonResult (field k cfg)) (fun u => Return (replace_key k u cfg))
    else Return cfg.
Proof.
  unfold unwind_provided.
  destruct (truthy (field k cfg)) eqn:Ht; [ | reflexivity ].
  rewrite (get_defined _ _ (truthy_not_nullish _ Ht)). simpl.
  destruct (truthy (prop "analyzerMeta" (field k cfg))); reflexivity.
Qed.

Lemma unwind_provided_outcome k cfg :
  (exists cfg', unwind_provided k cfg = Return cfg')
  \/ (exists what, unwind_provided k cfg = Throw (TypeError what)).
Proof.
  rewrite unwind_provided_cases.
  destruct (truthy (field k cfg)) eqn:Ht; simpl; [ | eauto ].
  destruct (negb _); simpl; [ | eauto ].
  rewrite (unwindJsonResult_cases _ (truthy_not_nullish _ Ht)).
  destruct (nullish _); simpl; eauto.
Qed.

Lemma unwind_provided_other k k' cfg cfg' :
  k <> k' -> unwind_provided k' cfg = Return cfg' -> field k cfg' = field k cfg.
Proof.
  intros Hne. rewrite unwind_provided_cases.
  destruct (_ && _); [ | now intros [= <-] ].
  destruct (unwindJsonResult _); simpl; try discriminate.
  intros [= <-]. now apply field_replace_key_ne.
Qed.

Lemma executeWith_unwinding_throws C f customConfig w e :
  __unwindProvidedResults (initial_config customConfig) = Throw e ->
  result (executeWith C f customConfig w) = Throw e.
Proof.
  intros H. unfold executeWith, _prepare, identify, bind, read, emit, lift. simpl.
  rewrite H. reflexivity.
Qed.

Lemma target_not_reference : "targetProjectResult" <> "referenceProjectResult".
Proof. discriminate. Qed.

Lemma reference_not_target : "referenceProjectResult" <> "targetProjectResult".
Proof. discriminate. Qed.

(** C10. A provided result without the [analyzerMeta] envelope is
    replaced by what [unwindJsonResult] reads from it, its [queryOutput]
    and its [meta.analyzerMeta]; when it has no [meta] either, [execute]
    throws instead of returning; a value found in the cache store goes
    through the same [unwindJsonResult] before it is tagged
    [__fromCache] ([retrieved]). *)
Theorem unwinding_of_stored_results :
  (forall cfg cfg' k,
      provided_key k -> lacks_envelope (field k cfg) ->
      __unwindProvidedResults cfg = Return cfg' ->
      nullish (prop "meta" (field k cfg)) = false
      /\ field k cfg' = unwound (field k cfg))
  /\ (forall C f customConfig w k,
        provided_key k ->
        lacks_envelope (field k (initial_config customConfig)) ->
        nullish (prop "meta" (field k (initial_config customConfig))) = true ->
        exists what, result (executeWith C f customConfig w) = Throw (TypeError what))
  /\ (forall name ident w cached,
        store w !! (name, ident) = Some cached ->
        truthy cached = true ->
        result (_getCachedAnalyzerResult name ident w) = retrieved cached
        /\ (nullish (prop "meta" cached) = true ->
            exists what,
              result (_getCachedAnalyzerResult name ident w) = Throw (TypeError what))).
Proof.
  split; [ | split ].
  - intros cfg cfg' k Hk [Ht Ham] Hret.
    unfold __unwindProvidedResults in Hret. cbn [mbind outcome_bind obind] in Hret.
    destruct (unwind_provided "targetProjectResult" cfg) as [cfg1 | | ] eqn:H1;
      try discriminate Hret.
    change (unwind_provided "referenceProjectResult" cfg1 = Return cfg') in Hret.
    destruct Hk as [-> | ->].
    + rewrite unwind_provided_cases, Ht, Ham in H1. simpl in H1.
      rewrite (unwindJsonResult_cases _ (truthy_not_nullish _ Ht)) in H1.
      destruct (nullish (prop "meta" (field "targetProjectResult" cfg)));
        [ discriminate H1 | ].
      injection H1 as <-. split; [ reflexivity | ].
      rewrite (unwind_provided_other "targetProjectResult" _ _ _ target_not_reference Hret).
      apply field_replace_key_eq.
    + pose proof (unwind_provided_other "referenceProjectResult" _ _ _
                    reference_not_target H1) as Hsame.
      rewrite unwind_provided_cases, Hsame, Ht, Ham in Hret. simpl in Hret.
      rewrite (unwindJsonResult_cases _ (truthy_not_nullish _ Ht)) in Hret.
      destruct (nullish (prop "meta" (field "referenceProjectResult" cfg)));
        [ discriminate Hret | ].
      injection Hret as <-. split; [ reflexivity | ].
      apply field_replace_key_eq.
  - intros C f customConfig w k Hk [Ht Ham] Hmeta.
    set (cfg := initial_config customConfig) in *.
    assert (Hthrow : exists what, __unwindProvidedResults cfg = Throw (TypeError what)).
    { unfold __unwindProvidedResults. cbn [mbind outcome_bind obind].
      destruct Hk as [-> | ->].
      - rewrite unwind_provided_cases, Ht, Ham. simpl.
        rewrite (unwindJsonResult_cases _ (truthy_not_nullish _ Ht)), Hmeta.
        simpl. eauto.
      - destruct (unwind_provided "targetProjectResult" cfg) as [cfg1 | e | ] eqn:H1.
        + pose proof (unwind_provided_other "referenceProjectResult" _ _ _
                        reference_not_target H1) as Hsame.
          change (exists what, unwind_provided "referenceProjectResult" cfg1
                               = Throw (TypeError what)).
          rewrite unwind_provided_cases, Hsame, Ht, Ham. simpl.
          rewrite (unwindJsonResult_cases _ (truthy_not_nullish _ Ht)), Hmeta.
          simpl. eauto.
        + destruct (unwind_provided_outcome "targetProjectResult" cfg)
            as [[c Hc] | [what Hwhat]]; [ congruence | ].
          exists what. cbn [mbind outcome_bind obind]. congruence.
        + destruct (unwind_provided_outcome "targetProjectResult" cfg)
            as [[c Hc] | [what Hwhat]]; congruence. }
    destruct Hthrow as [what Hthrow]. exists what.
    now apply executeWith_unwinding_throws.
  - intros name ident w cached Hstore Ht.
    assert (Hrun : result (_getCachedAnalyzerResult name ident w) = retrieved cached).
    { unfold _getCachedAnalyzerResult, getCachedResult, retrieved, bind, read, emit, lift, ret.
      simpl. rewrite Hstore. simpl. rewrite Ht. simpl.
      destruct (unwindJsonResult cached) as [u | e | ]; simpl; try reflexivity.
      destruct (set_prop _ _ _); reflexivity. }
    split; [ exact Hrun | ].
    intros Hmeta. rewrite Hrun. unfold retrieved.
    rewrite (unwindJsonResult_cases _ (truthy_not_nullish _ Ht)), Hmeta.
    simpl. eauto.
Qed.

Lemma unwinding_of_stored_results_witness :
  (exists cfg',
      __unwindProvidedResults [("targetProjectResult", Example.stored)] = Return cfg'
      /\ field "targetProjectResult" cfg' = unwound Example.stored)
  /\ (exists what,
        result (execute Example.services
                  (JObj [("referenceProjectResult", Example.bare)]) Example.start)
        = Throw (TypeError what))
  /\ (exists what,
        result (_getCachedAnalyzerResult "find-imports" "bare-id"
                  (fresh "find-imports" {[ ("find-imports", "bare-id") := Example.bare ]}))
        = Throw (TypeError what)).
Proof.
  destruct unwinding_of_stored_results as (Hunwrap & Habort & Hcache).
  split; [ | split ].
  - eexists. split; [ reflexivity | ].
    refine (proj2 (Hunwrap [("targetProjectResult", Example.stored)] _
                     "targetProjectResult" (or_introl eq_refl) (conj eq_refl eq_refl)
                     eq_refl)).
  - exact (Habort Example.services (fun _ _ => Return JUndefined)
             (JObj [("referenceProjectResult", Example.bare)]) Example.start
             "referenceProjectResult" (or_intror eq_refl) (conj eq_refl eq_refl) eq_refl).
  - exact (proj2 (Hcache "find-imports" "bare-id"
                    (fresh "find-imports" {[ ("find-imports", "bare-id") := Example.bare ]})
                    Example.bare eq_refl eq_refl) eq_refl).
Defined.

(** ** Runs of the monad *)

Lemma set_targetProjectMeta_same w : set_targetProjectMeta (targetProjectMeta w) w = w.
Proof. now destruct w. Qed.

Lemma set_referenceProjectMeta_same w :
  set_referenceProjectMeta (referenceProjectMeta w) w = w.
Proof. now destruct w. Qed.

Section Frames.

Context {A B : Type}.

Lemma keeps_ret (a : A) : keeps_store (ret a).
Proof. now intros w. Qed.

Lemma keeps_lift (o : outcome A) : keeps_store (lift o).
Proof. now intros w. Qed.

Lemma keeps_read (f : world -> A) : keeps_store (read f).
Proof. now intros w. Qed.

Lemma keeps_bind (m : M A) (f : A -> M B) :
  keeps_store m -> (forall a, keeps_store (f a)) -> keeps_store (bind m f).
Proof.
  intros Hm Hf w. unfold bind. destruct (Hm w) as [Hs Hn].
  destruct (m w) as [[a | e | ] w' t]; simpl in *; auto.
  destruct (Hf a w') as [Hs' Hn']. rewrite final_after. split; congruence.
Qed.

Lemma emits_ret P (a : A) : emits P (ret a).
Proof. intros w. constructor. Qed.

Lemma emits_lift P (o : outcome A) : emits P (lift o).
Proof. intros w. constructor. Qed.

Lemma emits_read P (f : world -> A) : emits P (read f).
Proof. intros w. constructor. Qed.

Lemma emits_bind P (m : M A) (f : A -> M B) :
  emits P m -> (forall a, emits P (f a)) -> emits P (bind m f).
Proof.
  intros Hm Hf w. unfold bind. pose proof (Hm w) as Ht.
  destruct (m w) as [[a | e | ] w' t]; simpl in *; auto.
  rewrite events_after. apply Forall_app. split; [ exact Ht | apply Hf ].
Qed.

End Frames.

Lemma keeps_emit e : keeps_store (emit e).
Proof. now intros w. Qed.

Lemma keeps_update f :
  (forall w, store (f w) = store w /\ analyzerName (f w) = analyzerName w) ->
  keeps_store (update f).
Proof. intros H w. apply H. Qed.

Lemma emits_emit (P : event -> Prop) e : P e -> emits P (emit e).
Proof. intros H w. simpl. now repeat constructor. Qed.

Lemma emits_update P f : emits P (update f).
Proof. intros w. constructor. Qed.

Lemma keeps_mapM {A B} (f : A -> M B) l :
  (forall a, keeps_store (f a)) -> keeps_store (mapM f l).
Proof.
  intros Hf. induction l as [ | x rest IH ]; simpl.
  - apply keeps_ret.
  - apply keeps_bind; [ apply Hf | intros y ].
    apply keeps_bind; [ exact IH | intros ys; apply keeps_ret ].
Qed.

Lemma emits_mapM P {A B} (f : A -> M B) l :
  (forall a, emits P (f a)) -> emits P (mapM f l).
Proof.
  intros Hf. induction l as [ | x rest IH ]; simpl.
  - apply emits_ret.
  - apply emits_bind; [ apply Hf | intros y ].
    apply emits_bind; [ exact IH | intros ys; apply emits_ret ].
Qed.

Create HintDb frames.

#[local] Hint Resolve keeps_ret keeps_lift keeps_read keeps_emit
  emits_ret emits_lift emits_read emits_update : frames.

(** Walks through a computation written with [bind], splitting on the
    tests it makes. *)
Ltac frame :=
  repeat first
    [ progress intros
    | solve [ eauto with frames ]
    | apply keeps_bind
    | apply emits_bind
    | apply keeps_update; intros []; split; reflexivity
    | apply emits_emit; split; reflexivity
    | match goal with
      | |- keeps_store (if ?b then _ else _) => destruct b
      | |- emits _ (if ?b then _ else _) => destruct b
      | |- keeps_store (match ?x with _ => _ end) => destruct x
      | |- emits _ (match ?x with _ => _ end) => destruct x
      end ].

(** ** The normalizer *)

Section Normalizer.

Variable C : collaborators.

Lemma assembleResult_run queryOutput configuration w :
  assembleResult queryOutput configuration w
  = Run (obind (stripped_output queryOutput)
           (fun q => Return (assembled w q configuration)))
        (strip_metas w) [].
Proof.
  unfold assembleResult, strip_metas, stripped_meta, assembled, optional_entry,
    stripped_output, stripped_configuration, bind, read, update, lift, ret.
  destruct w as [name tm rm ident td rd st]. simpl.
  destruct (truthy tm) eqn:Htm, (truthy rm) eqn:Hrm; simpl.
  all: destruct queryOutput as [ | | b | n | s | items | props ]; simpl; try reflexivity.
  all: destruct (for_each strip_project_path items); simpl; reflexivity.
Qed.

End Normalizer.

Section Lifecycle.

Variable C : collaborators.

Lemma ensureAnalyzerResultFormat_run queryOutput configuration w :
  ensureAnalyzerResultFormat C queryOutput configuration w
  = Run (obind (stripped_output queryOutput)
           (fun q => Return (normalized C (assembled w q configuration))))
        (match stripped_output queryOutput with
         | Return _ => settle_metas C w
         | _ => strip_metas w
         end) [].
Proof.
  unfold ensureAnalyzerResultFormat. unfold bind at 1. rewrite assembleResult_run.
  unfold settle_metas, normalized.
  destruct (stripped_output queryOutput); try reflexivity. cbn [obind after].
  destruct (platform C =? "win32"); reflexivity.
Qed.

Lemma keeps_ensureAnalyzerResultFormat q cfg :
  keeps_store (ensureAnalyzerResultFormat C q cfg).
Proof.
  intros w. rewrite ensureAnalyzerResultFormat_run. unfold settle_metas.
  destruct (stripped_output q), (platform C =? "win32"); now destruct w.
Qed.

Lemma emits_ensureAnalyzerResultFormat P q cfg :
  emits P (ensureAnalyzerResultFormat C q cfg).
Proof. intros w. rewrite ensureAnalyzerResultFormat_run. constructor. Qed.

Lemma keeps_getCachedAnalyzerResult name ident :
  keeps_store (_getCachedAnalyzerResult name ident).
Proof. unfold _getCachedAnalyzerResult, getCachedResult. frame. Qed.

Lemma keeps_identify cfg : keeps_store (identify C cfg).
Proof. unfold identify, projectMeta. frame. Qed.

Lemma keeps_gate cfg : keeps_store (gate C cfg).
Proof.
  pose proof keeps_ensureAnalyzerResultFormat.
  unfold gate. frame.
Qed.

Lemma keeps_gather cfg : keeps_store (gather C cfg).
Proof. unfold gather, dataObject. frame. Qed.

Lemma keeps_prepare cfg : keeps_store (_prepare C cfg).
Proof.
  pose proof keeps_identify. pose proof keeps_gate. pose proof keeps_gather.
  pose proof keeps_getCachedAnalyzerResult.
  unfold _prepare. frame.
Qed.

Lemma keeps_analyzePerAstEntry projectData f :
  keeps_store (analyzePerAstEntry C projectData f).
Proof.
  unfold analyzePerAstEntry.
  apply keeps_bind; [ | frame ].
  apply keeps_mapM. intros e. unfold analyze_entry. frame.
Qed.

Lemma keeps_traverse f : keeps_store (_traverse C f).
Proof.
  pose proof keeps_analyzePerAstEntry.
  unfold _traverse, throw. frame.
Qed.

Lemma keeps_finalize q cfg : keeps_store (_finalize C q cfg).
Proof.
  pose proof keeps_ensureAnalyzerResultFormat.
  unfold _finalize. frame.
Qed.

Lemma keeps_executeWith f customConfig : keeps_store (executeWith C f customConfig).
Proof.
  pose proof keeps_prepare. pose proof keeps_traverse. pose proof keeps_finalize.
  unfold executeWith. frame.
Qed.

(** C4, as the code has it.  [_finalize] returns the result normalized
    by [ensureAnalyzerResultFormat] and leaves the cache store as it found
    it, and so does every call of [execute]: the analyzer reads the cache
    store and never writes it. *)
Theorem finalize_leaves_the_cache_store (f : ast_analysis) (queryOutput customConfig : value)
    (cfg : obj) (w : world) :
  result (_finalize C queryOutput cfg w)
  = result (ensureAnalyzerResultFormat C queryOutput cfg w)
  /\ store (final (_finalize C queryOutput cfg w)) = store w
  /\ store (final (executeWith C f customConfig w)) = store w.
Proof.
  split; [ | split ].
  - unfold _finalize, bind, read, emit, ret. simpl.
    rewrite ensureAnalyzerResultFormat_run.
    destruct (stripped_output queryOutput); reflexivity.
  - apply keeps_finalize.
  - apply keeps_executeWith.
Qed.

End Lifecycle.

(** The claim as the specification states it fails: this run of
    [_finalize] completes and the store holds nothing under the key, and
    the same after a whole call of [execute] that went through
    finalize. *)
Lemma finalize_writes_no_cache_entry :
  let w := set_identifier (JStr "target#0.1.0") Example.start in
  let finished := _finalize Example.services (JArr []) [] w in
  let call := execute (Example.no_files Example.services) Example.usual Example.start in
  (exists r, result finished = Return r)
  /\ store (final finished) !! (analyzerName w, identifier_text w) = None
  /\ (exists r, result call = Return r)
  /\ existsb finalize_event (events call) = true
  /\ store (final call) !! (analyzerName (final call), identifier_text (final call)) = None.
Proof.
  vm_compute. repeat split; try reflexivity; eexists; reflexivity.
Qed.

(** ** Resolving the projects *)

Section Identify.

Variable C : collaborators.

Lemma identify_outcome cfg w :
  (result (identify C cfg w), final (identify C cfg w))
  = match __unwindProvidedResults cfg with
    | Return cfg1 =>
        match target_meta C cfg1 with
        | Return tm =>
            match reference_meta C cfg1 (referenceProjectMeta w) with
            | Return rm => (Return cfg1, identified C cfg1 tm rm w)
            | Throw e => (Throw e, set_targetProjectMeta tm w)
            | Unmodelled => (Unmodelled, set_targetProjectMeta tm w)
            end
        | Throw e => (Throw e, w)
        | Unmodelled => (Unmodelled, w)
        end
    | Throw e => (Throw e, w)
    | Unmodelled => (Unmodelled, w)
    end.
Proof.
  unfold identify, projectMeta, target_meta, reference_meta, identified.
  unfold bind, read, emit, lift, update, ret.
  destruct (__unwindProvidedResults cfg) as [cfg1 | e | ]; [ | reflexivity | reflexivity ].
  destruct (truthy (field "targetProjectResult" cfg1));
    destruct (truthy (field "referenceProjectPath" cfg1));
    destruct (truthy (field "referenceProjectResult" cfg1));
    cbn [negb andb after result final].
  all: repeat match goal with
       | |- context [getProjectMeta C ?p] => destruct (getProjectMeta C p)
       | |- context [get "analyzerMeta" ?v] => destruct (get "analyzerMeta" v)
       | |- context [get "targetProject" ?v] => destruct (get "targetProject" v)
       | _ => progress cbn [after result final obind mbind outcome_bind]
       end.
  all: reflexivity.
Qed.

Lemma identify_returned cfg w cfg1 :
  result (identify C cfg w) = Return cfg1 ->
  __unwindProvidedResults cfg = Return cfg1
  /\ exists tm rm,
       target_meta C cfg1 = Return tm
       /\ reference_meta C cfg1 (referenceProjectMeta w) = Return rm
       /\ final (identify C cfg w) = identified C cfg1 tm rm w.
Proof.
  intros Hres. pose proof (identify_outcome cfg w) as H. rewrite Hres in H.
  destruct (__unwindProvidedResults cfg) as [c | e | ]; try discriminate H.
  destruct (target_meta C c) as [tm | e | ] eqn:Htm; try discriminate H.
  destruct (reference_meta C c (referenceProjectMeta w)) as [rm | e | ] eqn:Hrm;
    try discriminate H.
  injection H as Hc Hfinal. subst c. split; [ reflexivity | ].
  exists tm, rm. repeat split; assumption.
Qed.


Lemma unwound_field k cfg cfg1 :
  __unwindProvidedResults cfg = Return cfg1 ->
  k <> "targetProjectResult" -> k <> "referenceProjectResult" ->
  field k cfg1 = field k cfg.
Proof.
  intros H Ht Hr. unfold __unwindProvidedResults in H.
  destruct (unwind_provided "targetProjectResult" cfg) as [c | e | ] eqn:H1;
    try discriminate H.
  change (unwind_provided "referenceProjectResult" c = Return cfg1) in H.
  rewrite (unwind_provided_other _ _ _ _ Hr H).
  apply (unwind_provided_other _ _ _ _ Ht H1).
Qed.

Lemma gate_run cfg w :
  gate C cfg w
  = if truthy (field "referenceProjectPath" cfg)
       && negb (truthy (field "skipCheckMatchCompatibility" cfg))
    then
      match checkForMatchCompatibility C (field "referenceProjectPath" cfg)
              (field "targetProjectPath" cfg) with
      | Return verdict =>
          if negb (compatible verdict) then
            Run (Return (Some (normalized C
                                 (assembled w (JStr (bracketed (reason verdict))) cfg))))
                (settle_metas C w)
                [Log Info (Skipping (analyzerName w) (identifier w)
                             (default "undefined" (reason verdict)))]
          else Run (Return None) w []
      | Throw e => Run (Throw e) w []
      | Unmodelled => Run Unmodelled w []
      end
    else Run (Return None) w [].
Proof.
  unfold gate, bind, read, emit, lift, ret. cbn [after].
  destruct (_ && _); [ | reflexivity ].
  destruct (checkForMatchCompatibility C _ _) as [verdict | e | ]; try reflexivity.
  destruct (negb (compatible verdict)); [ | reflexivity ].
  cbn [after]. rewrite ensureAnalyzerResultFormat_run. reflexivity.
Qed.

Lemma emits_gate cfg : emits prepare_event (gate C cfg).
Proof.
  intros w. rewrite gate_run.
  destruct (_ && _); [ | constructor ].
  destruct (checkForMatchCompatibility C _ _) as [verdict | e | ]; try constructor.
  destruct (negb (compatible verdict)); repeat constructor.
Qed.

Lemma getCachedAnalyzerResult_run name ident w :
  _getCachedAnalyzerResult name ident w
  = let cached := default JUndefined (store w !! (name, ident)) in
    if truthy cached
    then Run (retrieved cached) w
           [CacheLookup name ident; Log Success (CachedVersionFound ident)]
    else Run (Return JUndefined) w [CacheLookup name ident].
Proof.
  unfold _getCachedAnalyzerResult, getCachedResult, retrieved, bind, read, emit, lift, ret.
  cbn [after app]. cbv zeta.
  destruct (truthy (default JUndefined (store w !! (name, ident)))); [ | reflexivity ].
  cbn [negb after app].
  destruct (unwindJsonResult _) as [u | e | ]; try reflexivity.
  cbn [after app obind]. destruct (set_prop _ _ _); reflexivity.
Qed.

Lemma emits_getCachedAnalyzerResult name ident :
  emits prepare_event (_getCachedAnalyzerResult name ident).
Proof.
  intros w. rewrite getCachedAnalyzerResult_run. cbv zeta.
  destruct (truthy _); repeat constructor.
Qed.

End Identify.


(** ** The skip result *)

Section Skip.

Variable C : collaborators.



(** The base class runs the same lifecycle with a per-file function that
    returns [undefined]. *)
Lemma execute_executeWith customConfig :
  execute C customConfig = executeWith C (fun _ _ => Return JUndefined) customConfig.
Proof. reflexivity. Qed.

Lemma executeWith_run f customConfig w :
  executeWith C f customConfig w
  = after [Log Debug (Started (analyzerName w) "execute")]
      (bind (_prepare C (initial_config customConfig))
         (fun prepared =>
            if truthy (fst prepared) then ret (fst prepared)
            else bind (_traverse C f) (fun queryOutput =>
                   _finalize C queryOutput (snd prepared))) w).
Proof.
  unfold executeWith. unfold bind at 1 2. unfold read, emit. cbn [after].
  now rewrite after_nil.
Qed.


End Skip.


(** ** Sanitization *)

Lemma index_key_head i :
  exists c rest, index_key i = String c rest /\ (48 <= nat_of_ascii c <= 57)%nat.
Proof.
  unfold index_key. destruct (Nat.to_uint i); cbn;
    eexists _, _; (split; [ reflexivity | vm_compute; lia ]).
Qed.

Lemma lookup_key_indexed_name k n items :
  (forall i, index_key i <> k) -> lookup_key k (indexed n items) = None.
Proof.
  intros Hk. revert n. induction items as [ | x rest IH ]; intros n; simpl; [ reflexivity | ].
  destruct (String.eqb_spec (index_key n) k) as [E | _]; [ now apply Hk in E | apply IH ].
Qed.

Lemma project_is_no_index i : index_key i <> "project".
Proof.
  destruct (index_key_head i) as (c & rest & -> & Hc). intros [= -> _]. vm_compute in Hc. lia.
Qed.

Lemma existsb_remove_key_same k l :
  existsb (fun kv : string * value => fst kv =? k) (remove_key k l) = false.
Proof.
  induction l as [ | [k' v] rest IH ]; simpl; [ reflexivity | ].
  destruct (k' =? k) eqn:E; simpl; [ exact IH | now rewrite E ].
Qed.

Lemma existsb_remove_key k k' l :
  existsb (fun kv : string * value => fst kv =? k) l = false ->
  existsb (fun kv : string * value => fst kv =? k) (remove_key k' l) = false.
Proof.
  induction l as [ | [k0 v] rest IH ]; simpl; [ reflexivity | ].
  intros H. apply orb_false_elim in H as [H0 Hrest].
  destruct (negb (k0 =? k')); simpl; [ rewrite H0 | ]; auto.
Qed.

Lemma lookup_remove_key_same k l : lookup_key k (remove_key k l) = None.
Proof.
  induction l as [ | [k' v] rest IH ]; simpl; [ reflexivity | ].
  destruct (k' =? k) eqn:E; simpl; [ exact IH | now rewrite E ].
Qed.

Lemma lookup_remove_key_ne k k' l :
  k <> k' -> lookup_key k (remove_key k' l) = lookup_key k l.
Proof.
  intros Hne. induction l as [ | [k0 v] rest IH ]; simpl; [ reflexivity | ].
  destruct (String.eqb_spec k0 k') as [-> | H0]; simpl.
  - destruct (String.eqb_spec k' k); [ congruence | exact IH ].
  - destruct (k0 =? k); [ reflexivity | exact IH ].
Qed.

Lemma has_key_delete_prop k v : has_key k (delete_prop k v) = false.
Proof. destruct v; try reflexivity. apply existsb_remove_key_same. Qed.

Lemma has_key_falsy k v : truthy v = false -> has_key k v = false.
Proof. destruct v; simpl; congruence. Qed.

Lemma stripped_configuration_paths cfg :
  has_key "targetProjectPath" (JObj (stripped_configuration cfg)) = false
  /\ has_key "referenceProjectPath" (JObj (stripped_configuration cfg)) = false.
Proof.
  unfold stripped_configuration.
  set (c := remove_key "targetProjectPath" (remove_key "referenceProjectPath" cfg)).
  assert (Ht : has_key "targetProjectPath" (JObj c) = false)
    by apply existsb_remove_key_same.
  assert (Hr : has_key "referenceProjectPath" (JObj c) = false)
    by (apply existsb_remove_key, existsb_remove_key_same).
  destruct (truthy (field "referenceProjectResult" c));
    [ | destruct (truthy (field "targetProjectResult" c)) ];
    split; auto; now apply existsb_remove_key.
Qed.

Lemma stripped_configuration_results cfg :
  carries "referenceProjectResult" (JObj (stripped_configuration cfg)) = false.
Proof.
  unfold stripped_configuration, carries.
  set (c := remove_key "targetProjectPath" (remove_key "referenceProjectPath" cfg)).
  destruct (truthy (field "referenceProjectResult" c)) eqn:Hr.
  - unfold prop. simpl. now rewrite lookup_remove_key_same.
  - destruct (truthy (field "targetProjectResult" c)); [ | exact Hr ].
    unfold field, prop in *. simpl in *.
    now rewrite lookup_remove_key_ne by discriminate.
Qed.

Lemma strip_project_path_clean e e' :
  strip_project_path e = Return e' -> has_key "path" (prop "project" e') = false.
Proof.
  unfold strip_project_path, get.
  destruct (nullish e) eqn:Hn; [ discriminate | ]. simpl.
  destruct (truthy (prop "project" e)) eqn:Ht.
  - destruct e as [ | | b | n | s | items | props ];
      try discriminate Hn; try discriminate Ht; intros [= <-].
    + unfold prop in *. simpl in *.
      now rewrite lookup_key_indexed_name by apply project_is_no_index.
    + unfold prop in *. simpl in *.
      now rewrite lookup_key_indexed_name by apply project_is_no_index.
    + unfold prop. simpl. rewrite lookup_replace_key_eq. apply has_key_delete_prop.
  - intros [= <-]. now apply has_key_falsy.
Qed.

Lemma for_each_clean items items' :
  for_each strip_project_path items = Return items' ->
  forallb (fun e => negb (has_key "path" (prop "project" e))) items' = true.
Proof.
  revert items'. induction items as [ | x rest IH ]; simpl; intros items'.
  - now intros [= <-].
  - destruct (strip_project_path x) as [y | e | ] eqn:Hx; simpl; try discriminate.
    destruct (for_each strip_project_path rest) as [ys | e | ]; simpl; try discriminate.
    intros [= <-]. simpl. rewrite (strip_project_path_clean _ _ Hx). now apply IH.
Qed.

Lemma stripped_output_clean q q' :
  stripped_output q = Return q' ->
  match q' with
  | JArr items => forallb (fun e => negb (has_key "path" (prop "project" e))) items
  | _ => true
  end = true.
Proof.
  destruct q; simpl; try (intros [= <-]; reflexivity).
  destruct (for_each strip_project_path items) as [ys | e | ] eqn:H; simpl; try discriminate.
  intros [= <-]. now apply for_each_clean in H.
Qed.

Lemma plain_name_letter c rest :
  (57 < nat_of_ascii c)%nat -> String c rest <> "length" -> plain_name (String c rest).
Proof.
  intros Hc Hl. split; [ exact Hl | ]. intros i.
  destruct (index_key_head i) as (d & tail & -> & Hd). intros [= -> _]. lia.
Qed.

Ltac plain := apply plain_name_letter; [ vm_compute; lia | discriminate ].

Section SanitizedPosix.

Variable C : collaborators.

Lemma prop_plain_array k items : plain_name k -> prop k (JArr items) = JUndefined.
Proof.
  intros [Hl Hi]. unfold prop.
  destruct (String.eqb_spec k "length"); [ contradiction | ].
  simpl. now rewrite lookup_key_indexed_name.
Qed.

Lemma prop_plain_string k s : plain_name k -> prop k (JStr s) = JUndefined.
Proof.
  intros [Hl Hi]. unfold prop.
  destruct (String.eqb_spec k "length"); [ contradiction | ].
  simpl. now rewrite lookup_key_indexed_name.
Qed.

Lemma prop_posixify k v :
  plain_name k ->
  prop k (posixify C v) = posixify_member C (posixify C) k (prop k v).
Proof.
  intros Hk. destruct v as [ | | b | n | s | items | props ]; try reflexivity.
  - cbn [posixify]. now rewrite prop_plain_string.
  - cbn [posixify]. now rewrite !prop_plain_array.
  - cbn [posixify]. unfold prop. cbn [own_entries].
    rewrite (lookup_key_map (posixify_member C (posixify C))).
    now destruct (lookup_key k props).
Qed.

Lemma prop_posixify_member k k0 v :
  plain_name k ->
  prop k (posixify_member C (posixify C) k0 v)
  = posixify_member C (posixify C) k (prop k v).
Proof.
  intros Hk. destruct v as [ | | b | n | s | items | props ]; try reflexivity.
  - cbn [posixify_member]. rewrite (prop_plain_string k s) by assumption.
    destruct (k0 =? "file"); now rewrite prop_plain_string.
  - apply (prop_posixify k (JArr items) Hk).
  - apply (prop_posixify k (JObj props) Hk).
Qed.

Lemma has_key_posixify_member k k0 v :
  has_key k (posixify_member C (posixify C) k0 v) = has_key k v.
Proof.
  destruct v as [ | | b | n | s | items | props ]; try reflexivity.
  - simpl. now destruct (k0 =? "file").
  - simpl. induction props as [ | [k' x] rest IH ]; simpl; [ reflexivity | now rewrite IH ].
Qed.

Lemma truthy_posixify_member k0 v :
  k0 <> "file" -> truthy (posixify_member C (posixify C) k0 v) = truthy v.
Proof.
  intros Hk. destruct v as [ | | b | n | s | items | props ]; try reflexivity.
  simpl. now destruct (String.eqb_spec k0 "file").
Qed.

Lemma forallb_project_posixify items :
  forallb (fun e => negb (has_key "path" (prop "project" e))) (map (posixify C) items)
  = forallb (fun e => negb (has_key "path" (prop "project" e))) items.
Proof.
  induction items as [ | x rest IH ]; simpl; [ reflexivity | ].
  rewrite IH, prop_posixify by plain. now rewrite has_key_posixify_member.
Qed.

(** Rewriting the [file] strings changes nothing the invariant looks at. *)
Lemma sanitized_posixify r : sanitized (posixify C r) = sanitized r.
Proof.
  unfold sanitized, carries.
  rewrite !(prop_posixify _ r) by plain.
  rewrite !prop_posixify_member by plain.
  rewrite !has_key_posixify_member.
  rewrite !truthy_posixify_member by discriminate.
  do 5 f_equal.
  destruct (prop "queryOutput" r) as [ | | b | n | s | items | props ]; try reflexivity.
  simpl. apply forallb_project_posixify.
Qed.

Lemma sanitized_normalized r : sanitized (normalized C r) = sanitized r.
Proof. unfold normalized. destruct (platform C =? "win32"); [ apply sanitized_posixify | reflexivity ]. Qed.

Lemma sanitized_assembled w q q' cfg :
  stripped_output q = Return q' -> sanitized (assembled w q' cfg) = true.
Proof.
  intros Hq. apply stripped_output_clean in Hq.
  destruct (stripped_configuration_paths cfg) as [Ht Hr].
  pose proof (stripped_configuration_results cfg) as Hres.
  unfold sanitized, assembled, optional_entry.
  destruct (truthy (targetProjectMeta w)) eqn:Htm;
    destruct (truthy (referenceProjectMeta w)) eqn:Hrm;
    cbv -[has_key carries delete_prop stripped_configuration forallb negb andb];
    rewrite Ht, Hr, Hres, ?has_key_delete_prop, andb_false_r; simpl; exact Hq.
Qed.

End SanitizedPosix.

Lemma bind_result_inv {A B} (m : M A) (k : A -> M B) w b :
  result (bind m k w) = Return b ->
  exists a, result (m w) = Return a /\ result (k a (final (m w))) = Return b.
Proof.
  unfold bind. destruct (m w) as [[a | e | ] w' t]; simpl; try discriminate.
  rewrite result_after. eauto.
Qed.

Lemma sanitized_retrieved cached r :
  retrieved cached = Return r -> sanitized r = sanitized (unwound cached).
Proof.
  unfold retrieved.
  destruct (nullish cached) eqn:Hn.
  { unfold unwindJsonResult. rewrite (get_nullish "queryOutput" _ Hn).
    cbn [mbind outcome_bind obind]. discriminate. }
  rewrite (unwindJsonResult_cases _ Hn).
  destruct (nullish (prop "meta" cached)); [ discriminate | ].
  cbn [obind]. unfold unwound.
  set (q := prop "queryOutput" cached).
  set (am := prop "analyzerMeta" (prop "meta" cached)).
  change (prop "analyzerMeta" (JObj [("queryOutput", q); ("analyzerMeta", am)])) with am.
  change (prop "queryOutput" (JObj [("queryOutput", q); ("analyzerMeta", am)])) with q.
  destruct am as [ | | b | n | s | items | props ]; try discriminate.
  cbn [set_prop obind]. intros [= <-].
  unfold sanitized, carries.
  change (prop "analyzerMeta" (JObj [("queryOutput", q); ("analyzerMeta", ?x)])) with x.
  change (prop "queryOutput" (JObj [("queryOutput", q); ("analyzerMeta", ?x)])) with q.
  unfold prop. cbn [own_entries].
  now rewrite !lookup_replace_key_ne by discriminate.
Qed.

Section Sanitized.

Variable C : collaborators.

Lemma ensured_result_sanitized q cfg w r :
  result (ensureAnalyzerResultFormat C q cfg w) = Return r -> sanitized r = true.
Proof.
  rewrite ensureAnalyzerResultFormat_run. cbn [result].
  destruct (stripped_output q) as [q' | e | ] eqn:Hq; try discriminate.
  intros [= <-]. rewrite sanitized_normalized. now apply sanitized_assembled with q.
Qed.

Lemma finalize_result q cfg w :
  result (_finalize C q cfg w) = result (ensureAnalyzerResultFormat C q cfg w).
Proof.
  unfold _finalize, bind, read, emit, ret. cbn [after].
  rewrite ensureAnalyzerResultFormat_run.
  destruct (stripped_output q); reflexivity.
Qed.

End Sanitized.

(** ** Cache miss and cache hit *)

Section Cache.

Variable C : collaborators.

Lemma gate_open cfg w :
  result (gate C cfg w) = Return None -> gate C cfg w = Run (Return None) w [].
Proof.
  rewrite gate_run.
  destruct (_ && _); [ | reflexivity ].
  destruct (checkForMatchCompatibility C _ _) as [verdict | e | ]; try discriminate.
  destruct (negb (compatible verdict)); [ discriminate | reflexivity ].
Qed.

Lemma identified_frame cfg tm rm w :
  analyzerName (identified C cfg tm rm w) = analyzerName w
  /\ store (identified C cfg tm rm w) = store w
  /\ targetData (identified C cfg tm rm w) = targetData w
  /\ referenceData (identified C cfg tm rm w) = referenceData w
  /\ referenceProjectMeta (identified C cfg tm rm w) = rm
  /\ targetProjectMeta (identified C cfg tm rm w) = tm
  /\ identifier (identified C cfg tm rm w) = JStr (createIdentifier C tm rm (JObj cfg)).
Proof. repeat split. Qed.

Lemma identify_frame cfg0 w cfg w1 t1 :
  identify C cfg0 w = Run (Return cfg) w1 t1 ->
  analyzerName w1 = analyzerName w /\ store w1 = store w
  /\ targetData w1 = targetData w /\ referenceData w1 = referenceData w.
Proof.
  intros Hid.
  assert (Hres : result (identify C cfg0 w) = Return cfg) by now rewrite Hid.
  destruct (identify_returned C _ _ _ Hres) as (_ & tm & rm & _ & _ & Hfinal).
  rewrite Hid in Hfinal. cbn [final] in Hfinal. subst w1. repeat split.
Qed.

(** C9, as the code has it.  On a cache miss [_prepare] gathers the
    files of the target with [gatherFilesConfig] unless a
    [targetProjectResult] was provided, then, when a reference path is
    given, the files of the reference with [gatherFilesConfigReference]
    or, if that is falsy, [gatherFilesConfig]; then it returns
    [undefined]. *)
Theorem prepare_gathers_on_cache_miss
    (cfg0 cfg : obj) (w w1 : world) (t1 : list event) (td rd : value) :
  let targetPath := field "targetProjectPath" cfg in
  let referencePath := field "referenceProjectPath" cfg in
  let provided := field "targetProjectResult" cfg in
  let forTarget := field "gatherFilesConfig" cfg in
  let forReference :=
    js_or (field "gatherFilesConfigReference" cfg) (field "gatherFilesConfig" cfg) in
  identify C cfg0 w = Run (Return cfg) w1 t1 ->
  result (gate C cfg w1) = Return None ->
  truthy (default JUndefined (store w !! (analyzerName w, identifier_text w1))) = false ->
  (truthy provided = false -> createDataObject C [targetPath] forTarget = Return td) ->
  (truthy referencePath = true ->
   createDataObject C [referencePath] forReference = Return rd) ->
  let prepared := _prepare C cfg0 w in
  result prepared = Return (JUndefined, cfg)
  /\ events prepared
     = t1 ++ [CacheLookup (analyzerName w) (identifier_text w1);
              Log Info (Starting (analyzerName w) (identifier w1))]
          ++ (if truthy provided then [] else [FilesGathered [targetPath] forTarget])
          ++ (if truthy referencePath
              then [FilesGathered [referencePath] forReference] else [])
  /\ targetData (final prepared) = (if truthy provided then targetData w else td)
  /\ referenceData (final prepared)
     = (if truthy referencePath then rd else referenceData w).
Proof.
  intros targetPath referencePath provided forTarget forReference
    Hid Hgate Hmiss Htarget Hreference prepared.
  subst targetPath referencePath provided forTarget forReference prepared.
  destruct (identify_frame _ _ _ _ _ Hid) as (Hname & Hstore & Htd & Hrd).
  remember (_prepare C cfg0 w) as prepared eqn:Hprepared.
  unfold _prepare in Hprepared. unfold bind at 1 in Hprepared. rewrite Hid in Hprepared.
  unfold bind at 1 in Hprepared. rewrite (gate_open _ _ Hgate) in Hprepared.
  cbn [after] in Hprepared.
  unfold bind at 1 2 in Hprepared. unfold read in Hprepared. cbn [after] in Hprepared.
  unfold bind at 1 in Hprepared.
  rewrite getCachedAnalyzerResult_run in Hprepared. cbv zeta in Hprepared.
  rewrite Hname, Hstore, Hmiss in Hprepared. cbn [truthy] in Hprepared.
  unfold gather, dataObject, bind, read, emit, lift, update, ret in Hprepared.
  rewrite Hname in Hprepared.
  destruct (truthy (field "targetProjectResult" cfg)) eqn:Hp;
    destruct (truthy (field "referenceProjectPath" cfg)) eqn:Hr;
    cbn [negb] in Hprepared;
    rewrite ?Htarget, ?Hreference in Hprepared by reflexivity;
    cbn [after result final events app] in Hprepared; subst prepared;
    cbn [result final events]; rewrite ?app_nil_r;
    repeat split; try assumption.
Qed.

Lemma prop_of_nullish k v : nullish v = true -> prop k v = JUndefined.
Proof. now destruct v. Qed.


End Cache.

Lemma prepare_gathers_on_cache_miss_witness :
  let prepared := _prepare Example.services (initial_config Example.usual) Example.start in
  (exists cfg, result prepared = Return (JUndefined, cfg))
  /\ In (FilesGathered [JStr "/work/target"] Example.gatherJs) (events prepared)
  /\ In (FilesGathered [JStr "/work/dep-a-1.2.0"] Example.gatherJs) (events prepared).
Proof.
  destruct (prepare_gathers_on_cache_miss Example.services
              (initial_config Example.usual) _ Example.start _ _
              (JArr [JStr "/work/target"]) (JArr [JStr "/work/dep-a-1.2.0"])
              eq_refl eq_refl eq_refl (fun _ => eq_refl) (fun _ => eq_refl))
    as (Hres & Hev & _).
  split; [ eexists; exact Hres | ].
  rewrite Hev. simpl. tauto.
Defined.

(** The claim as the specification states it fails: with a provided
    target result, [_prepare] reaches the cache miss and goes on to
    traversal without gathering any file. *)
Lemma prepare_gathers_nothing_for_provided_result :
  let prepared :=
    _prepare Example.services (initial_config Example.with_provided_result)
      Example.start in
  (exists cfg, result prepared = Return (JUndefined, cfg))
  /\ existsb gathering_event (events prepared) = false
  /\ targetData (final prepared) = JUndefined.
Proof. vm_compute. split; [ eexists; reflexivity | split; reflexivity ]. Qed.



(** ** The identifier does not depend on locations *)

Lemma lookup_without_locations k cfg :
  k <> "targetProjectPath" -> k <> "referenceProjectPath" ->
  lookup_key k (without_locations cfg) = lookup_key k cfg.
Proof.
  intros Ht Hr. unfold without_locations.
  now rewrite !lookup_remove_key_ne.
Qed.

Lemma field_without_locations k a b :
  without_locations a = without_locations b ->
  k <> "targetProjectPath" -> k <> "referenceProjectPath" ->
  field k a = field k b.
Proof.
  intros Hab Ht Hr. unfold field, prop. cbn [own_entries].
  rewrite <- (lookup_without_locations k a), <- (lookup_without_locations k b) by assumption.
  now rewrite Hab.
Qed.

Lemma remove_replace_key k k' x l :
  k <> k' -> remove_key k' (replace_key k x l) = replace_key k x (remove_key k' l).
Proof.
  intros Hne. induction l as [ | [k0 v] rest IH ]; simpl.
  - destruct (String.eqb_spec k k'); [ contradiction | reflexivity ].
  - destruct (String.eqb_spec k0 k) as [-> | H0].
    + simpl. destruct (String.eqb_spec k k'); [ contradiction | ].
      simpl. now rewrite String.eqb_refl.
    + simpl. destruct (String.eqb_spec k0 k') as [-> | H1]; simpl.
      * exact IH.
      * destruct (String.eqb_spec k0 k); [ contradiction | ]. now rewrite IH.
Qed.

Lemma without_locations_replace_key k x cfg :
  k <> "targetProjectPath" -> k <> "referenceProjectPath" ->
  without_locations (replace_key k x cfg) = replace_key k x (without_locations cfg).
Proof.
  intros Ht Hr. unfold without_locations. now rewrite !remove_replace_key.
Qed.

Lemma agree_same {A} (R : A -> A -> Prop) (o : outcome A) :
  (forall x, R x x) -> agree R o o.
Proof. intros HR. destruct o; simpl; auto. Qed.

Lemma unwind_provided_relocated k a b :
  k <> "targetProjectPath" -> k <> "referenceProjectPath" ->
  same_but_locations a b ->
  agree same_but_locations (unwind_provided k a) (unwind_provided k b).
Proof.
  intros Ht Hr Hab. rewrite !unwind_provided_cases.
  rewrite (field_without_locations k a b Hab Ht Hr).
  destruct (_ && _); [ | exact Hab ].
  destruct (unwindJsonResult (field k b)) as [u | e | ]; simpl; auto.
  unfold same_but_locations. rewrite !without_locations_replace_key by assumption.
  now rewrite Hab.
Qed.

Lemma unwound_relocated a b :
  same_but_locations a b ->
  agree same_but_locations (__unwindProvidedResults a) (__unwindProvidedResults b).
Proof.
  intros Hab. unfold __unwindProvidedResults.
  pose proof (unwind_provided_relocated "targetProjectResult" a b
                ltac:(discriminate) ltac:(discriminate) Hab) as H1.
  destruct (unwind_provided "targetProjectResult" a) as [a1 | e1 | ];
    destruct (unwind_provided "targetProjectResult" b) as [b1 | e2 | ];
    simpl in H1; try contradiction; try exact H1.
  now apply (unwind_provided_relocated "referenceProjectResult").
Qed.

Section Relocation.

Variable digest : value -> string.
Variables C1 C2 : collaborators.

Lemma target_meta_relocated a b :
  same_but_locations a b ->
  same_project (getProjectMeta C1 (field "targetProjectPath" a))
    (getProjectMeta C2 (field "targetProjectPath" b)) ->
  agree same_but_path (target_meta (with_identifier digest C1) a)
    (target_meta (with_identifier digest C2) b).
Proof.
  intros Hab Hmeta. unfold target_meta. cbn [getProjectMeta with_identifier].
  rewrite (field_without_locations "targetProjectResult" a b Hab) by discriminate.
  destruct (negb _); [ exact Hmeta | ].
  now apply agree_same.
Qed.

Lemma reference_meta_relocated a b p q :
  same_but_locations a b ->
  truthy (field "referenceProjectPath" a) = truthy (field "referenceProjectPath" b) ->
  same_project (getProjectMeta C1 (field "referenceProjectPath" a))
    (getProjectMeta C2 (field "referenceProjectPath" b)) ->
  same_but_path p q ->
  agree same_but_path (reference_meta (with_identifier digest C1) a p)
    (reference_meta (with_identifier digest C2) b q).
Proof.
  intros Hab Hpath Hmeta Hpq. unfold reference_meta. cbn [getProjectMeta with_identifier].
  rewrite (field_without_locations "referenceProjectResult" a b Hab) by discriminate.
  rewrite Hpath.
  destruct (_ && _); [ exact Hmeta | ].
  destruct (truthy (field "referenceProjectResult" b)); [ now apply agree_same | exact Hpq ].
Qed.

(** C6. With the identifier derived as the specification describes,
    two calls of [_prepare] that differ only in where the target and the
    reference project are located derive the same identifier: their
    configurations agree but for the two paths, and the metadata provider
    finds the same name, version and content at both locations. *)
Theorem identifier_ignores_locations (cfg1 cfg2 : obj) (w1 w2 : world) :
  same_but_locations cfg1 cfg2 ->
  truthy (field "referenceProjectPath" cfg1) = truthy (field "referenceProjectPath" cfg2) ->
  same_project (getProjectMeta C1 (field "targetProjectPath" cfg1))
    (getProjectMeta C2 (field "targetProjectPath" cfg2)) ->
  same_project (getProjectMeta C1 (field "referenceProjectPath" cfg1))
    (getProjectMeta C2 (field "referenceProjectPath" cfg2)) ->
  same_but_path (referenceProjectMeta w1) (referenceProjectMeta w2) ->
  let here := identify (with_identifier digest C1) cfg1 w1 in
  let there := identify (with_identifier digest C2) cfg2 w2 in
  agree same_but_locations (result here) (result there)
  /\ forall cfg, result here = Return cfg -> identifier (final here) = identifier (final there).
Proof.
  intros Hcfg Hpath Htarget Hreference Hprevious here there. subst here there.
  pose proof (identify_outcome (with_identifier digest C1) cfg1 w1) as H1.
  pose proof (identify_outcome (with_identifier digest C2) cfg2 w2) as H2.
  pose proof (unwound_relocated _ _ Hcfg) as Hunwound.
  destruct (__unwindProvidedResults cfg1) as [a | e1 | ] eqn:Ha;
    destruct (__unwindProvidedResults cfg2) as [b | e2 | ] eqn:Hb;
    simpl in Hunwound; try contradiction.
  2: { injection H1 as -> _. injection H2 as -> _. split; [ exact Hunwound | discriminate ]. }
  2: { injection H1 as -> _. injection H2 as -> _. split; [ exact I | discriminate ]. }
  rewrite <- (unwound_field "targetProjectPath" _ _ Ha) in Htarget by discriminate.
  rewrite <- (unwound_field "targetProjectPath" _ _ Hb) in Htarget by discriminate.
  rewrite <- (unwound_field "referenceProjectPath" _ _ Ha) in Hreference, Hpath
    by discriminate.
  rewrite <- (unwound_field "referenceProjectPath" _ _ Hb) in Hreference, Hpath
    by discriminate.
  pose proof (target_meta_relocated a b Hunwound Htarget) as Htm.
  destruct (target_meta (with_identifier digest C1) a) as [tm1 | e1 | ];
    destruct (target_meta (with_identifier digest C2) b) as [tm2 | e2 | ];
    simpl in Htm; try contradiction.
  2: { injection H1 as -> _. injection H2 as -> _. split; [ exact Htm | discriminate ]. }
  2: { injection H1 as -> _. injection H2 as -> _. split; [ exact I | discriminate ]. }
  pose proof (reference_meta_relocated a b _ _ Hunwound Hpath Hreference Hprevious) as Hrm.
  destruct (reference_meta (with_identifier digest C1) a (referenceProjectMeta w1))
    as [rm1 | e1 | ];
    destruct (reference_meta (with_identifier digest C2) b (referenceProjectMeta w2))
      as [rm2 | e2 | ];
    simpl in Hrm; try contradiction.
  2: { injection H1 as -> _. injection H2 as -> _. split; [ exact Hrm | discriminate ]. }
  2: { injection H1 as -> _. injection H2 as -> _. split; [ exact I | discriminate ]. }
  injection H1 as -> ->. injection H2 as -> ->.
  split; [ exact Hunwound | ]. intros _ _.
  unfold identified. cbn [identifier set_identifier createIdentifier with_identifier].
  unfold deriveIdentifier, logical_seed. cbn [delete_prop].
  unfold same_but_path in Htm, Hrm. unfold same_but_locations, without_locations in Hunwound.
  now rewrite Htm, Hrm, Hunwound.
Qed.

End Relocation.

Lemma identifier_ignores_locations_witness :
  identifier (final (identify Example.services (initial_config Example.usual)
                       Example.start))
  = identifier (final (identify Example.services (initial_config Example.relocated)
                         Example.start)).
Proof.
  refine (proj2 (identifier_ignores_locations Example.render Example.services
                   Example.services (initial_config Example.usual)
                   (initial_config Example.relocated) Example.start Example.start
                   _ eq_refl _ _ eq_refl) _ eq_refl);
    vm_compute; reflexivity.
Defined.

(** * Further properties of the analyzer *)

(** ** Errors of the compatibility check *)

Section GatingErrors.

Variable C : collaborators.

(** X1. The check answers only for two paths that are strings and lead
    to readable manifests; a path that is not a string is a [TypeError], an
    unreadable manifest a failure, and the reference is looked at first. *)
Theorem checkForMatchCompatibility_throws (referencePath targetPath : value) :
  (is_text referencePath = false ->
   exists what, checkForMatchCompatibility C referencePath targetPath
                = Throw (TypeError what))
  /\ (forall dir, referencePath = JStr dir -> readManifest C dir = None ->
        checkForMatchCompatibility C referencePath targetPath
        = Throw (Failure "package.json"))
  /\ (forall dir pkg, referencePath = JStr dir -> readManifest C dir = Some pkg ->
        is_text targetPath = false ->
        exists what, checkForMatchCompatibility C referencePath targetPath
                     = Throw (TypeError what))
  /\ (forall dir pkg dir', referencePath = JStr dir -> readManifest C dir = Some pkg ->
        targetPath = JStr dir' -> readManifest C dir' = None ->
        checkForMatchCompatibility C referencePath targetPath
        = Throw (Failure "package.json")).
Proof.
  unfold checkForMatchCompatibility, readPackageJson. repeat split.
  - intros Hr. destruct referencePath; try discriminate Hr; cbn; eauto.
  - intros dir -> ->. reflexivity.
  - intros dir pkg -> -> Ht. destruct targetPath; try discriminate Ht; cbn; eauto.
  - intros dir pkg dir' -> -> -> ->. reflexivity.
Qed.

(** X2. Whenever the check answers, both manifests were read and the
    answer is [compatible: true] without a reason or [compatible: false]
    with one of the reasons [no-dependency] and [no-matched-version]. *)
Theorem checkForMatchCompatibility_answer (referencePath targetPath : value)
    (v : compatibility) :
  checkForMatchCompatibility C referencePath targetPath = Return v ->
  (exists referenceDir targetDir referencePkg targetPkg,
      referencePath = JStr referenceDir /\ targetPath = JStr targetDir
      /\ readManifest C referenceDir = Some referencePkg
      /\ readManifest C targetDir = Some targetPkg
      /\ nullish targetPkg = false)
  /\ well_formed_verdict v.
Proof.
  unfold checkForMatchCompatibility, readPackageJson.
  destruct referencePath as [ | | | | rd | | ]; try discriminate.
  destruct (readManifest C rd) as [rp | ] eqn:Hrp; [ | discriminate ].
  destruct targetPath as [ | | | | td | | ]; try discriminate.
  destruct (readManifest C td) as [tp | ] eqn:Htp; [ | discriminate ].
  cbn [mbind outcome_bind obind].
  destruct (nullish tp) eqn:Hn.
  { rewrite !(get_nullish _ tp) by exact Hn. cbn [mbind outcome_bind obind]. discriminate. }
  rewrite !(get_defined _ tp) by exact Hn. cbn [mbind outcome_bind obind].
  intros H. split; [ exists rd, td, rp, tp; auto | ].
  destruct (find_import rp _) as [[[k range] | ] | e | ]; cbn in H; try discriminate.
  - destruct (get "version" rp) as [version | e | ]; cbn in H; try discriminate.
    destruct (satisfies C version range); injection H as <-; unfold well_formed_verdict;
      cbn; auto.
  - injection H as <-. unfold well_formed_verdict. cbn. auto.
Qed.

Lemma find_named_lookup n (deps : list (string * value)) range :
  lookup_key n deps = Some range ->
  exists k, List.find (fun kv => is_string (fst kv) (JStr n)) deps = Some (k, range).
Proof.
  induction deps as [ | [k v] rest IH ]; simpl; [ discriminate | ].
  destruct (String.eqb_spec k n) as [-> | Hne].
  - rewrite String.eqb_refl. intros [= ->]. exists n. reflexivity.
  - destruct (String.eqb_spec n k); [ congruence | exact IH ].
Qed.

(** X3. A name declared in devDependencies is judged by the range given
    there, whatever the dependencies section holds. *)
Theorem devDependencies_decide
    (referenceDir targetDir : string) (referencePkg targetPkg : value)
    (name : string) (dev : obj) (range : value) :
  readManifest C referenceDir = Some referencePkg ->
  readManifest C targetDir = Some targetPkg ->
  prop "name" referencePkg = JStr name ->
  prop "devDependencies" targetPkg = JObj dev ->
  lookup_key name dev = Some range ->
  checkForMatchCompatibility C (JStr referenceDir) (JStr targetDir)
  = Return (if satisfies C (prop "version" referencePkg) range
            then {| compatible := true; reason := None |}
            else {| compatible := false; reason := Some "no-matched-version" |}).
Proof.
  intros Href Htgt Hname Hdev Hrange.
  assert (Hr : nullish referencePkg = false).
  { destruct (nullish referencePkg) eqn:E; [ | reflexivity ].
    rewrite (prop_of_nullish _ _ E) in Hname. discriminate. }
  assert (Ht : nullish targetPkg = false).
  { destruct (nullish targetPkg) eqn:E; [ | reflexivity ].
    rewrite (prop_of_nullish _ _ E) in Hdev. discriminate. }
  unfold checkForMatchCompatibility, readPackageJson. rewrite Href, Htgt.
  cbn [mbind outcome_bind obind].
  rewrite !(get_defined _ targetPkg) by exact Ht. cbn [mbind outcome_bind obind].
  rewrite (find_import_find _ _ Hr), Hname, Hdev.
  cbn [mbind outcome_bind obind js_or truthy own_entries].
  rewrite find_app.
  destruct (find_named_lookup _ _ _ Hrange) as [k ->].
  rewrite (get_defined _ _ Hr). cbn [mbind outcome_bind obind].
  destruct (satisfies C _ range); reflexivity.
Qed.

End GatingErrors.

Lemma checkForMatchCompatibility_throws_witness :
  (exists what,
      checkForMatchCompatibility Example.services JNull (JStr "/work/target")
      = Throw (TypeError what))
  /\ checkForMatchCompatibility Example.services (JStr "/nowhere") (JStr "/work/target")
     = Throw (Failure "package.json")
  /\ (exists what,
        checkForMatchCompatibility Example.services (JStr "/work/dep-a-1.2.0") (JNum 1)
        = Throw (TypeError what))
  /\ checkForMatchCompatibility Example.services (JStr "/work/dep-a-1.2.0") (JStr "/nowhere")
     = Throw (Failure "package.json").
Proof.
  split; [ | split; [ | split ] ].
  - exact (proj1 (checkForMatchCompatibility_throws Example.services JNull
                    (JStr "/work/target")) eq_refl).
  - exact (proj1 (proj2 (checkForMatchCompatibility_throws Example.services
                           (JStr "/nowhere") (JStr "/work/target")))
             "/nowhere" eq_refl eq_refl).
  - exact (proj1 (proj2 (proj2 (checkForMatchCompatibility_throws Example.services
                                  (JStr "/work/dep-a-1.2.0") (JNum 1))))
             "/work/dep-a-1.2.0" _ eq_refl eq_refl eq_refl).
  - exact (proj2 (proj2 (proj2 (checkForMatchCompatibility_throws Example.services
                                  (JStr "/work/dep-a-1.2.0") (JStr "/nowhere"))))
             "/work/dep-a-1.2.0" _ "/nowhere" eq_refl eq_refl eq_refl eq_refl).
Defined.

Lemma checkForMatchCompatibility_answer_witness :
  checkForMatchCompatibility Example.services (JStr "/work/dep-a-2.0.0") (JStr "/work/target")
  = Return {| compatible := false; reason := Some "no-matched-version" |}
  /\ well_formed_verdict {| compatible := false; reason := Some "no-matched-version" |}.
Proof.
  split; [ reflexivity | ].
  exact (proj2 (checkForMatchCompatibility_answer Example.services
                  (JStr "/work/dep-a-2.0.0") (JStr "/work/target") _ eq_refl)).
Defined.

Lemma devDependencies_decide_witness :
  checkForMatchCompatibility Further.dev_services
    (JStr "/work/dep-a-1.2.0") (JStr "/work/dev-target")
  = Return {| compatible := true; reason := None |}.
Proof.
  exact (devDependencies_decide Further.dev_services
           "/work/dep-a-1.2.0" "/work/dev-target" _ _ "dep-a"
           [("dep-a", JStr "^1.0.0")] (JStr "^1.0.0")
           eq_refl eq_refl eq_refl eq_refl eq_refl).
Defined.

(** ** posixify as a whole *)

Section PosixifyWhole.

Variable C : collaborators.

(** X4. With a path rewriting that leaves its own results alone,
    posixifying twice is posixifying once. *)
Theorem posixify_idempotent (v : value) :
  (forall s, toPosixPath C (toPosixPath C s) = toPosixPath C s) ->
  posixify C (posixify C v) = posixify C v.
Proof.
  intros Hidem. induction v as [ | | b | n | s | items IH | props IH ] using value_ind';
    try reflexivity.
  - simpl. f_equal. rewrite map_map. apply map_ext_Forall. exact IH.
  - simpl. f_equal. rewrite map_map. apply map_ext_Forall.
    eapply List.Forall_impl; [ | exact IH ]. intros [k x] Hx. simpl in *. f_equal.
    destruct x; simpl in *; try reflexivity; try exact Hx.
    destruct (k =? "file") eqn:Hk; simpl; rewrite Hk; now rewrite ?Hidem.
Qed.

(** X5. [posixify] changes nothing but the text of strings: the result has
    the same keys in the same order, arrays of the same lengths and the
    same numbers, booleans, [null] and [undefined] at the same places. *)
Theorem posixify_keeps_skeleton (v : value) :
  skeleton (posixify C v) = skeleton v.
Proof.
  induction v as [ | | b | n | s | items IH | props IH ] using value_ind';
    try reflexivity.
  - simpl. f_equal. rewrite map_map. apply map_ext_Forall. exact IH.
  - simpl. f_equal. rewrite map_map. apply map_ext_Forall.
    eapply List.Forall_impl; [ | exact IH ]. intros [k x] Hx. simpl in *. f_equal.
    destruct x; simpl in *; try reflexivity; try exact Hx.
    destruct (k =? "file"); reflexivity.
Qed.

End PosixifyWhole.

Lemma slashes_idempotent s : Example.slashes (Example.slashes s) = Example.slashes s.
Proof.
  induction s as [ | c rest IH ]; simpl; [ reflexivity | ]. rewrite IH. f_equal.
  destruct (Ascii.eqb c Example.backslash) eqn:Hc; [ reflexivity | now rewrite Hc ].
Qed.

Lemma posixify_idempotent_witness :
  posixify Example.services (posixify Example.services Further.windows_entry)
  = posixify Example.services Further.windows_entry
  /\ prop "file" (posixify Example.services Further.windows_entry) = JStr "src/a.js".
Proof.
  split; [ | reflexivity ].
  exact (posixify_idempotent Example.services Further.windows_entry slashes_idempotent).
Defined.

(** ** The normalized result *)

Section NormalizedResult.

Variable C : collaborators.

Lemma configuration_of_assembled w q cfg :
  prop "configuration" (prop "analyzerMeta" (assembled w q cfg))
  = JObj (stripped_configuration cfg).
Proof.
  unfold assembled, optional_entry.
  destruct (truthy (targetProjectMeta w)), (truthy (referenceProjectMeta w)); reflexivity.
Qed.

Lemma prop_posixify_obj k l :
  prop k (posixify C (JObj l)) = posixify_member C (posixify C) k (prop k (JObj l)).
Proof.
  unfold prop. cbn [posixify own_entries]. rewrite lookup_key_map.
  now destruct (lookup_key k l).
Qed.

Lemma prop_normalized_obj k l :
  prop k (normalized C (JObj l)) = posix_member C k (prop k (JObj l)).
Proof.
  unfold normalized, posix_member.
  destruct (platform C =? "win32"); [ apply prop_posixify_obj | reflexivity ].
Qed.

Lemma analyzerMeta_of_normalized w q cfg :
  exists meta,
    prop "analyzerMeta" (assembled w q cfg) = JObj meta
    /\ prop "analyzerMeta" (normalized C (assembled w q cfg)) = normalized C (JObj meta).
Proof.
  unfold assembled. eexists. split; [ reflexivity | ].
  rewrite prop_normalized_obj. unfold posix_member, normalized.
  now destruct (platform C =? "win32").
Qed.

Lemma configuration_of_normalized w q cfg :
  prop "configuration" (prop "analyzerMeta" (normalized C (assembled w q cfg)))
  = normalized C (JObj (stripped_configuration cfg)).
Proof.
  destruct (analyzerMeta_of_normalized w q cfg) as (meta & Hmeta & ->).
  rewrite prop_normalized_obj, <- Hmeta, configuration_of_assembled.
  unfold posix_member, normalized. now destruct (platform C =? "win32").
Qed.

Lemma ensured_result q cfg w r :
  result (ensureAnalyzerResultFormat C q cfg w) = Return r ->
  exists q', stripped_output q = Return q' /\ r = normalized C (assembled w q' cfg).
Proof.
  rewrite ensureAnalyzerResultFormat_run. cbn [result].
  destruct (stripped_output q) as [q' | e | ]; try discriminate.
  intros [= <-]. eauto.
Qed.

Lemma field_stripped_configuration k cfg :
  k <> "targetProjectPath" -> k <> "referenceProjectPath" ->
  k <> "targetProjectResult" -> k <> "referenceProjectResult" ->
  field k (stripped_configuration cfg) = field k cfg.
Proof.
  intros H1 H2 H3 H4. unfold stripped_configuration.
  set (c := remove_key "targetProjectPath" (remove_key "referenceProjectPath" cfg)).
  assert (Hc : field k c = field k cfg).
  { unfold c, field, prop. cbn [own_entries]. now rewrite !lookup_remove_key_ne. }
  destruct (truthy (field "referenceProjectResult" c));
    [ | destruct (truthy (field "targetProjectResult" c)) ]; try exact Hc;
    rewrite <- Hc; unfold field, prop; cbn [own_entries]; now rewrite lookup_remove_key_ne.
Qed.

(** X6. Every property of the configuration other than the two project
    paths and the two provided results is carried into the result, in
    posix form on Windows. *)
Theorem ensureAnalyzerResultFormat_keeps_configuration
    (queryOutput : value) (configuration : obj) (w : world) (r : value) (k : string) :
  result (ensureAnalyzerResultFormat C queryOutput configuration w) = Return r ->
  k <> "targetProjectPath" -> k <> "referenceProjectPath" ->
  k <> "targetProjectResult" -> k <> "referenceProjectResult" ->
  prop k (prop "configuration" (prop "analyzerMeta" r))
  = posix_member C k (field k configuration).
Proof.
  intros Hr H1 H2 H3 H4. destruct (ensured_result _ _ _ _ Hr) as (q' & _ & ->).
  rewrite configuration_of_normalized, prop_normalized_obj. f_equal.
  now apply field_stripped_configuration.
Qed.

Lemma field_paths_removed k cfg :
  k <> "targetProjectPath" -> k <> "referenceProjectPath" ->
  field k (remove_key "targetProjectPath" (remove_key "referenceProjectPath" cfg))
  = field k cfg.
Proof.
  intros H1 H2. unfold field, prop. cbn [own_entries]. now rewrite !lookup_remove_key_ne.
Qed.

Lemma has_key_remove_key_ne k k' l :
  k <> k' -> has_key k (JObj (remove_key k' l)) = has_key k (JObj l).
Proof.
  intros Hne. induction l as [ | [k0 v] rest IH ]; simpl in *; [ reflexivity | ].
  destruct (String.eqb_spec k0 k') as [-> | H0]; simpl.
  - destruct (String.eqb_spec k' k); [ congruence | exact IH ].
  - now rewrite IH.
Qed.

Lemma has_key_posixify k l : has_key k (posixify C (JObj l)) = has_key k (JObj l).
Proof.
  simpl. induction l as [ | [k0 v] rest IH ]; simpl; [ reflexivity | now rewrite IH ].
Qed.

Lemma has_key_normalized k l : has_key k (normalized C (JObj l)) = has_key k (JObj l).
Proof.
  unfold normalized. destruct (platform C =? "win32"); [ apply has_key_posixify | reflexivity ].
Qed.

(** X7. Of two provided results the reference one is taken out of the
    configuration of the result and the target one stays; the target one is
    taken out only when no reference result was provided. *)
Theorem ensureAnalyzerResultFormat_provided_results
    (queryOutput : value) (configuration : obj) (w : world) (r : value) :
  result (ensureAnalyzerResultFormat C queryOutput configuration w) = Return r ->
  let kept := prop "configuration" (prop "analyzerMeta" r) in
  let held k := has_key k (JObj configuration) in
  (has_key "referenceProjectResult" kept, has_key "targetProjectResult" kept)
  = if truthy (field "referenceProjectResult" configuration)
    then (false, held "targetProjectResult")
    else if truthy (field "targetProjectResult" configuration)
    then (held "referenceProjectResult", false)
    else (held "referenceProjectResult", held "targetProjectResult").
Proof.
  intros Hr kept held. subst kept held. cbv beta.
  destruct (ensured_result _ _ _ _ Hr) as (q' & _ & ->).
  rewrite configuration_of_normalized, !has_key_normalized.
  unfold stripped_configuration.
  rewrite !field_paths_removed by discriminate.
  set (c := remove_key "targetProjectPath" (remove_key "referenceProjectPath" configuration)).
  assert (Ht : has_key "targetProjectResult" (JObj c)
               = has_key "targetProjectResult" (JObj configuration))
    by (unfold c; now rewrite !has_key_remove_key_ne by discriminate).
  assert (Hf : has_key "referenceProjectResult" (JObj c)
               = has_key "referenceProjectResult" (JObj configuration))
    by (unfold c; now rewrite !has_key_remove_key_ne by discriminate).
  destruct (truthy (field "referenceProjectResult" configuration));
    [ | destruct (truthy (field "targetProjectResult" configuration)) ].
  - f_equal; [ apply existsb_remove_key_same | ].
    now rewrite has_key_remove_key_ne by discriminate.
  - f_equal; [ | apply existsb_remove_key_same ].
    now rewrite has_key_remove_key_ne by discriminate.
  - now rewrite Ht, Hf.
Qed.

Lemma has_key_posixify_any k v : has_key k (posixify C v) = has_key k v.
Proof. destruct v; try reflexivity. apply has_key_posixify. Qed.

(** X8. [ensureAnalyzerResultFormat] changes the analyzer itself: whether
    it returns or throws, the metadata the analyzer holds for both projects
    has lost its [path] afterwards; when it returns on Windows, that
    metadata is in posix form as well, being the very objects of the
    result.  Nothing else of the analyzer changes. *)
Theorem ensureAnalyzerResultFormat_strips_the_analyzer
    (queryOutput : value) (configuration : obj) (w : world) :
  let call := ensureAnalyzerResultFormat C queryOutput configuration w in
  let w' := final call in
  let left meta :=
    if returned (result call) then normalized C (stripped_meta meta)
    else stripped_meta meta in
  targetProjectMeta w' = left (targetProjectMeta w)
  /\ referenceProjectMeta w' = left (referenceProjectMeta w)
  /\ has_key "path" (targetProjectMeta w') = false
  /\ has_key "path" (referenceProjectMeta w') = false
  /\ identifier w' = identifier w
  /\ targetData w' = targetData w
  /\ referenceData w' = referenceData w
  /\ store w' = store w.
Proof.
  rewrite ensureAnalyzerResultFormat_run. cbn [final result].
  assert (Hclean : forall meta, has_key "path" (stripped_meta meta) = false).
  { intros meta. unfold stripped_meta. destruct (truthy meta) eqn:Hm;
      [ apply has_key_delete_prop | now apply has_key_falsy ]. }
  assert (Hposix : forall meta, has_key "path" (posixify C (stripped_meta meta)) = false).
  { intros meta. now rewrite has_key_posixify_any. }
  unfold settle_metas, normalized.
  destruct (stripped_output queryOutput); cbn [obind returned];
    try (repeat split; apply Hclean).
  destruct (platform C =? "win32"); repeat split; first [ apply Hclean | apply Hposix ].
Qed.

Lemma strip_project_path_outcome x :
  if nullish x then exists what, strip_project_path x = Throw (TypeError what)
  else exists y, strip_project_path x = Return y.
Proof.
  unfold strip_project_path, get. destruct (nullish x) eqn:Hn; cbn [mbind outcome_bind obind].
  - eauto.
  - destruct (truthy (prop "project" x)); [ destruct x | ]; eauto.
Qed.

Lemma for_each_strip_outcome items :
  if existsb nullish items
  then exists what, for_each strip_project_path items = Throw (TypeError what)
  else exists items', for_each strip_project_path items = Return items'.
Proof.
  induction items as [ | x rest IH ]; simpl; [ eauto | ].
  pose proof (strip_project_path_outcome x) as Hx.
  destruct (nullish x); simpl.
  - destruct Hx as (what & ->). simpl. eauto.
  - destruct Hx as (y & ->). simpl.
    destruct (existsb nullish rest).
    + destruct IH as (what & ->). simpl. eauto.
    + destruct IH as (ys & ->). simpl. eauto.
Qed.

(** X9. [ensureAnalyzerResultFormat] throws, a [TypeError], exactly for a
    query output that is an array holding [null] or [undefined]; for every
    other query output it returns a result. *)
Theorem ensureAnalyzerResultFormat_returns
    (queryOutput : value) (configuration : obj) (w : world) :
  let call := ensureAnalyzerResultFormat C queryOutput configuration w in
  if has_nullish_entry queryOutput
  then exists what, result call = Throw (TypeError what)
  else exists r, result call = Return r.
Proof.
  intros call. subst call. rewrite ensureAnalyzerResultFormat_run. cbn [result].
  destruct queryOutput as [ | | b | n | s | items | props ]; simpl; eauto.
  pose proof (for_each_strip_outcome items) as H.
  destruct (existsb nullish items).
  - destruct H as (what & ->). simpl. eauto.
  - destruct H as (ys & ->). simpl. eauto.
Qed.

End NormalizedResult.

Lemma ensureAnalyzerResultFormat_keeps_configuration_witness :
  exists r,
    result (ensureAnalyzerResultFormat Example.services (JArr [])
              (initial_config Example.usual) Example.start) = Return r
    /\ prop "gatherFilesConfig" (prop "configuration" (prop "analyzerMeta" r))
       = Example.gatherJs.
Proof.
  eexists. split; [ reflexivity | ].
  exact (ensureAnalyzerResultFormat_keeps_configuration Example.services (JArr [])
           (initial_config Example.usual) Example.start _ "gatherFilesConfig" eq_refl
           ltac:(discriminate) ltac:(discriminate) ltac:(discriminate) ltac:(discriminate)).
Defined.

Lemma ensureAnalyzerResultFormat_provided_results_witness :
  exists r,
    result (ensureAnalyzerResultFormat Example.services (JArr [])
              Further.both_provided Example.start) = Return r
    /\ (has_key "referenceProjectResult" (prop "configuration" (prop "analyzerMeta" r)),
        has_key "targetProjectResult" (prop "configuration" (prop "analyzerMeta" r)))
       = (false, true).
Proof.
  eexists. split; [ reflexivity | ].
  exact (ensureAnalyzerResultFormat_provided_results Example.services (JArr [])
           Further.both_provided Example.start _ eq_refl).
Defined.

Lemma ensureAnalyzerResultFormat_strips_the_analyzer_witness :
  targetProjectMeta
    (final (ensureAnalyzerResultFormat (Example.on_windows Example.services) (JArr []) []
              Further.at_home))
  = JObj [("file", JStr "src/a.js")].
Proof.
  exact (proj1 (ensureAnalyzerResultFormat_strips_the_analyzer
                  (Example.on_windows Example.services) (JArr []) [] Further.at_home)).
Defined.

(** ** Traversal: failures and what is kept *)

Section TraversalFailures.

Variable C : collaborators.

Lemma mapM_aborts {A B} (m : A -> M B) (g : A -> B) (ev : A -> list event)
    (before : list A) (x : A) (later : list A) (o : outcome B) (t : list event) w :
  (forall y, In y before -> m y w = Run (Return (g y)) w (ev y)) ->
  m x w = Run o w t ->
  (forall b, o <> Return b) ->
  exists o' : outcome (list B),
    mapM m (before ++ x :: later) w = Run o' w (concat (map ev before) ++ t)
    /\ (forall e, o = Throw e -> o' = Throw e)
    /\ (forall bs, o' <> Return bs).
Proof.
  intros Hbefore Hx Hfail.
  induction before as [ | y rest IH ]; simpl.
  - unfold bind at 1. rewrite Hx.
    destruct o as [b | e | ]; [ now destruct (Hfail b) | | ].
    + exists (Throw e). repeat split; [ now intros e' [= ->] | discriminate ].
    + exists Unmodelled. repeat split; discriminate.
  - destruct IH as (o' & Hrun & Hthrow & Hnever).
    { intros z Hz. apply Hbefore. now right. }
    unfold bind at 1. rewrite (Hbefore y (or_introl eq_refl)). cbn [after].
    unfold bind at 1. rewrite Hrun.
    destruct o' as [bs | e | ]; [ now destruct (Hnever bs) | | ]; cbn [after].
    + exists (Throw e). rewrite app_assoc. repeat split; [ exact Hthrow | discriminate ].
    + exists Unmodelled. rewrite app_assoc. repeat split; [ exact Hthrow | discriminate ].
Qed.

Lemma analyze_entry_thrown projectData (f : ast_analysis) entry err w :
  f (ast entry) (context_of C projectData entry) = Throw err ->
  analyze_entry C projectData f entry w
  = Run (Throw err) w
      [Log Debug (Resolved (projectPath projectData) (file entry));
       FileAnalysed (ast entry) (relative_path C projectData entry)].
Proof.
  intros Hf. unfold analyze_entry, bind, emit, lift, ret. simpl. now rewrite Hf.
Qed.

Lemma analyze_entry_nothing projectData (f : ast_analysis) entry r w :
  f (ast entry) (context_of C projectData entry) = Return r ->
  nullish r = true ->
  analyze_entry C projectData f entry w
  = Run (Throw (TypeError ("Cannot read properties of undefined or null: " +:+ "result"))) w
      [Log Debug (Resolved (projectPath projectData) (file entry));
       FileAnalysed (ast entry) (relative_path C projectData entry)].
Proof.
  intros Hf Hr. unfold analyze_entry, bind, emit, lift, ret. simpl. rewrite Hf. simpl.
  now rewrite (get_nullish "result" _ Hr).
Qed.

Lemma analysis_events_app (t t' : list event) :
  List.filter analysis_event (t ++ t')
  = List.filter analysis_event t ++ List.filter analysis_event t'.
Proof. apply List.filter_app. Qed.

(** X10. A per-file function that throws ends the traversal with its
    error: the files before it were analysed, it was called for the file
    at hand, and no later file is analysed. *)
Theorem analyzePerAstEntry_aborts
    (projectData : project_data) (f : ast_analysis)
    (before : list ast_entry) (entry : ast_entry) (later : list ast_entry)
    (err : error) (w : world) :
  entries projectData = before ++ entry :: later ->
  (forall e, In e before ->
     exists r, f (ast e) (context_of C projectData e) = Return r /\ nullish r = false) ->
  f (ast entry) (context_of C projectData entry) = Throw err ->
  let traversal := analyzePerAstEntry C projectData f w in
  result traversal = Throw err
  /\ List.filter analysis_event (events traversal)
     = map (fun e => FileAnalysed (ast e) (relative_path C projectData e))
         (before ++ [entry])
  /\ final traversal = w.
Proof.
  intros Hentries Hbefore Hthrow traversal. subst traversal.
  set (ev := fun e => [Log Debug (Resolved (projectPath projectData) (file e));
                       FileAnalysed (ast e) (relative_path C projectData e)]).
  set (g := fun e =>
              match f (ast e) (context_of C projectData e) with
              | Return r => JObj [("file", JStr (relative_path C projectData e));
                                  ("meta", prop "meta" r); ("result", prop "result" r)]
              | _ => JUndefined
              end).
  destruct (mapM_aborts (analyze_entry C projectData f) g ev before entry later
              (Throw err) (ev entry) w) as (o' & Hrun & Hsame & _).
  - intros e He. destruct (Hbefore e He) as (r & Hr & Hdef).
    rewrite (analyze_entry_run _ _ _ _ _ _ Hr Hdef). unfold g. now rewrite Hr.
  - now apply analyze_entry_thrown.
  - discriminate.
  - rewrite (Hsame err eq_refl) in Hrun.
    assert (Hall : analyzePerAstEntry C projectData f w
                   = Run (Throw err) w (concat (map ev before) ++ ev entry)).
    { unfold analyzePerAstEntry. unfold bind at 1. now rewrite Hentries, Hrun. }
    rewrite Hall. cbn [result events final]. repeat split. subst ev.
    rewrite analysis_events_app, analysis_events_of_entries, map_app. reflexivity.
Qed.

Lemma filter_entries_defined (l : list value) :
  Forall (fun x => nullish (prop "result" x) = false) l ->
  filter_entries l
  = Return (List.filter (fun x => truthy (prop "length" (prop "result" x))) l).
Proof.
  induction 1 as [ | x rest Hx _ IH ]; simpl; [ reflexivity | ].
  rewrite (get_defined _ _ Hx). simpl. rewrite IH. reflexivity.
Qed.

Lemma filter_entries_nullish (l : list value) :
  Exists (fun x => nullish (prop "result" x) = true) l ->
  exists what, filter_entries l = Throw (TypeError what).
Proof.
  induction l as [ | x rest IH ]; intros H; [ now apply Exists_nil in H | ].
  simpl. destruct (nullish (prop "result" x)) eqn:Hx.
  - rewrite (get_nullish _ _ Hx). simpl. eauto.
  - rewrite (get_defined _ _ Hx). simpl.
    apply Exists_cons in H as [H | H]; [ congruence | ].
    destruct (IH H) as (what & ->). simpl. eauto.
Qed.

Lemma collected_run projectData (f : ast_analysis) (answer : ast_entry -> value) w :
  (forall e, In e (entries projectData) ->
     f (ast e) (context_of C projectData e) = Return (answer e)
     /\ nullish (answer e) = false) ->
  mapM (analyze_entry C projectData f) (entries projectData) w
  = Run (Return (map (fun e => JObj [("file", JStr (relative_path C projectData e));
                                     ("meta", prop "meta" (answer e));
                                     ("result", prop "result" (answer e))])
                   (entries projectData)))
      w
      (concat (map (fun e => [Log Debug (Resolved (projectPath projectData) (file e));
                              FileAnalysed (ast e) (relative_path C projectData e)])
                 (entries projectData))).
Proof.
  intros Hf. apply mapM_pure. intros e He. destruct (Hf e He) as (Hr & Hdef).
  now rewrite (analyze_entry_run _ _ _ _ _ _ Hr Hdef).
Qed.

(** X11. A file for which the per-file function gives no [result] makes
    the traversal throw a [TypeError], but only once every file has been
    analysed. *)
Theorem analyzePerAstEntry_needs_results
    (projectData : project_data) (f : ast_analysis) (answer : ast_entry -> value)
    (entry : ast_entry) (w : world) :
  (forall e, In e (entries projectData) ->
     f (ast e) (context_of C projectData e) = Return (answer e)
     /\ nullish (answer e) = false) ->
  In entry (entries projectData) ->
  nullish (prop "result" (answer entry)) = true ->
  let traversal := analyzePerAstEntry C projectData f w in
  (exists what, result traversal = Throw (TypeError what))
  /\ List.filter analysis_event (events traversal)
     = map (fun e => FileAnalysed (ast e) (relative_path C projectData e))
         (entries projectData)
  /\ final traversal = w.
Proof.
  intros Hf Hin Hnull traversal. subst traversal.
  remember (analyzePerAstEntry C projectData f w) as traversal eqn:Hrun.
  unfold analyzePerAstEntry in Hrun. unfold bind at 1 in Hrun.
  rewrite (collected_run _ _ _ _ Hf) in Hrun. unfold lift in Hrun. cbn [after] in Hrun.
  subst traversal. cbn [result events final]. rewrite app_nil_r.
  repeat split; [ | apply analysis_events_of_entries ].
  apply filter_entries_nullish. apply List.Exists_exists.
  eexists. split; [ apply in_map_iff; exists entry; split; [ reflexivity | exact Hin ] | ].
  exact Hnull.
Qed.

(** X12. When every file gets a [result], a file is kept exactly when the
    [length] of its result is truthy: a non-empty array or string is kept,
    an empty one and a result without [length] are dropped; the order of
    the files is kept. *)
Theorem analyzePerAstEntry_keeps_by_length
    (projectData : project_data) (f : ast_analysis) (answer : ast_entry -> value)
    (w : world) :
  (forall e, In e (entries projectData) ->
     f (ast e) (context_of C projectData e) = Return (answer e)
     /\ nullish (answer e) = false
     /\ nullish (prop "result" (answer e)) = false) ->
  result (analyzePerAstEntry C projectData f w)
  = Return (map (fun e => JObj [("file", JStr (relative_path C projectData e));
                                ("meta", prop "meta" (answer e));
                                ("result", prop "result" (answer e))])
              (List.filter (fun e => truthy (prop "length" (prop "result" (answer e))))
                 (entries projectData))).
Proof.
  intros Hf.
  unfold analyzePerAstEntry. unfold bind at 1. rewrite (collected_run _ _ answer).
  - unfold lift. cbn [after result]. rewrite filter_entries_defined.
    + now rewrite filter_map_comm.
    + apply List.Forall_forall. intros x Hx. apply in_map_iff in Hx as (e & <- & He).
      now destruct (Hf e He) as (_ & _ & Hres).
  - intros e He. destruct (Hf e He) as (H1 & H2 & _). now split.
Qed.

End TraversalFailures.

Lemma analyzePerAstEntry_aborts_witness :
  let traversal :=
    analyzePerAstEntry Example.services Example.target_files Further.failing
      Example.start in
  result traversal = Throw (Failure "parse")
  /\ List.filter analysis_event (events traversal)
     = [FileAnalysed (JStr "ast1") "./f1.js"; FileAnalysed (JStr "ast2") "./f2.js"].
Proof.
  destruct (analyzePerAstEntry_aborts Example.services Example.target_files
              Further.failing [Example.f1] Example.f2 [Example.f3] (Failure "parse")
              Example.start eq_refl) as (Hres & Hev & _).
  - intros e [<- | []]. eexists. split; reflexivity.
  - reflexivity.
  - split; [ exact Hres | exact Hev ].
Defined.

Lemma analyzePerAstEntry_needs_results_witness :
  let traversal :=
    analyzePerAstEntry Example.services Example.target_files Further.forgetful
      Example.start in
  (exists what, result traversal = Throw (TypeError what))
  /\ List.filter analysis_event (events traversal)
     = [FileAnalysed (JStr "ast1") "./f1.js"; FileAnalysed (JStr "ast2") "./f2.js";
        FileAnalysed (JStr "ast3") "./f3.js"].
Proof.
  destruct (analyzePerAstEntry_needs_results Example.services Example.target_files
              Further.forgetful Further.forgotten Example.f2 Example.start)
    as (Hres & Hev & _).
  - intros e [<- | [<- | [<- | []]]]; split; reflexivity.
  - right. left. reflexivity.
  - reflexivity.
  - split; [ exact Hres | exact Hev ].
Defined.

Lemma analyzePerAstEntry_keeps_by_length_witness :
  result (analyzePerAstEntry Example.services Example.target_files Further.textual
            Example.start)
  = Return [JObj [("file", JStr "./f1.js"); ("meta", JObj []); ("result", JStr "text")]].
Proof.
  refine (analyzePerAstEntry_keeps_by_length Example.services Example.target_files
            Further.textual Further.told Example.start _).
  intros e [<- | [<- | [<- | []]]]; repeat split; reflexivity.
Defined.

(** ** The gate in the lifecycle *)

Section Preserved.

Context {A B X : Type}.
Variable g : world -> X.

Lemma same_ret (a : A) : preserves g (ret a).
Proof. now intros w. Qed.

Lemma same_lift (o : outcome A) : preserves g (lift o).
Proof. now intros w. Qed.

Lemma same_read (f : world -> A) : preserves g (read f).
Proof. now intros w. Qed.

Lemma same_emit e : preserves g (emit e).
Proof. now intros w. Qed.

Lemma same_update f : (forall w, g (f w) = g w) -> preserves g (update f).
Proof. intros H w. apply H. Qed.

Lemma same_bind (m : M A) (f : A -> M B) :
  preserves g m -> (forall a, preserves g (f a)) -> preserves g (bind m f).
Proof.
  intros Hm Hf w. unfold bind. pose proof (Hm w) as Hw.
  destruct (m w) as [[a | e | ] w' t]; simpl in *; auto.
  rewrite final_after, Hf. exact Hw.
Qed.

Lemma same_mapM (f : A -> M B) l :
  (forall a, preserves g (f a)) -> preserves g (mapM f l).
Proof.
  intros Hf. induction l as [ | x rest IH ]; simpl.
  - now intros w.
  - intros w. unfold bind at 1. pose proof (Hf x w) as Hx.
    destruct (f x w) as [[y | e | ] w' t]; simpl in *; auto.
    rewrite final_after. unfold bind. pose proof (IH w') as Hrest.
    destruct (mapM f rest w') as [[ys | e | ] w'' t']; simpl in *; congruence.
Qed.

End Preserved.

(** Walks through a computation written with [bind] that only reads,
    logs and calls collaborators. *)
Ltac same :=
  repeat first
    [ progress intros
    | apply same_ret | apply same_lift | apply same_read | apply same_emit
    | apply same_update; intros []; reflexivity
    | apply same_bind
    | match goal with
      | |- preserves _ (if ?b then _ else _) => destruct b
      | |- preserves _ (match ?x with _ => _ end) => destruct x
      end ].

Lemma bind_cong {A B} (m m' : M A) (f f' : A -> M B) w :
  m w = m' w ->
  (forall a w' t, m' w = Run (Return a) w' t -> f a w' = f' a w') ->
  bind m f w = bind m' f' w.
Proof.
  intros Hm Hf. unfold bind. rewrite Hm.
  destruct (m' w) as [[a | e | ] w' t]; [ | reflexivity | reflexivity ].
  now rewrite (Hf a w' t).
Qed.

Section GateInLifecycle.

Variable C : collaborators.

Lemma same_analyzePerAstEntry projectData f :
  keeps_analyzer (analyzePerAstEntry C projectData f).
Proof.
  unfold keeps_analyzer, analyzePerAstEntry.
  apply same_bind; [ | same ].
  apply same_mapM. intros e. unfold analyze_entry. same.
Qed.

Lemma same_traverse f : keeps_analyzer (_traverse C f).
Proof.
  pose proof same_analyzePerAstEntry as Hentries.
  unfold keeps_analyzer, _traverse, throw in *.
  repeat (apply same_bind; [ same | intros ]).
  match goal with |- preserves _ (match ?x with _ => _ end) => destruct x end; [ same | ].
  apply same_bind; [ apply Hentries | same ].
Qed.

Lemma prepare_after_identify cfg0 w cfg w1 t1 :
  identify C cfg0 w = Run (Return cfg) w1 t1 ->
  _prepare C cfg0 w
  = after t1
      (bind (gate C cfg)
         (fun skipped =>
            match skipped with
            | Some skipResult => ret (skipResult, cfg)
            | None =>
                bind (read analyzerName) (fun name =>
                bind (read identifier_text) (fun ident =>
                bind (_getCachedAnalyzerResult name ident) (fun cachedResult =>
                if truthy cachedResult then ret (cachedResult, cfg)
                else bind (gather C cfg) (fun _ => ret (JUndefined, cfg)))))
            end) w1).
Proof. intros Hid. unfold _prepare. unfold bind at 1. now rewrite Hid. Qed.

Lemma identified_fields cfg0 w cfg w1 t1 k :
  identify C cfg0 w = Run (Return cfg) w1 t1 ->
  k <> "targetProjectResult" -> k <> "referenceProjectResult" ->
  field k cfg = field k cfg0.
Proof.
  intros Hid Ht Hr.
  assert (Hres : result (identify C cfg0 w) = Return cfg) by now rewrite Hid.
  destruct (identify_returned C _ _ _ Hres) as (Hunwound & _).
  now apply (unwound_field k _ _ Hunwound).
Qed.

(** X13. With [skipCheckMatchCompatibility] set, or without a reference
    project, the compatibility check is not made: a call of [execute] is
    the same, in result, analyzer and events, whatever
    [checkForMatchCompatibility] would read from the package.json files and
    whatever the range test would answer, the metadata service being the
    same. *)
Theorem execute_without_the_check
    (manifests : string -> option value) (test : value -> value -> bool)
    (f : ast_analysis) (customConfig : value) (w : world) :
  truthy (field "referenceProjectPath" (initial_config customConfig)) = false
  \/ truthy (field "skipCheckMatchCompatibility" (initial_config customConfig)) = true ->
  executeWith (with_manifests manifests test C) f customConfig w
  = executeWith C f customConfig w.
Proof.
  intros Hoff. set (C' := with_manifests manifests test C).
  assert (Hprepare : _prepare C' (initial_config customConfig) w
                     = _prepare C (initial_config customConfig) w).
  { unfold _prepare. apply bind_cong; [ reflexivity | ]. intros cfg w1 t1 Hid.
    assert (Hgate : gate C' cfg w1 = gate C cfg w1).
    { rewrite !gate_run.
      rewrite (identified_fields _ _ _ _ _ "referenceProjectPath" Hid) by discriminate.
      rewrite (identified_fields _ _ _ _ _ "skipCheckMatchCompatibility" Hid)
        by discriminate.
      destruct Hoff as [-> | ->]; [ reflexivity | ]. now rewrite andb_false_r. }
    apply bind_cong; [ exact Hgate | ]. intros [skipResult | ] w2 t2 _; reflexivity. }
  rewrite !executeWith_run. f_equal.
  apply bind_cong; [ exact Hprepare | ]. intros prepared w2 t2 _. reflexivity.
Qed.

(** X14. When the compatibility check throws (a manifest cannot be
    read), [execute] throws that error right after the identification:
    nothing is looked up in the cache, no file is gathered or analysed. *)
Theorem execute_fails_with_the_check
    (f : ast_analysis) (customConfig : value) (w : world)
    (cfg : obj) (w1 : world) (t1 : list event) (e : error) :
  truthy (field "referenceProjectPath" (initial_config customConfig)) = true ->
  truthy (field "skipCheckMatchCompatibility" (initial_config customConfig)) = false ->
  identify C (initial_config customConfig) w = Run (Return cfg) w1 t1 ->
  checkForMatchCompatibility C
    (field "referenceProjectPath" (initial_config customConfig))
    (field "targetProjectPath" (initial_config customConfig))
  = Throw e ->
  executeWith C f customConfig w
  = Run (Throw e) w1 (Log Debug (Started (analyzerName w) "execute") :: t1).
Proof.
  intros Hpath Hskip Hid Hcheck.
  rewrite <- (identified_fields _ _ _ _ _ "referenceProjectPath" Hid) in Hpath, Hcheck
    by discriminate.
  rewrite <- (identified_fields _ _ _ _ _ "targetProjectPath" Hid) in Hcheck
    by discriminate.
  rewrite <- (identified_fields _ _ _ _ _ "skipCheckMatchCompatibility" Hid) in Hskip
    by discriminate.
  rewrite executeWith_run. unfold bind at 1.
  rewrite (prepare_after_identify _ _ _ _ _ Hid). unfold bind at 1.
  rewrite gate_run, Hpath, Hskip, Hcheck. cbn [andb negb after app].
  now rewrite app_nil_r.
Qed.

End GateInLifecycle.

Lemma execute_without_the_check_witness :
  executeWith Further.unreadable Example.analysis Further.unchecked Example.start
  = executeWith Example.services Example.analysis Further.unchecked Example.start
  /\ exists r,
       result (executeWith Further.unreadable Example.analysis Further.unchecked
                 Example.start) = Return r.
Proof.
  split.
  - exact (execute_without_the_check Example.services (fun _ => None)
             Example.satisfies_table Example.analysis Further.unchecked Example.start
             (or_intror eq_refl)).
  - vm_compute. eexists. reflexivity.
Defined.

Lemma execute_fails_with_the_check_witness :
  exists w1 t1,
    executeWith Further.unreadable Example.analysis Example.usual Example.start
    = Run (Throw (Failure "package.json")) w1
        (Log Debug (Started "find-imports" "execute") :: t1)
    /\ existsb (fun e => match e with CacheLookup _ _ => true | _ => false end) t1 = false.
Proof.
  eexists _, _. split.
  - exact (execute_fails_with_the_check Further.unreadable Example.analysis Example.usual
             Example.start _ _ _ (Failure "package.json") eq_refl eq_refl eq_refl eq_refl).
  - reflexivity.
Defined.

(** ** Full runs *)

Section FullRuns.

Variable C : collaborators.

Lemma traverse_run f w projectData others :
  addAstToProjectsData C (targetData w) "babel" = Return (projectData :: others) ->
  _traverse C f w
  = after [Log Debug (Started (analyzerName w) "_traverse");
           AstRequested (targetData w) "babel"]
      (bind (analyzePerAstEntry C projectData f) (fun kept => ret (JArr kept)) w).
Proof.
  intros Hast. unfold _traverse. unfold bind at 1 2 3 4 5. unfold read, emit, lift.
  rewrite Hast. cbn [after app].
  destruct (bind (analyzePerAstEntry C projectData f) _ w) as [o w' t]. reflexivity.
Qed.

Lemma execute_after_prepare f customConfig w v cfg w1 t1 :
  _prepare C (initial_config customConfig) w = Run (Return (v, cfg)) w1 t1 ->
  truthy v = false ->
  executeWith C f customConfig w
  = after (Log Debug (Started (analyzerName w) "execute") :: t1)
      (bind (_traverse C f) (fun queryOutput => _finalize C queryOutput cfg) w1).
Proof.
  intros Hprepare Hv. rewrite executeWith_run. unfold bind at 1. rewrite Hprepare.
  cbn [fst snd]. rewrite Hv.
  destruct (bind (_traverse C f) _ w1) as [o w' t]. reflexivity.
Qed.

(** X15. [execute] as the base class has it traverses with a function
    that returns nothing: once [_prepare] has found no result to return and
    the target has a file, the call throws a [TypeError] at the first file,
    and it never reaches [_finalize]. *)
Theorem execute_of_the_base_class
    (customConfig : value) (w : world) (v : value) (cfg : obj) (w1 : world)
    (t1 : list event) (projectData : project_data) (others : list project_data)
    (entry : ast_entry) (later : list ast_entry) :
  _prepare C (initial_config customConfig) w = Run (Return (v, cfg)) w1 t1 ->
  truthy v = false ->
  addAstToProjectsData C (targetData w1) "babel" = Return (projectData :: others) ->
  entries projectData = entry :: later ->
  exists what,
    execute C customConfig w
    = Run (Throw (TypeError what)) w1
        (Log Debug (Started (analyzerName w) "execute") :: t1
         ++ [Log Debug (Started (analyzerName w1) "_traverse");
             AstRequested (targetData w1) "babel";
             Log Debug (Resolved (projectPath projectData) (file entry));
             FileAnalysed (ast entry) (relative_path C projectData entry)]).
Proof.
  intros Hprepare Hv Hast Hentries.
  set (f := fun (_ : value) (_ : ast_context) => Return JUndefined).
  set (ev := fun e => [Log Debug (Resolved (projectPath projectData) (file e));
                       FileAnalysed (ast e) (relative_path C projectData e)]).
  destruct (mapM_aborts (analyze_entry C projectData f) (fun _ => JUndefined) ev
              [] entry later
              (Throw (TypeError ("Cannot read properties of undefined or null: "
                                 +:+ "result")))
              (ev entry) w1) as (o' & Hrun & Hsame & _).
  - intros y [].
  - now apply (analyze_entry_nothing C projectData f entry JUndefined).
  - discriminate.
  - rewrite (Hsame _ eq_refl) in Hrun. cbn [app concat map] in Hrun.
    assert (Hentries_run :
      analyzePerAstEntry C projectData f w1
      = Run (Throw (TypeError ("Cannot read properties of undefined or null: "
                               +:+ "result"))) w1 (ev entry)).
    { unfold analyzePerAstEntry. rewrite Hentries.
      rewrite (bind_thrown _ _ _ _ ltac:(rewrite Hrun; reflexivity)).
      now rewrite Hrun. }
    assert (Htraverse :
      _traverse C f w1
      = Run (Throw (TypeError ("Cannot read properties of undefined or null: "
                               +:+ "result"))) w1
          ([Log Debug (Started (analyzerName w1) "_traverse");
            AstRequested (targetData w1) "babel"] ++ ev entry)).
    { rewrite (traverse_run _ _ _ _ Hast).
      rewrite (bind_thrown _ _ _ _ ltac:(rewrite Hentries_run; reflexivity)).
      now rewrite Hentries_run. }
    eexists. rewrite execute_executeWith.
    rewrite (execute_after_prepare _ _ _ _ _ _ _ Hprepare Hv).
    rewrite (bind_thrown _ _ _ _ ltac:(rewrite Htraverse; reflexivity)).
    rewrite Htraverse. reflexivity.
Qed.

Lemma finalize_run q cfg w :
  _finalize C q cfg w
  = match stripped_output q with
    | Return q' =>
        Run (Return (normalized C (assembled w q' cfg))) (settle_metas C w)
          [Log Debug (Started (analyzerName w) "_finalize");
           Log Success (Finished (analyzerName w) (identifier w))]
    | Throw e =>
        Run (Throw e) (strip_metas w) [Log Debug (Started (analyzerName w) "_finalize")]
    | Unmodelled =>
        Run Unmodelled (strip_metas w) [Log Debug (Started (analyzerName w) "_finalize")]
    end.
Proof.
  unfold _finalize. unfold bind at 1 2 3. unfold read, emit. cbn [after].
  rewrite ensureAnalyzerResultFormat_run.
  destruct (stripped_output q) as [q' | e | ]; [ | reflexivity | reflexivity ].
  unfold bind, read, emit, ret. cbn [after app]. unfold settle_metas.
  destruct (platform C =? "win32"); now destruct w.
Qed.

(** X16. A call that [_prepare] does not answer returns what
    [ensureAnalyzerResultFormat] makes of the output of the traversal, for
    the configuration as [_prepare] left it; the events of the call are
    those of the three phases in their order, and the call ends with the
    success message. *)
Theorem execute_runs_the_three_phases
    (f : ast_analysis) (customConfig : value) (w : world) (v : value) (cfg : obj)
    (w1 : world) (t1 : list event) (queryOutput r : value) :
  _prepare C (initial_config customConfig) w = Run (Return (v, cfg)) w1 t1 ->
  truthy v = false ->
  result (_traverse C f w1) = Return queryOutput ->
  result (ensureAnalyzerResultFormat C queryOutput cfg w1) = Return r ->
  executeWith C f customConfig w
  = Run (Return r) (final (ensureAnalyzerResultFormat C queryOutput cfg w1))
      (Log Debug (Started (analyzerName w) "execute") :: t1
       ++ events (_traverse C f w1)
       ++ [Log Debug (Started (analyzerName w1) "_finalize");
           Log Success (Finished (analyzerName w1) (identifier w1))]).
Proof.
  intros Hprepare Hv Htraverse Hensure.
  rewrite (execute_after_prepare _ _ _ _ _ _ _ Hprepare Hv).
  rewrite (bind_returned _ _ _ _ Htraverse), (same_traverse C f w1).
  rewrite finalize_run. rewrite ensureAnalyzerResultFormat_run in Hensure |- *.
  cbn [result final] in Hensure |- *.
  destruct (stripped_output queryOutput) as [q' | e | ]; try discriminate Hensure.
  injection Hensure as <-. cbn [after app]. now rewrite app_assoc.
Qed.

Lemma heading_of_normalized w q cfg :
  heading (normalized C (assembled w q cfg))
  = (JStr (analyzerName w), JStr "babel", posix_member C "identifier" (identifier w)).
Proof.
  unfold heading.
  destruct (analyzerMeta_of_normalized C w q cfg) as (meta & Hmeta & ->).
  rewrite !prop_normalized_obj, <- Hmeta.
  unfold assembled, posix_member. destruct (platform C =? "win32"); reflexivity.
Qed.

Lemma retrieved_from_cache cached r : retrieved cached = Return r -> from_cache r.
Proof.
  unfold retrieved, from_cache.
  destruct (unwindJsonResult cached) as [u | e | ]; try discriminate. cbn [obind].
  destruct (prop "analyzerMeta" u) as [ | | b | n | s | items | props ]; try discriminate.
  cbn [set_prop obind]. intros [= <-].
  change (field "__fromCache" (replace_key "__fromCache" (JBool true) props) = JBool true).
  apply field_replace_key_eq.
Qed.

Lemma same_gate_heading cfg :
  preserves (fun w => (analyzerName w, identifier w)) (gate C cfg).
Proof.
  intros w. rewrite gate_run. destruct (_ && _); [ | reflexivity ].
  destruct (checkForMatchCompatibility C _ _) as [verdict | e | ]; try reflexivity.
  destruct (negb (compatible verdict)); [ | reflexivity ].
  cbn [final]. unfold settle_metas. destruct (platform C =? "win32"); now destruct w.
Qed.

Lemma same_gather_heading cfg :
  preserves (fun w => (analyzerName w, identifier w)) (gather C cfg).
Proof. unfold gather, dataObject. same. Qed.

Lemma same_cached_heading {X} (g : world -> X) name ident :
  preserves g (_getCachedAnalyzerResult name ident).
Proof. intros w. rewrite getCachedAnalyzerResult_run. cbv zeta. now destruct (truthy _). Qed.

Lemma same_finalize_heading q cfg :
  preserves (fun w => (analyzerName w, identifier w)) (_finalize C q cfg).
Proof.
  intros w. rewrite finalize_run. unfold settle_metas.
  destruct (stripped_output q), (platform C =? "win32"); now destruct w.
Qed.

Lemma identified_text cfg0 w cfg :
  result (identify C cfg0 w) = Return cfg ->
  analyzerName (final (identify C cfg0 w)) = analyzerName w
  /\ exists s, identifier (final (identify C cfg0 w)) = JStr s.
Proof.
  intros Hres. destruct (identify_returned C _ _ _ Hres) as (_ & tm & rm & _ & _ & ->).
  split; [ reflexivity | eexists; reflexivity ].
Qed.

Lemma posix_member_text s : posix_member C "identifier" (JStr s) = JStr s.
Proof. unfold posix_member. now destruct (platform C =? "win32"). Qed.

(** What [_prepare] hands back when it returns: the analyzer holds the
    identifier of this call, a string, and a truthy result is either marked
    as coming from the cache or headed by this analyzer and identifier. *)
Lemma prepare_heading cfg0 w x cfg :
  result (_prepare C cfg0 w) = Return (x, cfg) ->
  let w' := final (_prepare C cfg0 w) in
  analyzerName w' = analyzerName w
  /\ (exists s, identifier w' = JStr s)
  /\ (truthy x = true ->
      from_cache x \/ heading x = (JStr (analyzerName w), JStr "babel", identifier w')).
Proof.
  intros Hres. cbv zeta.
  remember (final (_prepare C cfg0 w)) as w' eqn:Hw'.
  unfold _prepare in Hres, Hw'.
  apply bind_result_inv in Hres as (cfg1 & Hid & Hinv).
  destruct (identified_text _ _ _ Hid) as (Hname & s & Hs).
  rewrite (bind_returned _ _ _ _ Hid), final_after in Hw'.
  set (w1 := final (identify C cfg0 w)) in *.
  apply bind_result_inv in Hinv as (skipped & Hgate & Hinv).
  pose proof (same_gate_heading cfg1 w1) as Hw2. cbv beta in Hw2.
  rewrite (bind_returned _ _ _ _ Hgate), final_after in Hw'.
  set (w2 := final (gate C cfg1 w1)) in *.
  injection Hw2 as Hname2 Hident2.
  destruct skipped as [skipResult | ].
  - cbn [ret final] in Hw'. subst w'. injection Hinv as <- _.
    split; [ congruence | ]. split; [ exists s; congruence | ]. intros _. right.
    rewrite gate_run in Hgate.
    destruct (_ && _); [ | discriminate ].
    destruct (checkForMatchCompatibility C _ _) as [verdict | e | ]; try discriminate.
    destruct (negb (compatible verdict)); [ | discriminate ].
    injection Hgate as <-. rewrite heading_of_normalized, Hident2, Hs, Hname.
    now rewrite posix_member_text.
  - unfold bind at 1 2 in Hw'. unfold read in Hw'. cbn [after] in Hw'.
    rewrite !final_after in Hw'.
    unfold bind at 1 2 in Hinv. unfold read in Hinv. cbn [after] in Hinv.
    rewrite !result_after in Hinv.
    apply bind_result_inv in Hinv as (cached & Hcached & Hinv).
    rewrite (bind_returned _ _ _ _ Hcached), final_after in Hw'.
    pose proof (same_cached_heading (fun w => w) (analyzerName w2) (identifier_text w2) w2)
      as Hw3. cbv beta in Hw3. rewrite Hw3 in Hinv, Hw'.
    destruct (truthy cached) eqn:Hc.
    + cbn [ret final] in Hw'. subst w'. injection Hinv as <- _.
      split; [ congruence | ]. split; [ exists s; congruence | ]. intros _. left.
      rewrite getCachedAnalyzerResult_run in Hcached. cbv zeta in Hcached.
      destruct (truthy (default JUndefined _)); cbn [result] in Hcached.
      * now apply retrieved_from_cache with (default JUndefined
            (store w2 !! (analyzerName w2, identifier_text w2))).
      * injection Hcached as <-. discriminate Hc.
    + apply bind_result_inv in Hinv as (u & Hgather & Hinv).
      injection Hinv as <- _.
      rewrite (bind_returned _ _ _ _ Hgather), final_after in Hw'. cbn [ret final] in Hw'.
      pose proof (same_gather_heading cfg1 w2) as Hw4. cbv beta in Hw4.
      injection Hw4 as Hname4 Hident4. subst w'.
      split; [ congruence | ]. split; [ exists s; congruence | ]. discriminate.
Qed.

(** X17. Every result [execute] returns is either marked as coming from
    the cache, or it names this analyzer, the babel ast and the identifier
    the analyzer holds at the end of the call. *)
Theorem execute_results_are_headed
    (f : ast_analysis) (customConfig : value) (w : world) (r : value) :
  let call := executeWith C f customConfig w in
  result call = Return r ->
  from_cache r
  \/ heading r = (JStr (analyzerName w), JStr "babel", identifier (final call)).
Proof.
  intros call Hres. subst call.
  rewrite executeWith_run in Hres |- *. rewrite result_after in Hres. rewrite final_after.
  apply bind_result_inv in Hres as ([x cfg] & Hprepare & Hres).
  destruct (prepare_heading _ _ _ _ Hprepare) as (Hname & (s & Hs) & Hx).
  rewrite (bind_returned _ _ _ _ Hprepare), final_after.
  set (w1 := final (_prepare C (initial_config customConfig) w)) in *.
  cbn [fst snd] in Hres |- *.
  destruct (truthy x) eqn:Htruthy.
  - injection Hres as <-. cbn [ret final]. now apply Hx.
  - right. apply bind_result_inv in Hres as (q & Htraverse & Hres).
    rewrite (bind_returned _ _ _ _ Htraverse), final_after.
    rewrite (same_traverse C f w1) in Hres |- *.
    pose proof (same_finalize_heading q cfg w1) as Hw2. cbv beta in Hw2.
    injection Hw2 as _ ->.
    rewrite finalize_result in Hres. destruct (ensured_result C _ _ _ _ Hres) as (q' & _ & ->).
    now rewrite heading_of_normalized, Hs, Hname, posix_member_text.
Qed.

End FullRuns.

Lemma execute_of_the_base_class_witness :
  exists what w1 t,
    execute Example.services Example.usual Example.start
    = Run (Throw (TypeError what)) w1 t
    /\ List.filter analysis_event t = [FileAnalysed (JStr "ast1") "./f1.js"]
    /\ existsb finalize_event t = false.
Proof.
  destruct (execute_of_the_base_class Example.services Example.usual Example.start
              _ _ _ _ Example.target_files [] Example.f1 [Example.f2; Example.f3]
              eq_refl eq_refl eq_refl eq_refl) as (what & Hrun).
  eexists what, _, _. split; [ exact Hrun | ]. split; reflexivity.
Defined.

Lemma execute_runs_the_three_phases_witness :
  exists r w' t,
    executeWith Example.services Example.analysis Example.usual Example.start
    = Run (Return r) w' t
    /\ prop "queryOutput" r
       = JArr [collected_entry "./f2.js" (JObj []) [JStr "ast2"];
               collected_entry "./f3.js" (JObj []) [JStr "ast3"]].
Proof.
  eexists _, _, _. split.
  - exact (execute_runs_the_three_phases Example.services Example.analysis Example.usual
             Example.start _ _ _ _ _ _ eq_refl eq_refl eq_refl eq_refl).
  - reflexivity.
Defined.

Lemma execute_results_are_headed_witness :
  exists r,
    result (executeWith Example.services Example.analysis Example.usual Example.start)
    = Return r
    /\ (from_cache r
        \/ heading r = (JStr "find-imports", JStr "babel", JStr Example.usual_identifier)).
Proof.
  eexists. split; [ reflexivity | ].
  exact (execute_results_are_headed Example.services Example.analysis Example.usual
           Example.start _ eq_refl).
Defined.

(** ** Identification *)

Lemma truthy_unwound x : truthy (unwound x) = true.
Proof. reflexivity. Qed.

Lemma unwind_provided_truthy k cfg cfg' :
  unwind_provided k cfg = Return cfg' ->
  truthy (field k cfg') = truthy (field k cfg)
  /\ (truthy (field k cfg) = false -> cfg' = cfg).
Proof.
  rewrite unwind_provided_cases.
  destruct (truthy (field k cfg)) eqn:Ht; cbn [andb].
  - destruct (negb _).
    + destruct (unwindJsonResult (field k cfg)) as [u | e | ] eqn:Hu; try discriminate.
      cbn [obind]. intros [= <-]. rewrite field_replace_key_eq. split; [ | discriminate ].
      unfold unwindJsonResult in Hu.
      destruct (get "queryOutput" (field k cfg)); try discriminate Hu.
      cbn [mbind outcome_bind obind] in Hu.
      destruct (get "meta" (field k cfg)) as [meta | | ]; try discriminate Hu.
      cbn [mbind outcome_bind obind] in Hu.
      destruct (get "analyzerMeta" meta); try discriminate Hu.
      cbn [mbind outcome_bind obind] in Hu. now injection Hu as <-.
    + intros [= <-]. split; [ exact Ht | discriminate ].
  - intros [= <-]. split; [ exact Ht | reflexivity ].
Qed.

Lemma unwound_truthy k cfg cfg1 :
  provided_key k ->
  __unwindProvidedResults cfg = Return cfg1 ->
  truthy (field k cfg1) = truthy (field k cfg).
Proof.
  intros Hk H. unfold __unwindProvidedResults in H.
  destruct (unwind_provided "targetProjectResult" cfg) as [c | e | ] eqn:H1;
    try discriminate H.
  change (unwind_provided "referenceProjectResult" c = Return cfg1) in H.
  destruct Hk as [-> | ->].
  - rewrite (unwind_provided_other _ _ _ _ target_not_reference H).
    apply (unwind_provided_truthy _ _ _ H1).
  - rewrite (proj1 (unwind_provided_truthy _ _ _ H)). f_equal.
    apply (unwind_provided_other _ _ _ _ reference_not_target H1).
Qed.

Lemma unwound_provided k cfg cfg1 :
  provided_key k ->
  lacks_envelope (field k cfg) ->
  __unwindProvidedResults cfg = Return cfg1 ->
  nullish (prop "meta" (field k cfg)) = false /\ field k cfg1 = unwound (field k cfg).
Proof.
  intros Hk [Ht Hm] H. unfold __unwindProvidedResults in H.
  destruct (unwind_provided "targetProjectResult" cfg) as [c | e | ] eqn:H1;
    try discriminate H.
  change (unwind_provided "referenceProjectResult" c = Return cfg1) in H.
  assert (Hstep : forall a b, unwind_provided k a = Return b ->
                              field k a = field k cfg ->
                              nullish (prop "meta" (field k cfg)) = false
                              /\ field k b = unwound (field k cfg)).
  { intros a b Hab Ha. rewrite unwind_provided_cases, Ha, Ht, Hm in Hab. cbn [andb negb] in Hab.
    rewrite (unwindJsonResult_cases _ (truthy_not_nullish _ Ht)) in Hab.
    destruct (nullish (prop "meta" (field k cfg))); [ discriminate | ].
    cbn [obind] in Hab. injection Hab as <-. now rewrite field_replace_key_eq. }
  destruct Hk as [-> | ->].
  - destruct (Hstep _ _ H1 eq_refl) as [Hmeta Hc]. split; [ exact Hmeta | ].
    now rewrite (unwind_provided_other _ _ _ _ target_not_reference H).
  - apply (Hstep _ _ H).
    apply (unwind_provided_other _ _ _ _ reference_not_target H1).
Qed.

Section Identification.

Variable C : collaborators.

Lemma identify_events cfg0 w cfg :
  result (identify C cfg0 w) = Return cfg ->
  events (identify C cfg0 w)
  = Log Debug (Started (analyzerName w) "_prepare")
    :: (if truthy (field "targetProjectResult" cfg) then []
        else [ProjectMetaRead (field "targetProjectPath" cfg)])
    ++ (if truthy (field "referenceProjectPath" cfg)
           && negb (truthy (field "referenceProjectResult" cfg))
        then [ProjectMetaRead (field "referenceProjectPath" cfg)] else []).
Proof.
  intros Hres. destruct (identify_returned C _ _ _ Hres) as (Hunwound & _).
  revert Hres.
  unfold identify, projectMeta.
  unfold bind, read, emit, lift, update, ret. rewrite Hunwound.
  destruct (truthy (field "targetProjectResult" cfg));
    destruct (truthy (field "referenceProjectPath" cfg));
    destruct (truthy (field "referenceProjectResult" cfg));
    cbn [negb andb after result events app].
  all: repeat match goal with
       | |- context [getProjectMeta C ?p] => destruct (getProjectMeta C p)
       | |- context [get "analyzerMeta" ?v] => destruct (get "analyzerMeta" v)
       | |- context [get "targetProject" ?v] => destruct (get "targetProject" v)
       | _ => progress cbn [after result events app obind mbind outcome_bind]
       end.
  all: try discriminate; reflexivity.
Qed.

(** X18. [_prepare] asks the metadata service exactly for the projects
    that come without a provided result, the target first; for a project
    with a provided result the metadata is the [targetProject] of that
    result's [analyzerMeta]. *)
Theorem identify_reads_metadata (cfg0 : obj) (w : world) (cfg : obj) :
  result (identify C cfg0 w) = Return cfg ->
  let targetResult := field "targetProjectResult" cfg in
  let referenceResult := field "referenceProjectResult" cfg in
  let run := identify C cfg0 w in
  truthy targetResult = truthy (field "targetProjectResult" cfg0)
  /\ truthy referenceResult = truthy (field "referenceProjectResult" cfg0)
  /\ events run
     = Log Debug (Started (analyzerName w) "_prepare")
       :: (if truthy targetResult then []
           else [ProjectMetaRead (field "targetProjectPath" cfg0)])
       ++ (if truthy (field "referenceProjectPath" cfg0) && negb (truthy referenceResult)
           then [ProjectMetaRead (field "referenceProjectPath" cfg0)] else [])
  /\ (truthy targetResult = true ->
      targetProjectMeta (final run)
      = prop "targetProject" (prop "analyzerMeta" targetResult))
  /\ (truthy referenceResult = true ->
      referenceProjectMeta (final run)
      = prop "targetProject" (prop "analyzerMeta" referenceResult)).
Proof.
  intros Hres targetResult referenceResult run. subst targetResult referenceResult run.
  destruct (identify_returned C _ _ _ Hres) as (Hunwound & tm & rm & Htm & Hrm & ->).
  rewrite (identify_events _ _ _ Hres).
  rewrite (unwound_field "targetProjectPath" _ _ Hunwound) by discriminate.
  rewrite (unwound_field "referenceProjectPath" _ _ Hunwound) by discriminate.
  split; [ apply (unwound_truthy _ _ _ (or_introl eq_refl) Hunwound) | ].
  split; [ apply (unwound_truthy _ _ _ (or_intror eq_refl) Hunwound) | ].
  split; [ reflexivity | ]. cbn [identified targetProjectMeta referenceProjectMeta].
  unfold target_meta in Htm. unfold reference_meta in Hrm.
  split; intros Ht; rewrite Ht in *; cbn [negb andb] in *.
  - destruct (get "analyzerMeta" (field "targetProjectResult" cfg)) as [am | e | ] eqn:Ham;
      try discriminate Htm.
    cbn [obind] in Htm. unfold get in Ham, Htm.
    destruct (nullish (field "targetProjectResult" cfg)); [ discriminate Ham | ].
    destruct (nullish am); [ discriminate Htm | ].
    injection Ham as <-. injection Htm as <-. now destruct w.
  - rewrite andb_false_r in Hrm.
    destruct (get "analyzerMeta" (field "referenceProjectResult" cfg)) as [am | e | ] eqn:Ham;
      try discriminate Hrm.
    cbn [obind] in Hrm. unfold get in Ham, Hrm.
    destruct (nullish (field "referenceProjectResult" cfg)); [ discriminate Ham | ].
    destruct (nullish am); [ discriminate Hrm | ].
    injection Ham as <-. injection Hrm as <-. now destruct w.
Qed.

(** X19. In a call without a reference project the analyzer keeps the
    reference metadata it held before the call, and that metadata goes into
    the identifier of the call. *)
Theorem identify_keeps_earlier_reference (cfg0 : obj) (w : world) (cfg : obj) :
  truthy (field "referenceProjectPath" cfg0) = false ->
  truthy (field "referenceProjectResult" cfg0) = false ->
  result (identify C cfg0 w) = Return cfg ->
  let w' := final (identify C cfg0 w) in
  referenceProjectMeta w' = referenceProjectMeta w
  /\ identifier w'
     = JStr (createIdentifier C (targetProjectMeta w') (referenceProjectMeta w) (JObj cfg)).
Proof.
  intros Hpath Hresult Hres w'. subst w'.
  destruct (identify_returned C _ _ _ Hres) as (Hunwound & tm & rm & Htm & Hrm & ->).
  unfold reference_meta in Hrm.
  rewrite (unwound_field "referenceProjectPath" _ _ Hunwound) in Hrm by discriminate.
  rewrite (unwound_truthy _ _ _ (or_intror eq_refl) Hunwound) in Hrm.
  rewrite Hpath, Hresult in Hrm. cbn [andb] in Hrm. injection Hrm as <-.
  split; reflexivity.
Qed.

(** X20. A provided result in its stored shape whose [meta] holds no
    [analyzerMeta] is unwound all the same, and the call then never returns
    a result: it fails where the metadata is read from the unwound result,
    if not before. *)
Theorem execute_needs_analyzerMeta
    (f : ast_analysis) (customConfig : value) (w : world) (k : string) :
  provided_key k ->
  lacks_envelope (field k (initial_config customConfig)) ->
  nullish (prop "analyzerMeta" (prop "meta" (field k (initial_config customConfig)))) = true ->
  returned (result (executeWith C f customConfig w)) = false.
Proof.
  intros Hk Hlacks Hnone.
  destruct (result (executeWith C f customConfig w)) as [r | e | ] eqn:Hres;
    [ exfalso | reflexivity | reflexivity ].
  rewrite executeWith_run, result_after in Hres.
  apply bind_result_inv in Hres as ([x cfg] & Hprepare & _).
  unfold _prepare in Hprepare.
  apply bind_result_inv in Hprepare as (cfg1 & Hid & _).
  destruct (identify_returned C _ _ _ Hid) as (Hunwound & tm & rm & Htm & Hrm & _).
  destruct (unwound_provided _ _ _ Hk Hlacks Hunwound) as (_ & Hfield).
  assert (Hread : obind (get "analyzerMeta" (field k cfg1)) (get "targetProject")
                  = Throw (TypeError ("Cannot read properties of undefined or null: "
                                      +:+ "targetProject"))).
  { rewrite Hfield. unfold unwound at 1. cbn [get nullish obind].
    change (prop "analyzerMeta" (unwound ?x)) with (prop "analyzerMeta" (prop "meta" x)).
    now rewrite (get_nullish _ _ Hnone). }
  assert (Htruthy : truthy (field k cfg1) = true) by (rewrite Hfield; reflexivity).
  destruct Hk as [-> | ->].
  - unfold target_meta in Htm. rewrite Htruthy in Htm. cbn [negb] in Htm. congruence.
  - unfold reference_meta in Hrm. rewrite Htruthy, andb_false_r in Hrm. congruence.
Qed.

End Identification.

(** ** Unwinding as a whole *)

Lemma keys_replace_key k x (l : list (string * value)) v :
  lookup_key k l = Some v -> map fst (replace_key k x l) = map fst l.
Proof.
  induction l as [ | [k' v'] rest IH ]; simpl; [ discriminate | ].
  destruct (String.eqb_spec k' k) as [-> | Hne]; simpl; [ reflexivity | ].
  intros H. now rewrite IH.
Qed.

Lemma truthy_field_lookup k cfg :
  truthy (field k cfg) = true -> exists v, lookup_key k cfg = Some v.
Proof.
  unfold field, prop. cbn [own_entries].
  destruct (lookup_key k cfg) as [v | ]; [ eauto | discriminate ].
Qed.

Lemma unwind_provided_keys k cfg cfg' :
  unwind_provided k cfg = Return cfg' -> map fst cfg' = map fst cfg.
Proof.
  rewrite unwind_provided_cases.
  destruct (truthy (field k cfg)) eqn:Ht; cbn [andb]; [ | now intros [= <-] ].
  destruct (negb _); [ | now intros [= <-] ].
  destruct (unwindJsonResult (field k cfg)) as [u | e | ]; try discriminate.
  cbn [obind]. intros [= <-].
  destruct (truthy_field_lookup _ _ Ht) as (v & Hv). now apply keys_replace_key with v.
Qed.

(** X21. Unwinding works in place: the configuration keeps its keys in
    their order and every property but the two provided results its value;
    and a configuration whose provided results all have an [analyzerMeta]
    is left as it is. *)
Theorem unwinding_works_in_place (cfg : obj) :
  (forall cfg', __unwindProvidedResults cfg = Return cfg' ->
     map fst cfg' = map fst cfg
     /\ forall k, ~ provided_key k -> field k cfg' = field k cfg)
  /\ ((forall k, provided_key k -> truthy (field k cfg) = true ->
         truthy (prop "analyzerMeta" (field k cfg)) = true) ->
      __unwindProvidedResults cfg = Return cfg).
Proof.
  split.
  - intros cfg' H. split.
    + unfold __unwindProvidedResults in H.
      destruct (unwind_provided "targetProjectResult" cfg) as [c | e | ] eqn:H1;
        try discriminate H.
      change (unwind_provided "referenceProjectResult" c = Return cfg') in H.
      rewrite (unwind_provided_keys _ _ _ H). apply (unwind_provided_keys _ _ _ H1).
    + intros k Hk. apply (unwound_field k _ _ H); intros ->; apply Hk; [ now left | now right ].
  - intros Hall.
    assert (Hstep : forall k, provided_key k -> unwind_provided k cfg = Return cfg).
    { intros k Hk. rewrite unwind_provided_cases.
      destruct (truthy (field k cfg)) eqn:Ht; [ | reflexivity ].
      now rewrite (Hall k Hk Ht). }
    unfold __unwindProvidedResults. rewrite (Hstep _ (or_introl eq_refl)).
    apply (Hstep _ (or_intror eq_refl)).
Qed.

(** ** The configuration of a call *)

Lemma lookup_spread k (b a : list (string * value)) :
  NoDup (map fst b) ->
  lookup_key k (spread a b)
  = match lookup_key k b with
    | Some v => Some v
    | None => lookup_key k a
    end.
Proof.
  unfold spread. revert a. induction b as [ | [k' v'] rest IH ]; intros a Hnodup.
  - reflexivity.
  - apply NoDup_cons in Hnodup as [Hfresh Hrest]. cbn [fold_left fst snd lookup_key].
    rewrite (IH _ Hrest).
    destruct (String.eqb_spec k' k) as [-> | Hne].
    + assert (Hnone : lookup_key k rest = None).
      { destruct (lookup_key k rest) as [v | ] eqn:Hv; [ | reflexivity ].
        destruct Hfresh. clear -Hv.
        induction rest as [ | [k0 v0] rest IH ]; [ discriminate | ]. simpl in *.
        destruct (String.eqb_spec k0 k) as [-> | ]; [ now left | right; auto ]. }
      rewrite Hnone. apply lookup_replace_key_eq.
    + destruct (lookup_key k rest); [ reflexivity | ].
      now apply lookup_replace_key_ne.
Qed.

(** X22. The configuration [execute] works with holds what the caller
    gave, and [null] for a project path the caller left out. *)
Theorem initial_config_defaults (customConfig : value) (k : string) :
  NoDup (map fst (own_entries customConfig)) ->
  field k (initial_config customConfig)
  = match lookup_key k (own_entries customConfig) with
    | Some v => v
    | None =>
        if (k =? "targetProjectPath") || (k =? "referenceProjectPath")
        then JNull else JUndefined
    end.
Proof.
  intros Hnodup. unfold field, prop, initial_config. cbn [own_entries].
  rewrite (lookup_spread _ _ _ Hnodup).
  destruct (lookup_key k (own_entries customConfig)); [ reflexivity | ].
  cbn [lookup_key]. rewrite !(String.eqb_sym k).
  destruct ("targetProjectPath" =? k); [ reflexivity | ].
  destruct ("referenceProjectPath" =? k); reflexivity.
Qed.

Lemma identify_reads_metadata_witness :
  events (identify Example.services (initial_config Example.with_provided_result)
            Example.start)
  = [Log Debug (Started "find-imports" "_prepare")]
  /\ targetProjectMeta
       (final (identify Example.services (initial_config Example.with_provided_result)
                 Example.start))
     = JObj [("name", JStr "target"); ("version", JStr "0.1.0")].
Proof.
  destruct (identify_reads_metadata Example.services
              (initial_config Example.with_provided_result) Example.start _ eq_refl)
    as (_ & _ & Hev & Htarget & _).
  split; [ exact Hev | exact (Htarget eq_refl) ].
Defined.

Lemma identify_keeps_earlier_reference_witness :
  referenceProjectMeta
    (final (identify Example.services (initial_config Further.alone) Further.seasoned))
  = JObj [("name", JStr "dep-a"); ("version", JStr "1.2.0")].
Proof.
  exact (proj1 (identify_keeps_earlier_reference Example.services
                  (initial_config Further.alone) Further.seasoned _
                  eq_refl eq_refl eq_refl)).
Defined.

Lemma execute_needs_analyzerMeta_witness :
  returned
    (result (executeWith Example.services Example.analysis
               (JObj [("targetProjectPath", JStr "/work/target");
                      ("targetProjectResult", Further.anonymous)]) Example.start))
  = false.
Proof.
  exact (execute_needs_analyzerMeta Example.services Example.analysis
           (JObj [("targetProjectPath", JStr "/work/target");
                  ("targetProjectResult", Further.anonymous)]) Example.start
           "targetProjectResult" (or_introl eq_refl) (conj eq_refl eq_refl) eq_refl).
Defined.

Lemma unwinding_works_in_place_witness :
  (exists cfg',
      __unwindProvidedResults (initial_config Example.with_provided_result) = Return cfg'
      /\ map fst cfg' = map fst (initial_config Example.with_provided_result)
      /\ field "gatherFilesConfig" cfg' = Example.gatherJs)
  /\ __unwindProvidedResults Further.both_provided = Return Further.both_provided.
Proof.
  split.
  - eexists. split; [ reflexivity | ].
    destruct (proj1 (unwinding_works_in_place (initial_config Example.with_provided_result))
                _ eq_refl) as (Hkeys & Hother).
    split; [ exact Hkeys | ].
    refine (Hother "gatherFilesConfig" _). intros [H | H]; discriminate H.
  - apply (proj2 (unwinding_works_in_place Further.both_provided)).
    intros k [-> | ->] _; reflexivity.
Defined.

Lemma initial_config_defaults_witness :
  field "referenceProjectPath" (initial_config Further.alone) = JNull
  /\ field "targetProjectPath" (initial_config Further.alone) = JStr "/work/target".
Proof.
  assert (Hnodup : NoDup (map fst (own_entries Further.alone))).
  { apply (bool_decide_unpack _). reflexivity. }
  split.
  - exact (initial_config_defaults Further.alone "referenceProjectPath" Hnodup).
  - exact (initial_config_defaults Further.alone "targetProjectPath" Hnodup).
Defined.

(** * Extend docs: paths inside a monorepo *)

Lemma prefix_append (p rest : string) : String.prefix p (p +:+ rest) = true.
Proof.
  induction p as [ | c p IH ]; simpl; [ now destruct rest | ].
  destruct (ascii_dec c c) as [_ | Hne]; [ exact IH | now destruct Hne ].
Qed.

Lemma skip_append (p rest : string) : skip (String.length p) (p +:+ rest) = rest.
Proof. induction p as [ | c p IH ]; simpl; [ reflexivity | exact IH ]. Qed.

Lemma replace_first_prefix (p s : string) :
  String.prefix p s = true -> replace_first p "" s = skip (String.length p) s.
Proof. intros H. destruct s; cbn [replace_first]; now rewrite H. Qed.

Lemma some_package_none (pathStr : string) (pkgs : list mono_pkg) :
  (forall q, In q pkgs -> String.prefix ("./" +:+ pkg_path q) pathStr = false) ->
  some_package pathStr pkgs = None.
Proof.
  induction pkgs as [ | q rest IH ]; intros H; [ reflexivity | ].
  cbn [some_package]. cbv zeta. rewrite (H q (or_introl eq_refl)).
  apply IH. intros q' Hq'. apply H. now right.
Qed.

Lemma some_package_first (before : list mono_pkg) (pkg : mono_pkg)
    (later : list mono_pkg) (rest : string) :
  (forall q, In q before ->
     String.prefix ("./" +:+ pkg_path q) ("./" +:+ pkg_path pkg +:+ rest) = false) ->
  some_package ("./" +:+ pkg_path pkg +:+ rest) (before ++ pkg :: later)
  = Some (pkg_name pkg +:+ "/" +:+ rest).
Proof.
  intros Hbefore. induction before as [ | q qs IH ].
  - cbn [app some_package]. cbv zeta.
    change ("./" +:+ pkg_path pkg +:+ rest) with (("./" +:+ pkg_path pkg) +:+ rest).
    rewrite prefix_append, replace_first_prefix by apply prefix_append.
    now rewrite skip_append.
  - cbn [app some_package]. cbv zeta. rewrite (Hbefore q (or_introl eq_refl)).
    apply IH. intros q' Hq'. apply Hbefore. now right.
Qed.

(** X23. The first package whose path, written [./path], starts the given
    path decides: the result is the name of that package, a slash, and what
    follows the package path in the given path, as it is.  A path that
    starts with no package path is returned unchanged. *)
Theorem replaceToMonoRepoPath_first_match
    (before : list mono_pkg) (pkg : mono_pkg) (later : list mono_pkg)
    (rest pathStr : string) :
  (forall q, In q before ->
     String.prefix ("./" +:+ pkg_path q) ("./" +:+ pkg_path pkg +:+ rest) = false) ->
  (forall q, In q (before ++ pkg :: later) ->
     String.prefix ("./" +:+ pkg_path q) pathStr = false) ->
  replaceToMonoRepoPath (JStr ("./" +:+ pkg_path pkg +:+ rest)) (before ++ pkg :: later)
  = Return (JStr (pkg_name pkg +:+ "/" +:+ rest))
  /\ replaceToMonoRepoPath (JStr pathStr) (before ++ pkg :: later) = Return (JStr pathStr).
Proof.
  intros Hbefore Hnone. split.
  - unfold replaceToMonoRepoPath. rewrite (some_package_first _ _ _ _ Hbefore).
    now destruct before.
  - unfold replaceToMonoRepoPath. rewrite (some_package_none _ _ Hnone). now destruct before.
Qed.

Lemma to_is_no_index : plain_name "to".
Proof. plain. Qed.

Lemma prop_to_text x s : prop "to" x = JStr s -> exists props, x = JObj props.
Proof.
  destruct x as [ | | b | n | t | items | props ]; try discriminate; [ | | eauto ].
  - now rewrite (prop_plain_string _ _ to_is_no_index).
  - now rewrite (prop_plain_array _ _ to_is_no_index).
Qed.

Lemma replaceToMonoRepoPath_text to pkgs to' :
  pkgs <> [] ->
  replaceToMonoRepoPath to pkgs = Return to' ->
  exists s s', to = JStr s /\ to' = JStr s'.
Proof.
  intros Hpkgs. destruct pkgs as [ | q rest ]; [ now destruct Hpkgs | ].
  destruct to; try discriminate. intros [= <-]. eauto.
Qed.

(** X24. Inside a monorepo with at least one package, a path entry is
    rewritten only when its [to] is a string; the entry then keeps every
    other property, and its [to] is what [replaceToMonoRepoPath] makes of
    the old one. *)
Theorem rewrite_path_touches_to (monoPkgs : list mono_pkg) (pathObj pathObj' : value) :
  monoPkgs <> [] ->
  rewrite_path monoPkgs pathObj = Return pathObj' ->
  exists s,
    prop "to" pathObj = JStr s
    /\ replaceToMonoRepoPath (JStr s) monoPkgs = Return (prop "to" pathObj')
    /\ forall k, k <> "to" -> prop k pathObj' = prop k pathObj.
Proof.
  intros Hpkgs. unfold rewrite_path, get.
  destruct (nullish pathObj) eqn:Hn; [ discriminate | ]. cbn [mbind outcome_bind obind].
  destruct (replaceToMonoRepoPath (prop "to" pathObj) monoPkgs) as [to' | e | ] eqn:Hto;
    try discriminate.
  cbn [obind].
  destruct (replaceToMonoRepoPath_text _ _ _ Hpkgs Hto) as (s & s' & Hs & ->).
  destruct (prop_to_text _ _ Hs) as (props & ->). cbn [assign]. intros [= <-].
  exists s. split; [ exact Hs | ]. rewrite <- Hs, Hto. split.
  - f_equal. symmetry. apply (field_replace_key_eq "to").
  - intros k Hk. apply (field_replace_key_ne k "to"). congruence.
Qed.

Lemma skeleton_replace_key k x v (props : list (string * value)) :
  lookup_key k props = Some v ->
  skeleton x = skeleton v ->
  map (fun kv => (fst kv, skeleton (snd kv))) (replace_key k x props)
  = map (fun kv => (fst kv, skeleton (snd kv))) props.
Proof.
  intros Hv Hx. induction props as [ | [k' v'] rest IH ]; simpl in *; [ discriminate | ].
  destruct (String.eqb_spec k' k) as [-> | Hne]; simpl.
  - injection Hv as ->. now rewrite Hx.
  - now rewrite IH.
Qed.

Lemma prop_lookup k props v :
  prop k (JObj props) = v -> v <> JUndefined -> lookup_key k props = Some v.
Proof.
  unfold prop. cbn [own_entries]. destruct (lookup_key k props); simpl; congruence.
Qed.

Lemma for_each_skeleton (f : value -> outcome value) items items' :
  (forall x x', f x = Return x' -> skeleton x' = skeleton x) ->
  for_each f items = Return items' ->
  map skeleton items' = map skeleton items.
Proof.
  intros Hf. revert items'. induction items as [ | x rest IH ]; simpl; intros items'.
  - now intros [= <-].
  - destruct (f x) as [y | e | ] eqn:Hx; simpl; try discriminate.
    destruct (for_each f rest) as [ys | e | ]; simpl; try discriminate.
    intros [= <-]. simpl. now rewrite (Hf _ _ Hx), (IH ys).
Qed.

Lemma rewrite_path_skeleton monoPkgs x x' :
  monoPkgs <> [] -> rewrite_path monoPkgs x = Return x' -> skeleton x' = skeleton x.
Proof.
  intros Hpkgs. unfold rewrite_path, get.
  destruct (nullish x) eqn:Hn; [ discriminate | ]. cbn [mbind outcome_bind obind].
  destruct (replaceToMonoRepoPath (prop "to" x) monoPkgs) as [to' | e | ] eqn:Hto;
    try discriminate.
  cbn [obind].
  destruct (replaceToMonoRepoPath_text _ _ _ Hpkgs Hto) as (s & s' & Hs & ->).
  destruct (prop_to_text _ _ Hs) as (props & ->). cbn [assign]. intros [= <-].
  cbn [skeleton]. f_equal. apply skeleton_replace_key with (JStr s); [ | reflexivity ].
  now apply prop_lookup.
Qed.

Lemma rewrite_paths_skeleton monoPkgs section section' :
  monoPkgs <> [] ->
  rewrite_paths monoPkgs section = Return section' ->
  skeleton section' = skeleton section.
Proof.
  intros Hpkgs. unfold rewrite_paths, get.
  destruct (nullish section) eqn:Hn; [ discriminate | ]. cbn [mbind outcome_bind obind].
  destruct (prop "paths" section) as [ | | b | n | s | items | ps ] eqn:Hpaths;
    try discriminate.
  destruct (for_each (rewrite_path monoPkgs) items) as [items' | e | ] eqn:Hitems;
    try discriminate.
  cbn [obind].
  destruct section as [ | | b | n | s | xs | props ]; intros [= <-]; try reflexivity.
  cbn [skeleton]. f_equal. apply skeleton_replace_key with (JArr items).
  - apply prop_lookup; [ exact Hpaths | discriminate ].
  - cbn [skeleton]. f_equal. apply (for_each_skeleton (rewrite_path monoPkgs)); [ | exact Hitems ].
    intros x x'. now apply rewrite_path_skeleton.
Qed.

Lemma rewrite_section_skeleton monoPkgs k r r' :
  monoPkgs <> [] ->
  rewrite_section monoPkgs k r = Return r' ->
  skeleton r' = skeleton r.
Proof.
  intros Hpkgs. unfold rewrite_section, get.
  destruct (nullish r) eqn:Hn; [ discriminate | ]. cbn [mbind outcome_bind obind].
  destruct (truthy (prop k r)) eqn:Ht; [ | now intros [= <-] ].
  destruct (rewrite_paths monoPkgs (prop k r)) as [section' | e | ] eqn:Hsection;
    try discriminate.
  cbn [obind].
  destruct r as [ | | b | n | s | xs | props ]; intros [= <-]; try reflexivity.
  cbn [skeleton]. f_equal.
  apply skeleton_replace_key with (prop k (JObj props)).
  - apply prop_lookup; [ reflexivity | ]. intros Hu. now rewrite Hu in Ht.
  - now apply rewrite_paths_skeleton with monoPkgs.
Qed.

(** X25. For a monorepo with at least one package, the rewriting changes
    nothing but the text of strings: every result keeps its keys in their
    order, its arrays their lengths, and every member that is not a string
    its value.  Without a monorepo the results are returned as they
    are. *)
Theorem toMonoRepoPaths_keeps_skeleton
    (monoPkgs : list mono_pkg) (queryOutputs queryOutputs' : list value) :
  monoPkgs <> [] ->
  toMonoRepoPaths (Some monoPkgs) queryOutputs = Return queryOutputs' ->
  map skeleton queryOutputs' = map skeleton queryOutputs
  /\ toMonoRepoPaths None queryOutputs = Return queryOutputs.
Proof.
  intros Hpkgs H. split; [ | reflexivity ].
  apply (for_each_skeleton (rewrite_result monoPkgs)); [ | exact H ].
  intros x x'. unfold rewrite_result.
  destruct (rewrite_section monoPkgs "variable" x) as [y | e | ] eqn:Hy; try discriminate.
  cbn [mbind outcome_bind obind]. intros Hx'.
  rewrite (rewrite_section_skeleton _ _ _ _ Hpkgs Hx').
  apply (rewrite_section_skeleton _ _ _ _ Hpkgs Hy).
Qed.

Lemma replaceToMonoRepoPath_first_match_witness :
  replaceToMonoRepoPath (JStr "./packages/lea-tabs/lea-tabs.js") Further.packages
  = Return (JStr "lea-tabs//lea-tabs.js")
  /\ replaceToMonoRepoPath (JStr "./docs/lea-tabs.js") Further.packages
     = Return (JStr "./docs/lea-tabs.js").
Proof.
  refine (replaceToMonoRepoPath_first_match
            [ {| pkg_path := "packages/lea-button"; pkg_name := "lea-button" |} ]
            {| pkg_path := "packages/lea-tabs"; pkg_name := "lea-tabs" |} []
            "/lea-tabs.js" "./docs/lea-tabs.js" _ _).
  - intros q [<- | []]. reflexivity.
  - intros q [<- | [<- | []]]; reflexivity.
Defined.

Lemma rewrite_path_touches_to_witness :
  exists pathObj',
    rewrite_path Further.packages
      (JObj [("from", JStr "./index.js"); ("to", JStr "./packages/lea-tabs/lea-tabs.js")])
    = Return pathObj'
    /\ prop "to" pathObj' = JStr "lea-tabs//lea-tabs.js"
    /\ prop "from" pathObj' = JStr "./index.js".
Proof.
  eexists. split; [ reflexivity | ].
  destruct (rewrite_path_touches_to Further.packages
              (JObj [("from", JStr "./index.js");
                     ("to", JStr "./packages/lea-tabs/lea-tabs.js")]) _
              ltac:(discriminate) eq_refl) as (s & Hs & Hto & Hother).
  split; [ reflexivity | ]. exact (Hother "from" ltac:(discriminate)).
Defined.

Lemma toMonoRepoPaths_keeps_skeleton_witness :
  exists queryOutputs',
    toMonoRepoPaths (Some Further.packages) [Further.matched] = Return queryOutputs'
    /\ map skeleton queryOutputs' = [skeleton Further.matched].
Proof.
  eexists. split; [ reflexivity | ].
  exact (proj1 (toMonoRepoPaths_keeps_skeleton Further.packages [Further.matched] _
                  ltac:(discriminate) eq_refl)).
Defined.

(** * What a call returns *)

(** ** Sanitization of the results a call builds *)

Section Built.

Variable C : collaborators.

Lemma is_object_normalized l : is_object (normalized C (JObj l)) = true.
Proof. unfold normalized. now destruct (platform C =? "win32"). Qed.

Lemma enveloped_normalized w q cfg : enveloped (normalized C (assembled w q cfg)) = true.
Proof.
  unfold enveloped. rewrite configuration_of_normalized, is_object_normalized.
  destruct (analyzerMeta_of_normalized C w q cfg) as (meta & _ & ->).
  rewrite is_object_normalized. unfold assembled. now rewrite has_key_normalized.
Qed.

Lemma ensured_result_enveloped q cfg w r :
  result (ensureAnalyzerResultFormat C q cfg w) = Return r ->
  enveloped r = true /\ sanitized r = true.
Proof.
  intros Hres. split; [ | exact (ensured_result_sanitized C _ _ _ _ Hres) ].
  destruct (ensured_result C _ _ _ _ Hres) as (q' & _ & ->). apply enveloped_normalized.
Qed.

(** What [_prepare] hands back as a result: one it built, or the entry
    the cache store holds under the identifier of the call. *)
Lemma prepare_answer cfg0 w x cfg :
  result (_prepare C cfg0 w) = Return (x, cfg) ->
  truthy x = true ->
  (enveloped x = true /\ sanitized x = true)
  \/ exists cached,
       store w !! (analyzerName w, identifier_text (final (_prepare C cfg0 w))) = Some cached
       /\ truthy cached = true
       /\ retrieved cached = Return x.
Proof.
  intros Hres Hx.
  remember (final (_prepare C cfg0 w)) as w' eqn:Hw'.
  unfold _prepare in Hres, Hw'.
  apply bind_result_inv in Hres as (cfg1 & Hid & Hinv).
  rewrite (bind_returned _ _ _ _ Hid), final_after in Hw'.
  destruct (keeps_identify C cfg0 w) as (Hstore1 & Hname1).
  set (w1 := final (identify C cfg0 w)) in *.
  apply bind_result_inv in Hinv as (skipped & Hgate & Hinv).
  rewrite (bind_returned _ _ _ _ Hgate), final_after in Hw'.
  destruct skipped as [skipResult | ].
  - left. injection Hinv as <- _.
    rewrite gate_run in Hgate.
    destruct (_ && _); [ | discriminate ].
    destruct (checkForMatchCompatibility C _ _) as [verdict | e | ]; try discriminate.
    destruct (negb (compatible verdict)); [ | discriminate ].
    injection Hgate as <-. split; [ apply enveloped_normalized | ].
    rewrite sanitized_normalized.
    now apply sanitized_assembled with (JStr (bracketed (reason verdict))).
  - right. rewrite (gate_open _ _ _ Hgate) in Hw', Hinv. cbn [final] in Hw', Hinv.
    unfold bind at 1 2 in Hw'. unfold read in Hw'. cbn [after] in Hw'.
    rewrite !final_after in Hw'.
    unfold bind at 1 2 in Hinv. unfold read in Hinv. cbn [after] in Hinv.
    rewrite !result_after in Hinv.
    apply bind_result_inv in Hinv as (cached & Hcached & Hinv).
    rewrite (bind_returned _ _ _ _ Hcached), final_after in Hw'.
    rewrite getCachedAnalyzerResult_run in Hcached, Hinv, Hw'.
    cbv zeta in Hcached, Hinv, Hw'.
    destruct (truthy (default JUndefined (store w1 !! (analyzerName w1, identifier_text w1))))
      eqn:Hhit; cbn [result final] in Hcached, Hinv, Hw'.
    + destruct (truthy cached) eqn:Hc.
      * cbn [ret final] in Hw'. subst w'. injection Hinv as <- _.
        rewrite Hstore1, Hname1 in Hcached, Hhit.
        destruct (store w !! (analyzerName w, identifier_text w1)) as [entry | ];
          [ | discriminate Hhit ].
        exists entry. repeat split; assumption.
      * apply bind_result_inv in Hinv as (u & _ & Hinv).
        injection Hinv as <- _. discriminate Hx.
    + injection Hcached as <-. cbn [truthy] in Hinv.
      apply bind_result_inv in Hinv as (u & _ & Hinv).
      injection Hinv as <- _. discriminate Hx.
Qed.

End Built.

(** C3, as the code has it.  Every result [ensureAnalyzerResultFormat]
    returns has the envelope of an AnalyzerQueryResult and satisfies the
    sanitization invariant: its configuration has neither project path and
    does not carry both provided results, the project metadata it shows has
    no [path], and no entry of an array query output has a [path] in its
    [project].  A result [execute] returns is such a result, or it is the
    entry the cache store holds under the analyzer's name and the
    identifier of the call, unwound and tagged but not sanitized: it
    satisfies the invariant exactly when the stored entry does. *)
Theorem execute_builds_sanitized_results :
  (forall C queryOutput configuration w r,
      result (ensureAnalyzerResultFormat C queryOutput configuration w) = Return r ->
      enveloped r = true /\ sanitized r = true)
  /\ (forall C f customConfig w r,
        let call := executeWith C f customConfig w in
        result call = Return r ->
        (enveloped r = true /\ sanitized r = true)
        \/ exists cached,
             store w !! (analyzerName w, identifier_text (final call)) = Some cached
             /\ truthy cached = true
             /\ retrieved cached = Return r
             /\ sanitized r = sanitized (unwound cached)).
Proof.
  split; [ exact ensured_result_enveloped | ].
  intros C f customConfig w r call Hres. subst call.
  remember (final (executeWith C f customConfig w)) as w' eqn:Hw'.
  rewrite executeWith_run in Hres, Hw'. rewrite result_after in Hres.
  rewrite final_after in Hw'.
  apply bind_result_inv in Hres as ([x cfg] & Hprepare & Hres).
  rewrite (bind_returned _ _ _ _ Hprepare), final_after in Hw'.
  cbn [fst snd] in Hres, Hw'.
  destruct (truthy x) eqn:Hx.
  - injection Hres as <-. cbn [ret final] in Hw'. subst w'.
    destruct (prepare_answer C _ _ _ _ Hprepare Hx) as [Hbuilt | (cached & Hc & Ht & Hr)];
      [ now left | right ].
    exists cached. repeat split; try assumption. now apply sanitized_retrieved.
  - left. apply bind_result_inv in Hres as (q & _ & Hres).
    rewrite finalize_result in Hres. exact (ensured_result_enveloped C _ _ _ _ Hres).
Qed.

Lemma execute_builds_sanitized_results_witness :
  (exists r,
      result (ensureAnalyzerResultFormat Example.services Example.project_output
                Example.full_config Example.located) = Return r
      /\ enveloped r = true /\ sanitized r = true)
  /\ (exists r,
        result (ensureAnalyzerResultFormat (Example.on_windows Example.services)
                  Example.project_output Example.full_config Example.located) = Return r
        /\ enveloped r = true /\ sanitized r = true)
  /\ (exists r,
        result (executeWith Example.services Example.analysis Example.usual Example.start)
        = Return r
        /\ enveloped r = true /\ sanitized r = true)
  /\ (exists r,
        result (execute Example.services (Example.config "/work/target" "/work/dep-b")
                  Example.start) = Return r
        /\ enveloped r = true /\ sanitized r = true).
Proof.
  destruct execute_builds_sanitized_results as (Hbuilt & Hcall).
  split; [ | split; [ | split ] ].
  - eexists. split; [ reflexivity | ].
    exact (Hbuilt Example.services Example.project_output Example.full_config
             Example.located _ eq_refl).
  - eexists. split; [ reflexivity | ].
    exact (Hbuilt (Example.on_windows Example.services) Example.project_output
             Example.full_config Example.located _ eq_refl).
  - eexists. split; [ reflexivity | ].
    destruct (Hcall Example.services Example.analysis Example.usual Example.start _ eq_refl)
      as [Hok | (cached & Hstored & _)]; [ exact Hok | ].
    vm_compute in Hstored. discriminate Hstored.
  - eexists. split; [ reflexivity | ].
    destruct (Hcall Example.services (fun _ _ => Return JUndefined)
                (Example.config "/work/target" "/work/dep-b") Example.start _ eq_refl)
      as [Hok | (cached & Hstored & _)]; [ exact Hok | ].
    vm_compute in Hstored. discriminate Hstored.
Defined.

(** The claim as the specification states it fails on a cache hit: the
    entry the cache store holds comes back as it was stored, here with the
    target path in its configuration and in the metadata of the target. *)
Lemma execute_returns_an_unsanitized_cache_entry :
  let call := execute Example.services Example.usual Example.tainted in
  exists r,
    result call = Return r
    /\ sanitized r = false
    /\ has_key "targetProjectPath" (prop "configuration" (prop "analyzerMeta" r)) = true
    /\ has_key "path" (prop "targetProject" (prop "analyzerMeta" r)) = true.
Proof. vm_compute. eexists. repeat split. Qed.

(** ** The same call again *)




Section Again.

Variable C : collaborators.
Variable f : ast_analysis.











End Again.

Section Paths.

Variable C : collaborators.
Variable f : ast_analysis.






End Paths.

Section Twice.

Variable C : collaborators.
Variable f : ast_analysis.



End Twice.

Section ServedFromCache.

Variable C : collaborators.
Variable f : ast_analysis.




End ServedFromCache.


